(** * Data ingestion service: schema synthesis and loading

    A shallow embedding of [pg_service.py] and of the namespace clean-up of
    [main.py], with the properties the specification states about them.

    Conventions of the model.
    - A Python [str] is a [string]; a character is an [ascii], read as the
      code point U+0000..U+00FF.  The character classes of [str.isspace],
      [str.isupper], [str.islower], [str.isdigit], [str.lower] and of the
      regular expressions are the Unicode ones on that range.
    - A Python [dict] is an association list in insertion order, updated in
      place ([dict_set]).
    - The PostgreSQL connection is a pair of catalogues, the committed one
      and the one seen by the open transaction; a statement the store
      refuses raises, and which statements it refuses is a parameter.
      Where the program catches the exception and uses the connection again
      ([drop_orphan_schemas]) the connection also carries whether its
      transaction is aborted.
    - Names of namespaces and tables are compared as given; PostgreSQL keeps
      a name whole when it has at most 63 bytes. *)

From Stdlib Require Import List String Ascii Bool Arith NArith ZArith Lia.
From Stdlib Require Import Permutation.
From Stdlib Require Import Floats.SpecFloat.
Import ListNotations.

Set Implicit Arguments.
Set Warnings "-register-all".

(** ** Characters and strings as Python sees them *)

Module Py.

Definition chars (s : string) : list ascii := list_ascii_of_string s.
Definition str (l : list ascii) : string := string_of_list_ascii l.

Definition code (c : ascii) : N := N_of_ascii c.

Definition between (lo hi : N) (c : ascii) : bool :=
  ((lo <=? code c) && (code c <=? hi))%N.

Definition is_code (n : N) (c : ascii) : bool := (code c =? n)%N.

(** The classes written out in the regular expressions. *)
Definition az (c : ascii) : bool := between 97 122 c.
Definition AZ (c : ascii) : bool := between 65 90 c.
Definition d09 (c : ascii) : bool := between 48 57 c.
Definition underscore (c : ascii) : bool := is_code 95 c.
Definition hyphen (c : ascii) : bool := is_code 45 c.

(** [[a-zA-Z0-9_]] *)
Definition word (c : ascii) : bool := az c || AZ c || d09 c || underscore c.

(** [str.isspace] of one character. *)
Definition isspace (c : ascii) : bool :=
  between 9 13 c || between 28 32 c || is_code 133 c || is_code 160 c.

(** [str.isupper], [str.islower], [str.isdigit] of one character. *)
Definition isupper (c : ascii) : bool :=
  between 65 90 c || between 192 214 c || between 216 222 c.

Definition islower (c : ascii) : bool :=
  between 97 122 c || is_code 170 c || is_code 181 c || is_code 186 c
  || between 223 246 c || between 248 255 c.

Definition isdigit (c : ascii) : bool :=
  between 48 57 c || is_code 178 c || is_code 179 c || is_code 185 c.

(** [str.lower] of one character. *)
Definition lower (c : ascii) : ascii :=
  if isupper c then ascii_of_N (code c + 32) else c.

(** [s.strip(chars)]: the characters of class [cls] are removed at both ends. *)
Fixpoint lstrip (cls : ascii -> bool) (s : list ascii) : list ascii :=
  match s with
  | [] => []
  | c :: tl => if cls c then lstrip cls tl else s
  end.

Fixpoint rstrip (cls : ascii -> bool) (s : list ascii) : list ascii :=
  match s with
  | [] => []
  | c :: tl =>
      match rstrip cls tl with
      | [] => if cls c then [] else [c]
      | rest => c :: rest
      end
  end.

Definition strip (cls : ascii -> bool) (s : list ascii) : list ascii :=
  rstrip cls (lstrip cls s).

(** [re.sub(r"[cls]+", repl, s)] for a one-character replacement: every
    maximal run of characters of the class becomes one [repl].  [in_run]
    tells that the previous character was of the class. *)
Fixpoint sub_runs (cls : ascii -> bool) (repl : ascii) (in_run : bool)
         (s : list ascii) : list ascii :=
  match s with
  | [] => []
  | c :: tl =>
      if cls c
      then (if in_run then sub_runs cls repl true tl
            else repl :: sub_runs cls repl true tl)
      else c :: sub_runs cls repl false tl
  end.

Definition re_sub_plus (cls : ascii -> bool) (repl : ascii) (s : list ascii)
  : list ascii := sub_runs cls repl false s.

(** [s.replace(old, new)] for one-character [old] and [new]. *)
Definition replace (old new : ascii) (s : list ascii) : list ascii :=
  map (fun c => if Ascii.eqb c old then new else c) s.

(** [s[:n]] *)
Definition slice_to (n : nat) (s : list ascii) : list ascii := firstn n s.

End Py.

(** ** Identifier sanitizer ([pg_service.py]) *)

Definition sanitize_chars (name : list ascii) : list ascii :=
  let name :=
    Py.re_sub_plus (fun c => negb (Py.word c)) "_" (Py.strip Py.isspace name) in
  let name :=
    map Py.lower (Py.strip Py.underscore (Py.re_sub_plus Py.underscore "_" name)) in
  let name := match name with [] => Py.chars "col" | _ :: _ => name end in
  let name :=
    match name with
    | c :: _ => if Py.isdigit c then Py.chars "c_" ++ name else name
    | [] => name
    end in
  Py.slice_to 63 name.

Definition sanitize_col (name : string) : string :=
  Py.str (sanitize_chars (Py.chars name)).


(** ** Operation name to table name ([pg_service.py]) *)

Definition islower_at (s : list ascii) (i : nat) : bool :=
  match nth_error s i with
  | Some c => Py.islower c
  | None => false
  end.

(** The body of the loop over [enumerate(endpoint)]; [out] is the list of
    pieces appended so far. *)
Definition endpoint_step (endpoint : list ascii) (out : list (list ascii))
           (ich : nat * ascii) : list (list ascii) :=
  let '(i, ch) := ich in
  let out :=
    if Py.isupper ch && (0 <? i)
       && (islower_at endpoint (i - 1)
           || ((i + 1 <? List.length endpoint) && islower_at endpoint (i + 1)))
    then out ++ [Py.chars "_"]
    else out in
  out ++ [[Py.lower ch]].

Definition table_name_chars (endpoint : list ascii) : list ascii :=
  let out :=
    fold_left (endpoint_step endpoint)
              (combine (seq 0 (List.length endpoint)) endpoint) [] in
  let name := Py.strip Py.underscore (Py.replace "-" "_" (List.concat out)) in
  Py.chars "api_" ++ name.

Definition table_name_from_endpoint (endpoint : string) : string :=
  Py.str (table_name_chars (Py.chars endpoint)).

(** ** JSON values and dictionaries *)

(** What [resp.json()] returns: [None], [bool], [int], [float], [str],
    [list] or [dict]. *)
Inductive json : Type :=
| JNull
| JBool (b : bool)
| JInt (z : Z)
| JFloat (f : spec_float)
| JStr (s : string)
| JArr (l : list json)
| JObj (o : list (string * json)).

Definition dict (V : Type) : Type := list (string * V).

Fixpoint dict_get {V} (k : string) (d : dict V) : option V :=
  match d with
  | [] => None
  | (k', v) :: tl => if String.eqb k k' then Some v else dict_get k tl
  end.

Definition dict_mem {V} (k : string) (d : dict V) : bool :=
  match dict_get k d with Some _ => true | None => false end.

(** [d[k] = v]: an existing key keeps its place, a new key goes last. *)
Fixpoint dict_set {V} (k : string) (v : V) (d : dict V) : dict V :=
  match d with
  | [] => [(k, v)]
  | (k', v') :: tl =>
      if String.eqb k k' then (k', v) :: tl else (k', v') :: dict_set k v tl
  end.

(** [d.update(other)] *)
Definition dict_update {V} (d other : dict V) : dict V :=
  fold_left (fun acc kv => dict_set (fst kv) (snd kv) acc) other d.

Definition dict_keys {V} (d : dict V) : list string := map fst d.

(** A [dict] has no key twice. *)
Definition dict_wf {V} (d : dict V) : Prop := NoDup (dict_keys d).

(** ** Payload normalizer ([pg_service.py]) *)

Definition compound_key (parent_key sep k : string) : string :=
  match parent_key with
  | EmptyString => k
  | _ => (parent_key ++ sep ++ k)%string
  end.

(** One turn of the loop of [flatten_json] over [obj.items()]. *)
Fixpoint flatten_item (parent_key sep : string) (items : dict json)
         (k : string) (v : json) {struct v} : dict json :=
  let new_key := sanitize_col (compound_key parent_key sep k) in
  match v with
  | JObj o =>
      dict_update items
        ((fix loop (o : list (string * json)) (acc : dict json) : dict json :=
            match o with
            | [] => acc
            | (k', v') :: tl => loop tl (flatten_item new_key sep acc k' v')
            end) o [])
  | JArr _ => dict_set new_key v items
  | _ => dict_set new_key v items
  end.

Definition flatten_json (obj : list (string * json)) (parent_key sep : string)
  : dict json :=
  fold_left (fun items kv => flatten_item parent_key sep items (fst kv) (snd kv))
            obj [].

Definition item_row (item : json) : dict json :=
  match item with
  | JObj o => flatten_json o "" "_"
  | _ => [("valor"%string, item)]
  end.

Definition extract_rows_from_payload (payload : json) : list (dict json) :=
  let data :=
    match payload with
    | JObj o =>
        match dict_get "dados" o with
        | Some (JArr l) => l
        | _ => [payload]
        end
    | JArr l => l
    | _ => [JObj [("valor"%string, payload)]]
    end in
  map item_row data.

(** ** Regular expressions, for the timestamp pattern *)

Module Re.

Inductive re : Type :=
| Void
| Eps
| Cls (p : ascii -> bool)
| Seq (r1 r2 : re)
| Alt (r1 r2 : re)
| Star (r : re).

Definition Chr (c : ascii) : re := Cls (Ascii.eqb c).
Definition Opt (r : re) : re := Alt r Eps.
Definition Plus (r : re) : re := Seq r (Star r).

Fixpoint Rep (n : nat) (r : re) : re :=
  match n with
  | O => Eps
  | S n' => Seq r (Rep n' r)
  end.

Fixpoint nullable (r : re) : bool :=
  match r with
  | Void => false
  | Eps => true
  | Cls _ => false
  | Seq r1 r2 => nullable r1 && nullable r2
  | Alt r1 r2 => nullable r1 || nullable r2
  | Star _ => true
  end.

Fixpoint deriv (c : ascii) (r : re) : re :=
  match r with
  | Void => Void
  | Eps => Void
  | Cls p => if p c then Eps else Void
  | Seq r1 r2 =>
      if nullable r1
      then Alt (Seq (deriv c r1) r2) (deriv c r2)
      else Seq (deriv c r1) r2
  | Alt r1 r2 => Alt (deriv c r1) (deriv c r2)
  | Star r1 => Seq (deriv c r1) (Star r1)
  end.

(** The whole of [s] is in the language of [r]. *)
Fixpoint fullmatch (r : re) (s : list ascii) : bool :=
  match s with
  | [] => nullable r
  | c :: tl => fullmatch (deriv c r) tl
  end.

(** [re.match("^r$", s)] finds a match: [$] stands at the end of the string
    or before a newline that ends it. *)
Definition match_anchored (r : re) (s : list ascii) : bool :=
  fullmatch (Seq r (Opt (Chr "010"))) s.

End Re.

(** ** Type inference and unification ([pg_service.py]) *)

(** [\d{4}-\d{2}-\d{2}([ T]\d{2}:\d{2}:\d{2}(\.\d+)?(Z)?)?] *)
Definition timestamp_re : Re.re :=
  let d := Re.Cls Py.d09 in
  let d2 := Re.Rep 2 d in
  Re.Seq (Re.Rep 4 d)
    (Re.Seq (Re.Chr "-") (Re.Seq d2 (Re.Seq (Re.Chr "-") (Re.Seq d2
      (Re.Opt
         (Re.Seq (Re.Alt (Re.Chr " ") (Re.Chr "T"))
            (Re.Seq d2 (Re.Seq (Re.Chr ":") (Re.Seq d2 (Re.Seq (Re.Chr ":")
              (Re.Seq d2
                 (Re.Seq (Re.Opt (Re.Seq (Re.Chr ".") (Re.Plus d)))
                         (Re.Opt (Re.Chr "Z")))))))))))))).

Definition try_parse_timestamp (s : string) : bool :=
  Re.match_anchored timestamp_re (Py.chars s).

Definition infer_pg_type (value : json) : string :=
  match value with
  | JNull => "text"
  | JBool _ => "boolean"
  | JInt _ => "bigint"
  | JFloat _ => "numeric"
  | JStr s =>
      if try_parse_timestamp s then "timestamptz"
      else if String.length s <=? 255 then "varchar(255)" else "text"
  | JArr _ | JObj _ => "jsonb"
  end.

(** [sub in s] on strings *)
Fixpoint str_contains (sub s : string) : bool :=
  String.prefix sub s
  || match s with
     | EmptyString => false
     | String _ tl => str_contains sub tl
     end.

(** [x in (a, b)] *)
Definition in_pair (x a b : string) : bool := String.eqb x a || String.eqb x b.

Definition unify_types (t1 t2 : string) : string :=
  if String.eqb t1 t2 then t1
  else if in_pair "jsonb" t1 t2 then "jsonb"
  else if (String.eqb t1 "numeric" && String.eqb t2 "bigint")
          || (String.eqb t2 "numeric" && String.eqb t1 "bigint") then "numeric"
  else if in_pair "timestamptz" t1 t2 then "text"
  else if in_pair "text" t1 t2 then "text"
  else if (str_contains "varchar" t1 || str_contains "varchar" t2)
          && (in_pair t1 "bigint" "numeric" || in_pair t2 "bigint" "numeric")
       then "text"
  else "text".

(** The codomain of [infer_pg_type]. *)
Definition pg_tags : list string :=
  ["text"; "boolean"; "bigint"; "numeric"; "timestamptz"; "varchar(255)";
   "jsonb"]%string.

Definition is_tag (t : string) : bool :=
  existsb (String.eqb t) pg_tags.

(** ** The columns of a batch and their types ([insert_rows_batch]) *)

Definition str_in (x : string) (l : list string) : bool :=
  existsb (String.eqb x) l.

(** [set.update]: the set as a list without repetition, in no order that
    matters, it is sorted before use. *)
Definition set_add (x : string) (s : list string) : list string :=
  if str_in x s then s else x :: s.

Definition set_update (s : list string) (xs : list string) : list string :=
  fold_left (fun acc x => set_add x acc) xs s.

(** [sorted] on strings: order of the code points. *)
Fixpoint sorted_insert (x : string) (l : list string) : list string :=
  match l with
  | [] => [x]
  | y :: tl => if String.leb x y then x :: l else y :: sorted_insert x tl
  end.

Definition sorted (l : list string) : list string :=
  fold_right sorted_insert [] l.

Definition base_column_names : list string :=
  ["_id"; "_fetched_at"; "_endpoint"]%string.

Definition all_cols_of (rows : list (dict json)) : list string :=
  let all_cols :=
    fold_left (fun acc r => set_update acc (dict_keys r)) rows [] in
  filter (fun c => negb (str_in c base_column_names)) (sorted all_cols).

Definition is_none (v : json) : bool :=
  match v with JNull => true | _ => false end.

(** The inner loop over the rows for column [c]; [current] starts at
    [None]. *)
Definition resolve_step (c : string) (current : option string) (r : dict json)
  : option string :=
  match dict_get c r with
  | Some v =>
      if is_none v then current
      else
        let t := infer_pg_type v in
        Some (match current with
              | None => t
              | Some cur => unify_types cur t
              end)
  | None => current
  end.

Definition resolve_col (c : string) (rows : list (dict json)) : option string :=
  fold_left (resolve_step c) rows None.

(** [current or "text"] *)
Definition or_text (current : option string) : string :=
  match current with
  | None => "text"
  | Some EmptyString => "text"
  | Some t => t
  end.

Definition col_types_of (rows : list (dict json)) : dict string :=
  map (fun c => (c, or_text (resolve_col c rows))) (all_cols_of rows).

(** ** The store and the connection *)

Record table : Type := mkTable {
  t_columns : dict string;      (* column name, declared type *)
  t_rows : list (dict json)     (* per row: the columns bound by the insert *)
}.

Record catalogue : Type := mkCatalogue {
  namespaces : list string;
  tables : list ((string * string) * table)
}.

(** Names are compared as they are given: the catalogue is modelled for
    names of at most 63 bytes, which PostgreSQL keeps whole. *)
Definition same_table (schema tbl : string) (k : string * string) : bool :=
  String.eqb schema (fst k) && String.eqb tbl (snd k).

Fixpoint find_table (schema tbl : string)
         (ts : list ((string * string) * table)) : option table :=
  match ts with
  | [] => None
  | (k, t) :: tl =>
      if same_table schema tbl k then Some t else find_table schema tbl tl
  end.

Fixpoint change_table (schema tbl : string) (f : table -> table)
         (ts : list ((string * string) * table))
  : list ((string * string) * table) :=
  match ts with
  | [] => []
  | (k, t) :: tl =>
      if same_table schema tbl k then (k, f t) :: tl
      else (k, t) :: change_table schema tbl f tl
  end.

Definition remove_table (schema tbl : string)
           (ts : list ((string * string) * table))
  : list ((string * string) * table) :=
  filter (fun kt => negb (same_table schema tbl (fst kt))) ts.

(** The SQL statements the program sends. *)
Inductive stmt : Type :=
| CreateSchemaIfNotExists (schema : string)
| DropTableIfExists (schema tbl : string) (cascade : bool)
| DropSchemaIfExistsCascade (schema : string)
| CreateBaseTableIfNotExists (schema tbl : string)
| AddColumnIfNotExists (schema tbl col pg_type : string)
| InsertInto (schema tbl : string) (cols : list string)
             (values : list (list json))
| SelectColumns (schema tbl : string)
| SelectTablenames (schema : string)
| SelectNamespaces.

(** [udt_name] of a declared type. *)
Definition udt_name (pg_type : string) : string :=
  if String.eqb pg_type "bigint" || String.eqb pg_type "bigserial" then "int8"
  else if String.eqb pg_type "boolean" then "bool"
  else if String.prefix "varchar" pg_type then "varchar"
  else pg_type.

Definition base_table : table :=
  mkTable [("_id", "bigserial"); ("_fetched_at", "timestamptz");
           ("_endpoint", "text")]%string [].

(** [nspname LIKE 'pg_%']: in a LIKE pattern [_] stands for any one character
    and [%] for any sequence. *)
Definition like_pg_any (n : string) : bool :=
  match n with
  | String "p" (String "g" (String _ _)) => true
  | _ => false
  end.

Definition listed_namespace (n : string) : bool :=
  negb (like_pg_any n) && negb (String.eqb n "information_schema").

(** What a statement the store accepts does to the catalogue, and the rows
    it returns. *)
Definition run_stmt (q : stmt) (db : catalogue)
  : catalogue * list (list string) :=
  match q with
  | CreateSchemaIfNotExists schema =>
      (if str_in schema (namespaces db) then db
       else mkCatalogue (namespaces db ++ [schema]) (tables db), [])
  | DropTableIfExists schema tbl _ =>
      (mkCatalogue (namespaces db) (remove_table schema tbl (tables db)), [])
  | DropSchemaIfExistsCascade schema =>
      (mkCatalogue
         (filter (fun n => negb (String.eqb schema n)) (namespaces db))
         (filter (fun kt => negb (String.eqb schema (fst (fst kt))))
                 (tables db)), [])
  | CreateBaseTableIfNotExists schema tbl =>
      (match find_table schema tbl (tables db) with
       | Some _ => db
       | None =>
           mkCatalogue (namespaces db)
                       (tables db ++ [((schema, tbl), base_table)])
       end, [])
  | AddColumnIfNotExists schema tbl col pg_type =>
      (mkCatalogue (namespaces db)
         (change_table schema tbl
            (fun t =>
               if dict_mem col (t_columns t) then t
               else mkTable (t_columns t ++ [(col, pg_type)]) (t_rows t))
            (tables db)), [])
  | InsertInto schema tbl cols values =>
      (mkCatalogue (namespaces db)
         (change_table schema tbl
            (fun t =>
               mkTable (t_columns t)
                       (t_rows t ++ map (fun vs => combine cols vs) values))
            (tables db)), [])
  | SelectColumns schema tbl =>
      (db,
       match find_table schema tbl (tables db) with
       | Some t => map (fun cv => [fst cv; udt_name (snd cv)]) (t_columns t)
       | None => []
       end)
  | SelectTablenames schema =>
      (db,
       map (fun kt => [snd (fst kt)])
           (filter (fun kt => String.eqb schema (fst (fst kt))) (tables db)))
  | SelectNamespaces =>
      (db, map (fun n => [n]) (filter listed_namespace (namespaces db)))
  end.

Inductive log_entry : Type :=
| OrphanRemoved (schema : string)
| OrphanDropFailed (schema : string) (e : string).

(** The connection: the committed catalogue, the catalogue as the open
    transaction sees it, and the log next to it. *)
Record world : Type := mkWorld {
  committed : catalogue;
  current : catalogue;
  log : list log_entry
}.

(** ** Computations on the connection that may raise *)

Inductive outcome (A : Type) : Type :=
| Ok (w : world) (a : A)
| Raised (w : world) (e : string).

Arguments Raised {A} w e.

Definition M (A : Type) : Type := world -> outcome A.

Definition ret {A} (a : A) : M A := fun w => Ok w a.

Definition bind {A B} (m : M A) (k : A -> M B) : M B :=
  fun w =>
    match m w with
    | Ok w' a => k a w'
    | Raised w' e => Raised w' e
    end.

Definition raise {A} (e : string) : M A := fun w => Raised w e.

(** [try: body except Exception as e: handler] *)
Definition try_except {A} (body : M A) (handler : string -> M A) : M A :=
  fun w =>
    match body w with
    | Ok w' a => Ok w' a
    | Raised w' e => handler e w'
    end.

Declare Scope m_scope.
Delimit Scope m_scope with M.
Notation "x <- m ;; k" := (bind m (fun x => k))
  (at level 61, m at next level, right associativity) : m_scope.
Notation "m ;; k" := (bind m (fun _ => k))
  (at level 61, right associativity) : m_scope.

(** [for x in xs: acc = body(acc, x)] *)
Fixpoint for_fold {X A} (body : A -> X -> M A) (xs : list X) (acc : A) : M A :=
  match xs with
  | [] => ret acc
  | x :: tl => bind (body acc x) (fun acc' => for_fold body tl acc')
  end.

Definition for_each {X} (body : X -> M unit) (xs : list X) : M unit :=
  for_fold (fun _ x => body x) xs tt.

Definition logger (entry : log_entry) : M unit :=
  fun w => Ok (mkWorld (committed w) (current w) (log w ++ [entry])) tt.

Definition commit : M unit :=
  fun w => Ok (mkWorld (current w) (current w) (log w)) tt.

Definition row0 (r : list string) : string := nth 0 r EmptyString.
Definition row1 (r : list string) : string := nth 1 r EmptyString.

(** [range(0, stop, step)] for a positive step, and [rows[i:j]]. *)
Definition range_step (stop step : nat) : list nat :=
  map (fun k => k * step) (seq 0 ((stop + step - 1) / step)).

Definition slice {X} (i j : nat) (l : list X) : list X :=
  firstn (j - i) (skipn i l).

(** ** The transaction of the connection *)

(** The connection is not in autocommit mode.  A statement the store refuses
    leaves the open transaction aborted, and on an aborted transaction every
    statement raises until the transaction is ended.  The functions of
    [pg_service.py] let the exception through and send nothing after it, so
    the state plays no part in them; [drop_orphan_schemas] catches it and
    goes on with the same connection, and its model carries the state. *)
Record conn : Type := mkConn {
  store : world;
  aborted : bool
}.

Inductive reply (A : Type) : Type :=
| Done (c : conn) (a : A)
| Thrown (c : conn) (e : string).

Arguments Thrown {A} c e.

Definition T (A : Type) : Type := conn -> reply A.

Definition t_ret {A} (a : A) : T A := fun c => Done c a.

Definition t_bind {A B} (m : T A) (k : A -> T B) : T B :=
  fun c =>
    match m c with
    | Done c' a => k a c'
    | Thrown c' e => Thrown c' e
    end.

(** [try: body except Exception as e: handler] *)
Definition t_try {A} (body : T A) (handler : string -> T A) : T A :=
  fun c =>
    match body c with
    | Done c' a => Done c' a
    | Thrown c' e => handler e c'
    end.

Declare Scope t_scope.
Delimit Scope t_scope with T.
Notation "x <- m ;; k" := (t_bind m (fun x => k))
  (at level 61, m at next level, right associativity) : t_scope.
Notation "m ;; k" := (t_bind m (fun _ => k))
  (at level 61, right associativity) : t_scope.

Fixpoint t_for_fold {X A} (body : A -> X -> T A) (xs : list X) (acc : A)
  : T A :=
  match xs with
  | [] => t_ret acc
  | x :: tl => t_bind (body acc x) (fun acc' => t_for_fold body tl acc')
  end.

(** [conn.commit()]: an aborted transaction is ended by a rollback. *)
Definition t_commit : T unit :=
  fun c =>
    let w := store c in
    if aborted c
    then Done (mkConn (mkWorld (committed w) (committed w) (log w)) false) tt
    else Done (mkConn (mkWorld (current w) (current w) (log w)) false) tt.

Definition t_logger (entry : log_entry) : T unit :=
  fun c =>
    let w := store c in
    Done (mkConn (mkWorld (committed w) (current w) (log w ++ [entry]))
                 (aborted c)) tt.

Section Connection.

(** Which statements the store refuses, and [json.dumps(v, ensure_ascii=False)]. *)
Variable refuses : stmt -> bool.
Variable json_dumps : json -> string.

(** [cur.execute(q)] followed by [cur.fetchall()] where the program reads
    rows.  A refused statement raises and changes nothing. *)
Definition execute (q : stmt) : M (list (list string)) :=
  fun w =>
    if refuses q then Raised w "DatabaseError"
    else
      let (db, rows) := run_stmt q (current w) in
      Ok (mkWorld (committed w) db (log w)) rows.

(** *** Schema evolution ([pg_service.py]) *)

Definition ensure_schema (schema : string) : M unit :=
  (execute (CreateSchemaIfNotExists schema) ;; commit)%M.

Definition drop_table_if_exists (schema tbl : string) : M unit :=
  (execute (DropTableIfExists schema tbl false) ;; commit)%M.

Definition ensure_table_base (schema tbl : string) : M unit :=
  (execute (CreateBaseTableIfNotExists schema tbl) ;; commit)%M.

Definition get_existing_columns (schema tbl : string) : M (dict string) :=
  (rows <- execute (SelectColumns schema tbl) ;;
   ret (fold_left (fun d r => dict_set (row0 r) (row1 r) d) rows []))%M.

Definition add_column (schema tbl col pg_type : string) : M unit :=
  (execute (AddColumnIfNotExists schema tbl col pg_type) ;; commit)%M.

(** *** Batch loader ([pg_service.py]) *)

(** The value bound for column [c] of row [r]. *)
Definition bound_value (r : dict json) (c : string) : json :=
  match dict_get c r with
  | None => JNull
  | Some (JArr _ as v) | Some (JObj _ as v) => JStr (json_dumps v)
  | Some v => v
  end.

Definition row_values (endpoint : string) (all_cols : list string)
           (r : dict json) : list json :=
  JStr endpoint :: map (bound_value r) all_cols.

(** The loop that adds the missing columns. *)
Definition add_missing (schema tbl : string) (existing col_types : dict string)
           (c : string) : M unit :=
  if dict_mem c existing then ret tt
  else
    match dict_get c col_types with
    | Some t => add_column schema tbl c t
    | None => raise "KeyError"
    end.

(** One turn of the loop over the chunks. *)
Definition insert_chunk (schema tbl endpoint : string)
           (all_cols : list string) (rows : list (dict json))
           (batch_size : nat) (total : nat) (i : nat) : M nat :=
  let chunk := slice i (i + batch_size) rows in
  let values := map (row_values endpoint all_cols) chunk in
  (execute (InsertInto schema tbl ("_endpoint"%string :: all_cols) values) ;;
   ret (total + List.length chunk))%M.

Definition chunk_starts (n : nat) (batch_size : Z) : M (list nat) :=
  if (batch_size =? 0)%Z then raise "ValueError"
  else if (batch_size <? 0)%Z then ret []
  else ret (range_step n (Z.to_nat batch_size)).

Definition insert_chunks (schema tbl endpoint : string)
           (all_cols : list string) (rows : list (dict json))
           (batch_size : Z) : M nat :=
  (starts <- chunk_starts (List.length rows) batch_size ;;
   for_fold (insert_chunk schema tbl endpoint all_cols rows
                          (Z.to_nat batch_size))
            starts 0)%M.

Definition insert_rows_batch (schema tbl endpoint : string)
           (rows : list (dict json)) (batch_size : Z)
           (recreate_table_each_run : bool) : M nat :=
  match rows with
  | [] => ret 0
  | _ :: _ =>
      let all_cols := all_cols_of rows in
      let col_types := col_types_of rows in
      (ensure_schema schema ;;
       (if recreate_table_each_run then drop_table_if_exists schema tbl
        else ret tt) ;;
       ensure_table_base schema tbl ;;
       existing <- get_existing_columns schema tbl ;;
       for_each (add_missing schema tbl existing col_types) all_cols ;;
       total <- insert_chunks schema tbl endpoint all_cols rows batch_size ;;
       commit ;;
       ret total)%M
  end.




(** *** Orphan namespaces ([main.py]) *)

Definition protected : list string :=
  ["public"; "information_schema"; "pg_catalog"; "pg_toast"]%string.

Definition py_strip (s : string) : string :=
  Py.str (Py.strip Py.isspace (Py.chars s)).

Definition nonempty (s : string) : bool :=
  match s with EmptyString => false | _ => true end.

(** [{s.strip() for s in keep_schemas if s and str(s).strip()}] *)
Definition keep_set (keep_schemas : list string) : list string :=
  fold_left (fun acc s => set_add s acc)
            (map py_strip
                 (filter (fun s => nonempty s && nonempty (py_strip s))
                         keep_schemas))
            [].

(** [cur.execute(q)] on the connection with its transaction. *)
Definition execute_tx (q : stmt) : T (list (list string)) :=
  fun c =>
    if aborted c then Thrown c "InFailedSqlTransaction"
    else
      match execute q (store c) with
      | Ok w rows => Done (mkConn w false) rows
      | Raised w e => Thrown (mkConn w true) e
      end.

Definition drop_orphan (keep : list string) (removed : nat) (s : string)
  : T nat :=
  if str_in s keep then t_ret removed
  else if str_in s protected then t_ret removed
  else
    t_try
      (execute_tx (DropSchemaIfExistsCascade s) ;;
       t_commit ;;
       t_logger (OrphanRemoved s) ;;
       t_ret (removed + 1))%T
      (fun e => (t_logger (OrphanDropFailed s e) ;; t_ret removed)%T).

Definition drop_orphan_schemas (keep_schemas : list string) : T nat :=
  let keep := set_update (keep_set keep_schemas) protected in
  (rows <- execute_tx SelectNamespaces ;;
   let existing := map row0 rows in
   t_for_fold (drop_orphan keep) existing 0)%T.

End Connection.

(** ** Notions used to state the properties *)

(** A value that is neither a [dict] nor a [list]. *)
Definition is_scalar (v : json) : bool :=
  match v with
  | JArr _ | JObj _ => false
  | _ => true
  end.

Definition is_dict (v : json) : bool :=
  match v with
  | JObj _ => true
  | _ => false
  end.

(** The running type of a column is absent or one of the seven tags. *)
Definition running_ok (current : option string) : Prop :=
  match current with
  | None => True
  | Some t => is_tag t = true
  end.

(** The identifier grammar: not empty, lowercase letters, digits and
    underscores only, no digit in front, at most 63 characters. *)
Definition ident_char (c : ascii) : bool :=
  Py.az c || Py.d09 c || Py.underscore c.

Definition is_identifier (s : string) : bool :=
  match Py.chars s with
  | [] => false
  | c :: tl =>
      negb (Py.d09 c) && forallb ident_char (c :: tl)
      && (List.length (c :: tl) <=? 63)
  end.

(** The last character of [l] is of class [cls]. *)
Fixpoint ends_in (cls : ascii -> bool) (l : list ascii) : bool :=
  match l with
  | [] => false
  | [c] => cls c
  | _ :: tl => ends_in cls tl
  end.

Definition starts_in (cls : ascii -> bool) (l : list ascii) : bool :=
  match l with
  | [] => false
  | c :: _ => cls c
  end.

(** No underscore follows an underscore. *)
Fixpoint no_uu (l : list ascii) : bool :=
  match l with
  | [] => true
  | c :: tl => negb (Py.underscore c && starts_in Py.underscore tl) && no_uu tl
  end.

(** The name before [sanitize_col] cuts it to 63 characters. *)
Definition sanitize_core (name : list ascii) : list ascii :=
  let name :=
    Py.re_sub_plus (fun c => negb (Py.word c)) "_" (Py.strip Py.isspace name) in
  let name :=
    map Py.lower (Py.strip Py.underscore (Py.re_sub_plus Py.underscore "_" name)) in
  let name := match name with [] => Py.chars "col" | _ :: _ => name end in
  match name with
  | c :: _ => if Py.isdigit c then Py.chars "c_" ++ name else name
  | [] => name
  end.

(** What [sanitize_core] produces: identifier characters, a letter in
    front, no doubled underscore. *)
Definition canonical (l : list ascii) : Prop :=
  forallb ident_char l = true /\ no_uu l = true /\ starts_in Py.az l = true.

Definition long_key : string :=
  "aaaaaaaaaaaaaaaaaaaaaaaaaaaaaaaaaaaaaaaaaaaaaaaaaaaaaaaaaaaaaa_b".

(** The boundary rule in the words of the specification: an underscore
    goes before each uppercase letter that follows a lowercase letter or
    is followed by one.  [prev] is the character before [s]. *)
Definition islower_opt (prev : option ascii) : bool :=
  match prev with
  | Some p => Py.islower p
  | None => false
  end.

Fixpoint insert_boundaries (prev : option ascii) (s : list ascii)
  : list ascii :=
  match s with
  | [] => []
  | ch :: tl =>
      (if Py.isupper ch && (islower_opt prev || starts_in Py.islower tl)
       then ["_"%char] else [])
      ++ ch :: insert_boundaries (Some ch) tl
  end.

Definition snake_words (s : list ascii) : list ascii :=
  map Py.lower (insert_boundaries None s).

(** The table name as the specification words it: boundaries, lower case,
    the sanitizer, the prefix. *)
Definition spec_table_name (name : string) : string :=
  Py.str (Py.chars "api_" ++ sanitize_chars (snake_words (Py.chars name))).

(** What the loop of [table_name_from_endpoint] has joined after the
    characters before [s], the last of which is [prev]. *)
Fixpoint loop_output (prev : option ascii) (s : list ascii) : list ascii :=
  match s with
  | [] => []
  | ch :: tl =>
      (if Py.isupper ch
          && match prev with
             | Some p => Py.islower p || starts_in Py.islower tl
             | None => false
             end
       then ["_"%char] else [])
      ++ Py.lower ch :: loop_output (Some ch) tl
  end.

Definition last_opt (l : list ascii) : option ascii :=
  match rev l with
  | [] => None
  | c :: _ => Some c
  end.

(** [n] is the stripped form of an entry of [keep_schemas] that is not
    blank. *)
Definition kept (keep_schemas : list string) (n : string) : bool :=
  existsb (fun s => nonempty s && nonempty (py_strip s)
                    && String.eqb n (py_strip s))
          keep_schemas.

(** A namespace the loop tries to drop: the listing names it, and it is
    neither kept nor in the fixed set. *)
Definition is_orphan (keep_schemas : list string) (n : string) : bool :=
  listed_namespace n && negb (kept keep_schemas n)
  && negb (str_in n protected).

Definition orphans (keep_schemas : list string) (db : catalogue)
  : list string :=
  filter (is_orphan keep_schemas) (namespaces db).

(** The same test on the set [keep] the function has built. *)
Definition candidate (keep : list string) (s : string) : bool :=
  negb (str_in s keep) && negb (str_in s protected).

Definition refused_drop (refuses : stmt -> bool) (n : string) : bool :=
  refuses (DropSchemaIfExistsCascade n).

(** The names of a list that come before the first one whose drop the store
    refuses. *)
Fixpoint before_refusal (refuses : stmt -> bool) (l : list string)
  : list string :=
  match l with
  | [] => []
  | s :: tl =>
      if refused_drop refuses s then [] else s :: before_refusal refuses tl
  end.

(** The rows of a table of a catalogue, none when the table is absent. *)
Definition table_rows (schema tbl : string) (db : catalogue)
  : list (dict json) :=
  match find_table schema tbl (tables db) with
  | Some t => t_rows t
  | None => []
  end.

Definition table_columns (schema tbl : string) (db : catalogue)
  : dict string :=
  match find_table schema tbl (tables db) with
  | Some t => t_columns t
  | None => []
  end.

(** A small catalogue to run the program on: two tenants, one of them with a
    loaded table, and namespaces of the system. *)
Definition demo_db : catalogue :=
  mkCatalogue
    ["pg_catalog"; "public"; "information_schema"; "acme"; "old"; "gone"]%string
    [(("acme", "api_x")%string,
      mkTable (t_columns base_table ++ [("a", "bigint")%string])
              [[("_endpoint", JStr "X"); ("a", JInt 1)]%string])].

Definition demo_world : world := mkWorld demo_db demo_db [].

Definition demo_conn : conn := mkConn demo_world false.

Definition demo_dumps (j : json) : string := "[]".

Definition accept_all (q : stmt) : bool := false.

Definition refuse_drop_old (q : stmt) : bool :=
  match q with
  | DropSchemaIfExistsCascade s => String.eqb s "old"
  | _ => false
  end.

(** A computation started in a world of [P] ends in a world and a value of
    [Q], or raises in a world of [R]. *)
Definition triple {A} (P : world -> Prop) (m : M A)
           (Q : world -> A -> Prop) (R : world -> Prop) : Prop :=
  forall w, P w ->
    match m w with
    | Ok w' a => Q w' a
    | Raised w' _ => R w'
    end.

(** Nothing is pending: the committed catalogue is the current one. *)
Definition clean (w : world) : Prop := committed w = current w.

(** The rows [insert_rows_batch] stores for [rows]. *)
Definition stored_rows (json_dumps : json -> string) (endpoint : string)
           (all_cols : list string) (rows : list (dict json))
  : list (dict json) :=
  map (fun r => combine ("_endpoint"%string :: all_cols)
                        (row_values json_dumps endpoint all_cols r))
      rows.

(** The chunk that starts at row [i]. *)
Definition chunk_at (rows : list (dict json)) (batch_size : nat) (i : nat)
  : list (dict json) :=
  slice i (i + batch_size) rows.

(** The type [insert_rows_batch] resolves for column [c]. *)
Definition column_type (rows : list (dict json)) (c : string) : string :=
  or_text (resolve_col c rows).

(** The target table when the reconciliation starts: fresh when the table
    is recreated or was absent, else as the transaction sees it. *)
Definition prepared_table (schema tbl : string) (recreate : bool) (w0 : world)
  : table :=
  if recreate then base_table
  else match find_table schema tbl (tables (current w0)) with
       | Some t => t
       | None => base_table
       end.

(** Every column of the batch was in the table or the store accepts to add
    it. *)
Definition adds_accepted (refuses : stmt -> bool) (schema tbl : string)
           (rows : list (dict json)) (t0 : table) (cols : list string) : Prop :=
  forall c, In c cols ->
    dict_mem c (t_columns t0) = true
    \/ refuses (AddColumnIfNotExists schema tbl c (column_type rows c)) = false.

(** Table [t] is [t0] with the columns [cols] reconciled: what [t0] had is
    as it was, what it lacked has the resolved type. *)
Definition columns_reconciled (rows : list (dict json)) (t0 t : table)
           (cols : list string) : Prop :=
  (forall c x, dict_get c (t_columns t0) = Some x ->
               dict_get c (t_columns t) = Some x)
  /\ (forall c, In c cols -> dict_mem c (t_columns t0) = false ->
                dict_get c (t_columns t) = Some (column_type rows c)).

(** Why a call of [insert_rows_batch] can raise. *)
Definition raise_cause (refuses : stmt -> bool) (batch_size : Z) : Prop :=
  (exists q, refuses q = true) \/ batch_size = 0%Z.

(** The records a call inserts: all of them, chunk after chunk, for a
    positive chunk size; none for a negative one, the range is empty. *)
Definition inserted_rows (rows : list (dict json)) (batch_size : Z)
  : list (dict json) :=
  if (0 <? batch_size)%Z then rows else [].

(** Two records loaded one per chunk, and a store that refuses the second
    chunk, or the first new column. *)
Definition demo_rows : list (dict json) :=
  [[("a", JInt 1); ("b", JInt 10)]; [("a", JInt 2); ("b", JInt 20)]]%string.

Definition refuse_second_chunk (q : stmt) : bool :=
  match q with
  | InsertInto _ _ _ [[_; JInt 2%Z; _]] => true
  | _ => false
  end.

Definition refuse_column_a (q : stmt) : bool :=
  match q with
  | AddColumnIfNotExists _ _ c _ => String.eqb c "a"
  | _ => false
  end.

(** What holds when the call raises: no row of the call is committed; and
    no row of the call is even pending unless every column had been added. *)
Definition raised_post (refuses : stmt -> bool) (schema tbl : string)
           (rows : list (dict json)) (batch_size : Z) (recreate : bool)
           (w0 w' : world) : Prop :=
  (table_rows schema tbl (committed w')
   = t_rows (prepared_table schema tbl recreate w0)
   \/ table_rows schema tbl (committed w') = table_rows schema tbl (current w0)
   \/ committed w' = committed w0)
  /\ (adds_accepted refuses schema tbl rows
                    (prepared_table schema tbl recreate w0) (all_cols_of rows)
      \/ table_rows schema tbl (current w')
         = t_rows (prepared_table schema tbl recreate w0)
      \/ table_rows schema tbl (current w') = table_rows schema tbl (current w0))
  /\ raise_cause refuses batch_size.

(** The loop that adds the columns, after the columns [done]. *)
Definition add_invariant (refuses : stmt -> bool) (schema tbl : string)
           (rows : list (dict json)) (recreate : bool) (w0 : world)
           (done : list string) (w : world) : Prop :=
  clean w
  /\ exists t,
      find_table schema tbl (tables (current w)) = Some t
      /\ t_rows t = t_rows (prepared_table schema tbl recreate w0)
      /\ columns_reconciled rows (prepared_table schema tbl recreate w0) t done
      /\ (forall c,
             dict_mem c (t_columns t) = true ->
             dict_mem c (t_columns (prepared_table schema tbl recreate w0))
             = true
             \/ In c done)
      /\ adds_accepted refuses schema tbl rows
                       (prepared_table schema tbl recreate w0) done.

(** The loop over the chunks, after the chunks that start at [done]. *)
Definition insert_invariant (refuses : stmt -> bool)
           (json_dumps : json -> string) (schema tbl endpoint : string)
           (rows : list (dict json)) (recreate : bool) (w0 : world)
           (bs : nat) (done : list nat) (total : nat) (w : world) : Prop :=
  table_rows schema tbl (committed w)
  = t_rows (prepared_table schema tbl recreate w0)
  /\ exists t,
      find_table schema tbl (tables (current w)) = Some t
      /\ t_rows t
         = t_rows (prepared_table schema tbl recreate w0)
           ++ stored_rows json_dumps endpoint (all_cols_of rows)
                          (List.concat (map (chunk_at rows bs) done))
      /\ columns_reconciled rows (prepared_table schema tbl recreate w0) t
                            (all_cols_of rows)
      /\ total = List.length (List.concat (map (chunk_at rows bs) done))
      /\ adds_accepted refuses schema tbl rows
                       (prepared_table schema tbl recreate w0)
                       (all_cols_of rows).

(** What holds when the call returns. *)
Definition returned_post (refuses : stmt -> bool)
           (json_dumps : json -> string) (schema tbl endpoint : string)
           (rows : list (dict json)) (batch_size : Z) (recreate : bool)
           (w0 w' : world) (n : nat) : Prop :=
  clean w'
  /\ exists t,
      find_table schema tbl (tables (current w')) = Some t
      /\ t_rows t
         = t_rows (prepared_table schema tbl recreate w0)
           ++ stored_rows json_dumps endpoint (all_cols_of rows)
                          (inserted_rows rows batch_size)
      /\ columns_reconciled rows (prepared_table schema tbl recreate w0) t
                            (all_cols_of rows)
      /\ n = List.length (inserted_rows rows batch_size)
      /\ adds_accepted refuses schema tbl rows
                       (prepared_table schema tbl recreate w0)
                       (all_cols_of rows).

(** ** Purge of a namespace ([pg_service.py]) and configuration ([main.py]) *)

Section Purge.

Variable refuses : stmt -> bool.

(** One turn of the loop that drops the tables. *)
Definition drop_one_table (schema : string) (dropped : nat) (t : string)
  : M nat :=
  (execute refuses (DropTableIfExists schema t true) ;;
   ret (dropped + 1))%M.

Definition drop_all_tables_in_schema (schema : string) : M nat :=
  (rows <- execute refuses (SelectTablenames schema) ;;
   let tbls := map row0 rows in
   match tbls with
   | [] => ret 0
   | _ :: _ =>
       dropped <- for_fold (drop_one_table schema) tbls 0 ;;
       commit ;;
       ret dropped
   end)%M.

End Purge.

(** The environment of the process: [os.getenv(key)] is [None] for a
    variable that is not set. *)
Definition getenv (env : dict string) (key : string) : option string :=
  dict_get key env.

(** [val.strip().lower()] *)
Definition strip_lower (val : string) : string :=
  Py.str (map Py.lower (Py.strip Py.isspace (Py.chars val))).

Definition truthy_words : list string :=
  ["1"; "true"; "yes"; "y"; "on"]%string.

Definition env_bool (env : dict string) (key : string) (default : bool)
  : bool :=
  match getenv env key with
  | None => default
  | Some val => str_in (strip_lower val) truthy_words
  end.

(** ** Notions used by the further properties *)

(** A name the sanitizer has nothing to do on: identifier characters, a
    letter in front, no doubled underscore, no underscore at the end, at
    most 63 characters. *)
Definition is_clean_name (name : string) : bool :=
  let l := Py.chars name in
  forallb ident_char l && no_uu l && starts_in Py.az l
  && negb (ends_in Py.underscore l) && (List.length l <=? 63).

(** [s.lower()] on a string. *)
Definition py_lower (s : string) : string :=
  Py.str (map Py.lower (Py.chars s)).

(** A flat record: every key is an identifier and no value is an object. *)
Definition flat_record (d : dict json) : Prop :=
  Forall (fun kv => is_identifier (fst kv) = true /\ is_dict (snd kv) = false)
         d.

(** Row [r] has a value other than [None] under [c]. *)
Definition has_value (c : string) (r : dict json) : bool :=
  match dict_get c r with
  | Some v => negb (is_none v)
  | None => false
  end.

(** The least length of a string a regular expression matches, [None] when
    it visibly matches nothing. *)
Definition opt_add (a b : option nat) : option nat :=
  match a, b with
  | Some x, Some y => Some (x + y)
  | _, _ => None
  end.

Definition opt_min (a b : option nat) : option nat :=
  match a, b with
  | Some x, Some y => Some (Nat.min x y)
  | Some x, None => Some x
  | None, b' => b'
  end.

Fixpoint min_len (r : Re.re) : option nat :=
  match r with
  | Re.Void => None
  | Re.Eps => Some 0
  | Re.Cls _ => Some 1
  | Re.Seq r1 r2 => opt_add (min_len r1) (min_len r2)
  | Re.Alt r1 r2 => opt_min (min_len r1) (min_len r2)
  | Re.Star _ => Some 0
  end.

(** [n] is at least the bound [m], a missing bound being infinite. *)
Definition at_least (m : option nat) (n : nat) : Prop :=
  match m with
  | Some x => x <= n
  | None => False
  end.

(** The string of the date [y1 y2 y3 y4 - m1 m2 - d1 d2]. *)
Definition date_string (y1 y2 y3 y4 m1 m2 d1 d2 : ascii) : string :=
  Py.str [y1; y2; y3; y4; "-"%char; m1; m2; "-"%char; d1; d2].

(** Catalogue [db] is [db0] but for the table [schema.tbl] and, at most, the
    namespace [schema] added at the end. *)
Definition framed (schema tbl : string) (db0 db : catalogue) : Prop :=
  (forall s' t', s' <> schema \/ t' <> tbl ->
                 find_table s' t' (tables db) = find_table s' t' (tables db0))
  /\ (namespaces db = namespaces db0
      \/ namespaces db = namespaces db0 ++ [schema]).

(** The bytes of a name in UTF-8.  PostgreSQL keeps an identifier whole
    when it has at most 63 of them and cuts a longer one; the store is
    modelled for the names it keeps whole. *)
Definition utf8_length (s : string) : nat :=
  fold_right (fun ch n => (if nat_of_ascii ch <? 128 then 1 else 2) + n)
             0 (Py.chars s).

Definition kept_whole (s : string) : bool := utf8_length s <=? 63.

(** [framed], for the tables whose names the store keeps whole. *)
Definition apart (schema tbl : string) (db0 db : catalogue) : Prop :=
  (forall s' t', kept_whole s' = true -> kept_whole t' = true ->
                 s' <> schema \/ t' <> tbl ->
                 find_table s' t' (tables db) = find_table s' t' (tables db0))
  /\ (namespaces db = namespaces db0
      \/ namespaces db = namespaces db0 ++ [schema]).

(** Computation [m] keeps the property [F] of the current and of the
    committed catalogue, whether it returns or raises. *)
Definition keeps {A} (F : catalogue -> Prop) (m : M A) : Prop :=
  triple (fun w => F (current w) /\ F (committed w)) m
         (fun w _ => F (current w) /\ F (committed w))
         (fun w => F (current w) /\ F (committed w)).

(** The statements [insert_rows_batch] sends about its own table. *)
Definition on_target (schema tbl : string) (q : stmt) : Prop :=
  match q with
  | CreateSchemaIfNotExists s => s = schema
  | DropTableIfExists s t _ => s = schema /\ t = tbl
  | CreateBaseTableIfNotExists s t => s = schema /\ t = tbl
  | AddColumnIfNotExists s t _ _ => s = schema /\ t = tbl
  | InsertInto s t _ _ => s = schema /\ t = tbl
  | SelectColumns _ _ => True
  | _ => False
  end.

(** The columns of the batch that table [t0] lacks, with their resolved
    types, in the order of the batch. *)
Definition missing_columns (rows : list (dict json)) (t0 : table)
  : dict string :=
  map (fun c => (c, column_type rows c))
      (filter (fun c => negb (dict_mem c (t_columns t0))) (all_cols_of rows)).

(** The line feed. *)
Definition is_newline (c : ascii) : bool := Ascii.eqb "010" c.

(** The assignments [flatten_json] makes, in the order it makes them: a key
    whose value is not an object assigns that value under its sanitized
    compound key; a key whose value is an object assigns what the flattening
    of the value assigns, and nothing under its own name. *)
Fixpoint assignments_of (parent_key sep k : string) (v : json) {struct v}
  : list (string * json) :=
  let new_key := sanitize_col (compound_key parent_key sep k) in
  match v with
  | JObj o =>
      (fix loop (o : list (string * json)) : list (string * json) :=
         match o with
         | [] => []
         | (k', v') :: tl => assignments_of new_key sep k' v' ++ loop tl
         end) o
  | _ => [(new_key, v)]
  end.

Definition assignments (obj : list (string * json)) (parent_key sep : string)
  : list (string * json) :=
  flat_map (fun kv => assignments_of parent_key sep (fst kv) (snd kv)) obj.

(** The value of the last assignment made under [c], if there is one. *)
Fixpoint last_assigned (c : string) (l : list (string * json)) : option json :=
  match l with
  | [] => None
  | (k, v) :: tl =>
      match last_assigned c tl with
      | Some x => Some x
      | None => if String.eqb c k then Some v else None
      end
  end.

(** What one turn of the loop does to the binding of a name. *)
Definition turn_assigns (v : json) : Prop :=
  forall (parent_key sep : string) (items : dict json) (k c : string),
    dict_get c (flatten_item parent_key sep items k v)
    = match last_assigned c (assignments_of parent_key sep k v) with
      | Some x => Some x
      | None => dict_get c items
      end.

(** A string with its letters [A-Z] turned to [a-z] and every other
    character left as it is. *)
Definition lower_az (c : ascii) : ascii := if Py.AZ c then Py.lower c else c.

Definition ascii_lower (s : string) : string :=
  Py.str (map lower_az (Py.chars s)).

(** * Properties *)

(** ** Type unification *)

Lemma is_tag_In (t : string) : is_tag t = true -> In t pg_tags.
Proof.
  unfold is_tag. rewrite existsb_exists.
  intros [x [Hin Heq]]. apply String.eqb_eq in Heq. now subst.
Qed.

Ltac tag_cases H :=
  apply is_tag_In in H; simpl in H;
  repeat (destruct H as [H | H]; [symmetry in H; subst | ]); try contradiction.

Lemma unify_types_comm (a b : string) :
  is_tag a = true -> is_tag b = true -> unify_types a b = unify_types b a.
Proof.
  intros Ha Hb. tag_cases Ha; tag_cases Hb; reflexivity.
Qed.

Lemma unify_types_assoc (a b c : string) :
  is_tag a = true -> is_tag b = true -> is_tag c = true ->
  unify_types (unify_types a b) c = unify_types a (unify_types b c).
Proof.
  intros Ha Hb Hc. tag_cases Ha; tag_cases Hb; tag_cases Hc; reflexivity.
Qed.

Lemma unify_types_is_tag (a b : string) :
  is_tag a = true -> is_tag b = true -> is_tag (unify_types a b) = true.
Proof.
  intros Ha Hb. tag_cases Ha; tag_cases Hb; reflexivity.
Qed.

Lemma infer_pg_type_is_tag (v : json) : is_tag (infer_pg_type v) = true.
Proof.
  destruct v; simpl; try reflexivity.
  destruct (try_parse_timestamp s); [reflexivity|].
  destruct (String.length s <=? 255); reflexivity.
Qed.

Lemma resolve_step_ok (c : string) (current : option string) (r : dict json) :
  running_ok current -> running_ok (resolve_step c current r).
Proof.
  intros Hok. unfold resolve_step.
  destruct (dict_get c r) as [v|]; [|exact Hok].
  destruct (is_none v); [exact Hok|].
  destruct current as [cur|]; simpl.
  - apply unify_types_is_tag; [exact Hok | apply infer_pg_type_is_tag].
  - apply infer_pg_type_is_tag.
Qed.

Lemma resolve_step_swap (c : string) (current : option string)
      (r1 r2 : dict json) :
  running_ok current ->
  resolve_step c (resolve_step c current r1) r2
  = resolve_step c (resolve_step c current r2) r1.
Proof.
  intros Hok. unfold resolve_step.
  destruct (dict_get c r1) as [v1|], (dict_get c r2) as [v2|]; try reflexivity.
  destruct (is_none v1), (is_none v2); try reflexivity.
  pose proof (infer_pg_type_is_tag v1) as H1.
  pose proof (infer_pg_type_is_tag v2) as H2.
  destruct current as [cur|]; simpl in *; f_equal.
  - rewrite !unify_types_assoc by assumption.
    f_equal. now apply unify_types_comm.
  - now apply unify_types_comm.
Qed.

Lemma resolve_fold_perm (c : string) (rows rows' : list (dict json)) :
  Permutation rows rows' ->
  forall current, running_ok current ->
    fold_left (resolve_step c) rows current
    = fold_left (resolve_step c) rows' current.
Proof.
  induction 1 as [| r l l' _ IH | r1 r2 l | l l' l'' _ IH1 H2 IH2];
    intros current Hok; simpl.
  - reflexivity.
  - apply IH. now apply resolve_step_ok.
  - now rewrite resolve_step_swap.
  - rewrite IH1 by assumption. now apply IH2.
Qed.

(** C2. On the seven type tags [unify_types] is commutative and
    associative, and the type resolved for a column of a batch is the same
    for every order of the rows. *)
Theorem unify_types_order_independent
        (a b c : string) (col : string) (rows rows' : list (dict json))
        (Ha : is_tag a = true) (Hb : is_tag b = true) (Hc : is_tag c = true)
        (Hperm : Permutation rows rows') :
  unify_types a b = unify_types b a
  /\ unify_types (unify_types a b) c = unify_types a (unify_types b c)
  /\ or_text (resolve_col col rows) = or_text (resolve_col col rows').
Proof.
  split; [now apply unify_types_comm|].
  split; [now apply unify_types_assoc|].
  unfold resolve_col. f_equal. now apply resolve_fold_perm.
Qed.

Lemma unify_types_order_independent_witness :
  unify_types "bigint" "numeric" = unify_types "numeric" "bigint"
  /\ unify_types (unify_types "bigint" "numeric") "varchar(255)"
     = unify_types "bigint" (unify_types "numeric" "varchar(255)")
  /\ or_text (resolve_col "v" [[("v"%string, JInt 10)];
                               [("v"%string, JFloat (S754_finite false 21 (-1)))]])
     = or_text (resolve_col "v" [[("v"%string, JFloat (S754_finite false 21 (-1)))];
                                 [("v"%string, JInt 10)]]).
Proof.
  apply (@unify_types_order_independent "bigint" "numeric" "varchar(255)" "v"
           [[("v"%string, JInt 10)];
            [("v"%string, JFloat (S754_finite false 21 (-1)))]]
           [[("v"%string, JFloat (S754_finite false 21 (-1)))];
            [("v"%string, JInt 10)]]).
  - reflexivity.
  - reflexivity.
  - reflexivity.
  - apply perm_swap.
Defined.

(** C4, as stated: every tag other than the timestamp tag unifies with the
    timestamp tag to text.  The structured tag does not. *)
Lemma timestamp_unify_counterexample :
  ~ (forall t : string,
        is_tag t = true -> t <> "timestamptz"%string ->
        unify_types "timestamptz" t = "text"%string
        /\ unify_types t "timestamptz" = "text"%string).
Proof.
  intros H.
  destruct (H "jsonb"%string) as [H1 _]; [reflexivity | discriminate |].
  discriminate H1.
Qed.

(** C4, amended.  A tag other than the timestamp tag and the structured tag
    unifies with the timestamp tag to text, in both orders; the structured
    tag wins over the timestamp tag; the result is never bigint, numeric or
    boolean.  A column holding a timestamp string in one row and another
    string in the next resolves to text. *)
Theorem timestamp_conflict_demotes_to_text
        (t : string) (Ht : is_tag t = true)
        (Hts : t <> "timestamptz"%string) :
  (t <> "jsonb"%string ->
     unify_types "timestamptz" t = "text"%string
     /\ unify_types t "timestamptz" = "text"%string)
  /\ (t = "jsonb"%string ->
        unify_types "timestamptz" t = "jsonb"%string
        /\ unify_types t "timestamptz" = "jsonb"%string)
  /\ str_in (unify_types "timestamptz" t) ["bigint"; "numeric"; "boolean"]%string
     = false
  /\ str_in (unify_types t "timestamptz") ["bigint"; "numeric"; "boolean"]%string
     = false
  /\ infer_pg_type (JStr "2024-01-05T10:00:00Z") = "timestamptz"%string
  /\ infer_pg_type (JStr "not-a-date") = "varchar(255)"%string
  /\ col_types_of [[("criado_em"%string, JStr "2024-01-05T10:00:00Z")];
                   [("criado_em"%string, JStr "not-a-date")]]
     = [("criado_em", "text")]%string.
Proof.
  tag_cases Ht; try (exfalso; apply Hts; reflexivity);
    (split; [intros Hj; try (exfalso; apply Hj; reflexivity); split; reflexivity|]);
    (split; [intros Hj; try discriminate Hj; split; reflexivity|]);
    repeat split; reflexivity.
Qed.

Lemma timestamp_conflict_demotes_to_text_witness :
  (("varchar(255)" <> "jsonb")%string ->
     unify_types "timestamptz" "varchar(255)" = "text"%string
     /\ unify_types "varchar(255)" "timestamptz" = "text"%string)
  /\ (("varchar(255)" = "jsonb")%string ->
        unify_types "timestamptz" "varchar(255)" = "jsonb"%string
        /\ unify_types "varchar(255)" "timestamptz" = "jsonb"%string)
  /\ str_in (unify_types "timestamptz" "varchar(255)")
            ["bigint"; "numeric"; "boolean"]%string = false
  /\ str_in (unify_types "varchar(255)" "timestamptz")
            ["bigint"; "numeric"; "boolean"]%string = false
  /\ infer_pg_type (JStr "2024-01-05T10:00:00Z") = "timestamptz"%string
  /\ infer_pg_type (JStr "not-a-date") = "varchar(255)"%string
  /\ col_types_of [[("criado_em"%string, JStr "2024-01-05T10:00:00Z")];
                   [("criado_em"%string, JStr "not-a-date")]]
     = [("criado_em", "text")]%string.
Proof.
  apply (@timestamp_conflict_demotes_to_text "varchar(255)").
  - reflexivity.
  - discriminate.
Defined.

(** ** Payload normalizer *)

Lemma flatten_json_cons (kv : string * json) (obj : list (string * json))
      (parent_key sep : string) :
  flatten_json (kv :: obj) parent_key sep
  = fold_left
      (fun items kv => flatten_item parent_key sep items (fst kv) (snd kv))
      obj (flatten_item parent_key sep [] (fst kv) (snd kv)).
Proof. reflexivity. Qed.

Lemma flatten_item_leaf (parent_key sep : string) (items : dict json)
      (k : string) (v : json) :
  is_dict v = false ->
  flatten_item parent_key sep items k v
  = dict_set (sanitize_col (compound_key parent_key sep k)) v items.
Proof. destruct v; simpl; intros H; try reflexivity; discriminate H. Qed.

Lemma sanitize_col_valor : sanitize_col "valor" = "valor"%string.
Proof. reflexivity. Qed.

(** C5. [extract_rows_from_payload] takes the array under ["dados"] of an
    object, a bare array as it is, a lone object as one record and a scalar
    as one record with the single key ["valor"]; every array element that is
    an object is flattened.  The payload
    [{"dados": [{"Nome": "Ana", "Idade": 30}]}] gives the one record
    [{nome: "Ana", idade: 30}], with types varchar(255) and bigint. *)
Theorem extract_rows_dispatch :
  (forall (o : list (string * json)) (l : list json),
      dict_get "dados" o = Some (JArr l) ->
      extract_rows_from_payload (JObj o) = map item_row l)
  /\ (forall l : list json,
         extract_rows_from_payload (JArr l) = map item_row l)
  /\ (forall o : list (string * json),
         (forall l, dict_get "dados" o <> Some (JArr l)) ->
         extract_rows_from_payload (JObj o) = [flatten_json o "" "_"])
  /\ (forall v : json,
         is_scalar v = true ->
         extract_rows_from_payload v = [[("valor"%string, v)]])
  /\ extract_rows_from_payload
       (JObj [("dados"%string,
               JArr [JObj [("Nome"%string, JStr "Ana");
                           ("Idade"%string, JInt 30)]])])
     = [[("nome"%string, JStr "Ana"); ("idade"%string, JInt 30)]]
  /\ col_types_of [[("nome"%string, JStr "Ana"); ("idade"%string, JInt 30)]]
     = [("idade", "bigint"); ("nome", "varchar(255)")]%string.
Proof.
  split; [|split; [|split; [|split; [|split]]]].
  - intros o l H. unfold extract_rows_from_payload. now rewrite H.
  - reflexivity.
  - intros o H. unfold extract_rows_from_payload.
    destruct (dict_get "dados" o) as [[| | | | | l |]|] eqn:E; try reflexivity.
    exfalso. now apply (H l).
  - intros v Hv. unfold extract_rows_from_payload.
    destruct v; try discriminate Hv; reflexivity.
  - reflexivity.
  - reflexivity.
Qed.

Lemma extract_rows_dispatch_witness :
  extract_rows_from_payload
    (JObj [("total"%string, JInt 2);
           ("dados"%string, JArr [JObj [("A"%string, JInt 1)]; JInt 7])])
  = [[("a"%string, JInt 1)]; [("valor"%string, JInt 7)]]
  /\ extract_rows_from_payload (JObj [("dados"%string, JStr "x")])
     = [[("dados"%string, JStr "x")]]
  /\ extract_rows_from_payload (JBool true) = [[("valor"%string, JBool true)]].
Proof.
  destruct extract_rows_dispatch as [Hdados [_ [Hobj [Hscalar _]]]].
  split; [|split].
  - apply (Hdados [("total"%string, JInt 2);
                   ("dados"%string, JArr [JObj [("A"%string, JInt 1)]; JInt 7])]
                  [JObj [("A"%string, JInt 1)]; JInt 7]).
    reflexivity.
  - apply (Hobj [("dados"%string, JStr "x")]).
    intros l. simpl. discriminate.
  - apply (Hscalar (JBool true)). reflexivity.
Defined.

(** ** Dictionaries *)

Lemma dict_get_set_same {V} (k : string) (v : V) (d : dict V) :
  dict_get k (dict_set k v d) = Some v.
Proof.
  induction d as [| [k' v'] tl IH]; simpl.
  - now rewrite String.eqb_refl.
  - destruct (String.eqb k k') eqn:E; simpl; rewrite E; [reflexivity | exact IH].
Qed.

Lemma dict_get_set_other {V} (k k' : string) (v : V) (d : dict V) :
  k <> k' -> dict_get k (dict_set k' v d) = dict_get k d.
Proof.
  intros Hne. induction d as [| [k0 v0] tl IH]; simpl.
  - apply String.eqb_neq in Hne. now rewrite Hne.
  - destruct (String.eqb k' k0) eqn:E; simpl.
    + apply String.eqb_eq in E. subst k0.
      apply String.eqb_neq in Hne. now rewrite Hne.
    + destruct (String.eqb k k0); [reflexivity | exact IH].
Qed.

Lemma dict_set_keys_In {V} (k : string) (v : V) (d : dict V) (x : string) :
  In x (dict_keys (dict_set k v d)) <-> x = k \/ In x (dict_keys d).
Proof.
  induction d as [| [k' v'] tl IH]; simpl.
  - intuition.
  - destruct (String.eqb k k') eqn:E; simpl.
    + apply String.eqb_eq in E. subst k'. intuition.
    + rewrite IH. intuition.
Qed.

Lemma dict_set_NoDup {V} (k : string) (v : V) (d : dict V) :
  NoDup (dict_keys d) -> NoDup (dict_keys (dict_set k v d)).
Proof.
  induction d as [| [k' v'] tl IH]; simpl; intros Hnd.
  - constructor; [intros [] | constructor].
  - inversion Hnd as [| ? ? Hnotin Htl]; subst.
    destruct (String.eqb k k') eqn:E; simpl.
    + now constructor.
    + constructor; [| now apply IH].
      intros Hin. apply dict_set_keys_In in Hin.
      destruct Hin as [-> | Hin]; [| now apply Hnotin].
      now rewrite String.eqb_refl in E.
Qed.

Lemma dict_update_NoDup {V} (other d : dict V) :
  NoDup (dict_keys d) -> NoDup (dict_keys (dict_update d other)).
Proof.
  unfold dict_update. revert d.
  induction other as [| [k v] tl IH]; simpl; intros d Hnd; [exact Hnd|].
  apply IH. now apply dict_set_NoDup.
Qed.

Lemma flatten_item_NoDup (parent_key sep : string) (items : dict json)
      (k : string) (v : json) :
  NoDup (dict_keys items) ->
  NoDup (dict_keys (flatten_item parent_key sep items k v)).
Proof.
  intros Hnd. destruct v; simpl;
    solve [now apply dict_set_NoDup | now apply dict_update_NoDup].
Qed.

Lemma flatten_fold_NoDup (parent_key sep : string)
      (obj : list (string * json)) (items : dict json) :
  NoDup (dict_keys items) ->
  NoDup (dict_keys
           (fold_left
              (fun items kv =>
                 flatten_item parent_key sep items (fst kv) (snd kv))
              obj items)).
Proof.
  revert items. induction obj as [| kv tl IH]; simpl; intros items Hnd.
  - exact Hnd.
  - apply IH. now apply flatten_item_NoDup.
Qed.

Lemma flatten_json_NoDup (obj : list (string * json))
      (parent_key sep : string) :
  NoDup (dict_keys (flatten_json obj parent_key sep)).
Proof. apply flatten_fold_NoDup. constructor. Qed.

Lemma json_nested_ind (P : json -> Prop) :
  P JNull ->
  (forall b, P (JBool b)) ->
  (forall z, P (JInt z)) ->
  (forall f, P (JFloat f)) ->
  (forall s, P (JStr s)) ->
  (forall l, Forall P l -> P (JArr l)) ->
  (forall o, Forall (fun kv => P (snd kv)) o -> P (JObj o)) ->
  forall j, P j.
Proof.
  intros Hnull Hbool Hint Hfloat Hstr Harr Hobj.
  fix IH 1. intros [| b | z | f | s | l | o].
  - exact Hnull.
  - apply Hbool.
  - apply Hint.
  - apply Hfloat.
  - apply Hstr.
  - apply Harr. induction l as [| x tl IHl]; constructor; [apply IH | exact IHl].
  - apply Hobj. induction o as [| [k v] tl IHo]; constructor;
      [apply IH | exact IHo].
Qed.

Lemma dict_get_absent {V} (c : string) (d : dict V) :
  ~ In c (dict_keys d) -> dict_get c d = None.
Proof.
  induction d as [| [k v] tl IH]; simpl; intros Hnot; [reflexivity|].
  destruct (String.eqb_spec c k) as [-> | Hne]; [now elim Hnot; left|].
  apply IH. intros Hin. apply Hnot. now right.
Qed.

Lemma dict_get_update {V} (c : string) (other d : dict V) :
  NoDup (dict_keys other) ->
  dict_get c (dict_update d other)
  = match dict_get c other with
    | Some v => Some v
    | None => dict_get c d
    end.
Proof.
  unfold dict_update. revert d.
  induction other as [| [k v] tl IH]; simpl; intros d Hnd; [reflexivity|].
  inversion Hnd as [| ? ? Hnotin Htl]; subst.
  rewrite IH by exact Htl.
  destruct (String.eqb_spec c k) as [-> | Hne].
  - rewrite dict_get_absent by exact Hnotin. apply dict_get_set_same.
  - now rewrite dict_get_set_other by exact Hne.
Qed.

Lemma last_assigned_app (c : string) (l l' : list (string * json)) :
  last_assigned c (l ++ l')
  = match last_assigned c l' with
    | Some x => Some x
    | None => last_assigned c l
    end.
Proof.
  induction l as [| [k v] tl IH]; simpl.
  - now destruct (last_assigned c l').
  - rewrite IH. now destruct (last_assigned c l').
Qed.

Lemma assignments_of_obj (parent_key sep k : string)
      (o : list (string * json)) :
  assignments_of parent_key sep k (JObj o)
  = assignments o (sanitize_col (compound_key parent_key sep k)) sep.
Proof.
  simpl. generalize (sanitize_col (compound_key parent_key sep k)).
  intros key. unfold assignments.
  induction o as [| [k' v'] tl IH]; simpl; [reflexivity | now rewrite IH].
Qed.

Lemma flatten_item_obj (parent_key sep : string) (items : dict json)
      (k : string) (o : list (string * json)) :
  flatten_item parent_key sep items k (JObj o)
  = dict_update items
      (flatten_json o (sanitize_col (compound_key parent_key sep k)) sep).
Proof.
  simpl. f_equal.
  generalize (sanitize_col (compound_key parent_key sep k)). intros key.
  unfold flatten_json. generalize (@nil (string * json)).
  induction o as [| [k' v'] tl IH]; intros acc; simpl; [reflexivity|].
  apply IH.
Qed.

Lemma flatten_fold_assigns (parent_key sep c : string)
      (obj : list (string * json)) :
  Forall (fun kv => turn_assigns (snd kv)) obj ->
  forall items,
    dict_get c
      (fold_left
         (fun items kv => flatten_item parent_key sep items (fst kv) (snd kv))
         obj items)
    = match last_assigned c (assignments obj parent_key sep) with
      | Some x => Some x
      | None => dict_get c items
      end.
Proof.
  unfold assignments.
  induction 1 as [| [k v] tl Hv _ IH]; intros items; simpl; [reflexivity|].
  rewrite IH, last_assigned_app, Hv. simpl.
  now destruct (last_assigned c
                  (flat_map (fun kv => assignments_of parent_key sep
                                         (fst kv) (snd kv)) tl)).
Qed.

Lemma flatten_item_assigns (v : json) : turn_assigns v.
Proof.
  induction v as [| b | z | f | s | l _ | o IHo] using json_nested_ind;
    intros parent_key sep items k c;
    try (simpl;
         destruct (String.eqb_spec c
                     (sanitize_col (compound_key parent_key sep k)))
           as [-> | Hne];
         [apply dict_get_set_same | now apply dict_get_set_other]).
  rewrite flatten_item_obj, assignments_of_obj.
  rewrite dict_get_update by apply flatten_json_NoDup.
  unfold flatten_json. rewrite (flatten_fold_assigns _ _ _ IHo). simpl.
  now destruct (last_assigned c
                  (assignments o
                     (sanitize_col (compound_key parent_key sep k)) sep)).
Qed.

Lemma flatten_json_assigns (obj : list (string * json))
      (parent_key sep c : string) (items : dict json) :
  dict_get c
    (fold_left
       (fun items kv => flatten_item parent_key sep items (fst kv) (snd kv))
       obj items)
  = match last_assigned c (assignments obj parent_key sep) with
    | Some x => Some x
    | None => dict_get c items
    end.
Proof.
  apply flatten_fold_assigns.
  apply Forall_forall. intros kv _. apply flatten_item_assigns.
Qed.

(** The claim fails where the key met last holds an object: of the keys
    ["a b"] and ["a_b"] of [{"a b": 1, "a_b": {}}] the second is met last,
    and the record binds the value of the first. *)
Lemma flatten_json_collision_counterexample :
  ~ (forall (pre post : list (string * json)) (k1 k2 : string)
            (v1 v2 : json),
        k1 <> k2 ->
        In (k1, v1) pre ->
        sanitize_col k1 = sanitize_col k2 ->
        (forall kv, In kv post -> sanitize_col (fst kv) <> sanitize_col k2) ->
        dict_get (sanitize_col k2)
                 (flatten_json (pre ++ (k2, v2) :: post) "" "_")
        = Some v2).
Proof.
  intros H.
  specialize (H [("a b"%string, JInt 1)] [] "a b"%string "a_b"%string
                (JInt 1) (JObj [])).
  assert (Hnot : Some (JInt 1) = Some (JObj []) -> False) by discriminate.
  apply Hnot. apply H.
  - discriminate.
  - left. reflexivity.
  - reflexivity.
  - intros kv [].
Qed.

(** C10. The flattened record binds under every name the value assigned
    last under it, where a key whose value is not an object assigns its
    value and a key whose value is an object assigns what its own flattening
    holds.  So when two distinct keys of one object give the same
    identifier, the second of them holds no object and nothing after it
    assigns under the identifier, the record has that identifier once,
    bound to the value of the second key; [flatten_json] is a total
    function, nothing is raised. *)
Theorem flatten_json_collision_last_wins
        (parent_key sep : string) (pre post : list (string * json))
        (k1 k2 : string) (v1 v2 : json)
        (Hdistinct : k1 <> k2)
        (Hfirst : In (k1, v1) pre)
        (Hsame : sanitize_col (compound_key parent_key sep k1)
                 = sanitize_col (compound_key parent_key sep k2))
        (Hleaf : is_dict v2 = false)
        (Hpost : last_assigned (sanitize_col (compound_key parent_key sep k2))
                               (assignments post parent_key sep) = None) :
  let items := flatten_json (pre ++ (k2, v2) :: post) parent_key sep in
  dict_get (sanitize_col (compound_key parent_key sep k1)) items = Some v2
  /\ NoDup (dict_keys items)
  /\ (forall (obj : list (string * json)) (c : string),
        dict_get c (flatten_json obj parent_key sep)
        = last_assigned c (assignments obj parent_key sep))
  /\ flatten_json [("a b"%string, JInt 1); ("a_b"%string, JInt 2)] "" "_"
     = [("a_b"%string, JInt 2)]
  /\ flatten_json [("a b"%string, JInt 1);
                   ("a"%string, JObj [("b"%string, JInt 2)])] "" "_"
     = [("a_b"%string, JInt 2)].
Proof.
  intros items. split; [|split; [|split; [|split]]].
  - unfold items, flatten_json.
    rewrite fold_left_app. simpl.
    rewrite Hsame, flatten_json_assigns, Hpost.
    rewrite flatten_item_leaf by exact Hleaf.
    apply dict_get_set_same.
  - apply flatten_json_NoDup.
  - intros obj c. unfold flatten_json. rewrite flatten_json_assigns.
    now destruct (last_assigned c (assignments obj parent_key sep)).
  - reflexivity.
  - reflexivity.
Qed.

Lemma flatten_json_collision_last_wins_witness :
  let items :=
    flatten_json ([("a b"%string, JInt 1);
                   ("a"%string, JObj [("b"%string, JInt 5)])]
                    ++ ("a_b"%string, JInt 2)
                    :: [("z"%string, JObj [("q"%string, JBool true)])])
                 "" "_" in
  dict_get (sanitize_col (compound_key "" "_" "a b")) items = Some (JInt 2)
  /\ NoDup (dict_keys items).
Proof.
  destruct (@flatten_json_collision_last_wins "" "_"
              [("a b"%string, JInt 1);
               ("a"%string, JObj [("b"%string, JInt 5)])]
              [("z"%string, JObj [("q"%string, JBool true)])]
              "a b" "a_b" (JInt 1) (JInt 2))
    as [H1 [H2 _]].
  - discriminate.
  - simpl. left. reflexivity.
  - reflexivity.
  - reflexivity.
  - reflexivity.
  - split; [exact H1 | exact H2].
Defined.

(** ** Identifier sanitizer *)

Ltac each_char c :=
  destruct c as [[] [] [] [] [] [] [] []]; vm_compute; try reflexivity;
  try discriminate; try (intros; discriminate); try (intros; reflexivity).

Lemma underscore_eq (c : ascii) : Py.underscore c = true -> c = "_"%char.
Proof. each_char c. Qed.

Lemma word_lower_ident (c : ascii) :
  Py.word c = true -> ident_char (Py.lower c) = true.
Proof. each_char c. Qed.

Lemma lower_underscore (c : ascii) :
  Py.underscore (Py.lower c) = Py.underscore c.
Proof. each_char c. Qed.

Lemma lower_ident (c : ascii) : ident_char c = true -> Py.lower c = c.
Proof. each_char c. Qed.

Lemma ident_word (c : ascii) : ident_char c = true -> Py.word c = true.
Proof. each_char c. Qed.

Lemma ident_not_space (c : ascii) : ident_char c = true -> Py.isspace c = false.
Proof. each_char c. Qed.

Lemma ident_front (c : ascii) :
  ident_char c = true -> Py.underscore c = false -> Py.isdigit c = false ->
  Py.az c = true.
Proof. each_char c. Qed.

Lemma ident_isdigit (c : ascii) :
  ident_char c = true -> Py.isdigit c = Py.d09 c.
Proof. each_char c. Qed.

Lemma az_facts (c : ascii) :
  Py.az c = true ->
  ident_char c = true /\ Py.underscore c = false /\ Py.isdigit c = false
  /\ Py.d09 c = false /\ Py.isspace c = false.
Proof. each_char c; intros _; repeat split. Qed.

Lemma digit_not_underscore (c : ascii) :
  Py.isdigit c = true -> Py.underscore c = false.
Proof. each_char c. Qed.

(** *** Stripping *)

Lemma forallb_ends_in (P cls : ascii -> bool) (l : list ascii) :
  (forall c, P c = true -> cls c = false) ->
  forallb P l = true -> ends_in cls l = false.
Proof.
  intros HP. induction l as [| c tl IH]; simpl; intros H; [reflexivity|].
  apply andb_true_iff in H. destruct H as [Hc Htl].
  destruct tl as [| c' tl']; [now apply HP | now apply IH].
Qed.

Lemma lstrip_keep (cls : ascii -> bool) (l : list ascii) :
  starts_in cls l = false -> Py.lstrip cls l = l.
Proof. destruct l as [| c tl]; simpl; intros H; [|rewrite H]; reflexivity. Qed.

Lemma lstrip_forallb (P cls : ascii -> bool) (l : list ascii) :
  forallb P l = true -> forallb P (Py.lstrip cls l) = true.
Proof.
  induction l as [| c tl IH]; simpl; intros H; [reflexivity|].
  destruct (cls c); [| exact H].
  apply andb_true_iff in H. now apply IH.
Qed.

Lemma lstrip_no_uu (cls : ascii -> bool) (l : list ascii) :
  no_uu l = true -> no_uu (Py.lstrip cls l) = true.
Proof.
  induction l as [| c tl IH]; simpl; intros H; [reflexivity|].
  destruct (cls c); [| exact H].
  apply andb_true_iff in H. now apply IH.
Qed.

Lemma lstrip_starts (cls : ascii -> bool) (l : list ascii) :
  starts_in cls (Py.lstrip cls l) = false.
Proof.
  induction l as [| c tl IH]; simpl; [reflexivity|].
  destruct (cls c) eqn:E; [exact IH | simpl; exact E].
Qed.

Lemma rstrip_cons (cls : ascii -> bool) (c : ascii) (tl : list ascii) :
  cls c = false -> Py.rstrip cls (c :: tl) = c :: Py.rstrip cls tl.
Proof. intros H. simpl. rewrite H. now destruct (Py.rstrip cls tl). Qed.

Lemma rstrip_starts_from (p cls : ascii -> bool) (l : list ascii) :
  starts_in p (Py.rstrip cls l) = true -> starts_in p l = true.
Proof.
  destruct l as [| c tl]; simpl; [discriminate|].
  destruct (Py.rstrip cls tl); [destruct (cls c)|]; simpl; congruence.
Qed.

Lemma rstrip_starts (cls : ascii -> bool) (l : list ascii) :
  starts_in cls l = false -> starts_in cls (Py.rstrip cls l) = false.
Proof.
  intros H. destruct (starts_in cls (Py.rstrip cls l)) eqn:E; [|reflexivity].
  apply rstrip_starts_from in E. congruence.
Qed.

Lemma rstrip_forallb (P cls : ascii -> bool) (l : list ascii) :
  forallb P l = true -> forallb P (Py.rstrip cls l) = true.
Proof.
  induction l as [| c tl IH]; simpl; intros H; [reflexivity|].
  apply andb_true_iff in H. destruct H as [Hc Htl]. specialize (IH Htl).
  destruct (Py.rstrip cls tl) as [| r rs].
  - destruct (cls c); simpl; [reflexivity | now rewrite Hc].
  - change (forallb P (c :: r :: rs)) with (P c && forallb P (r :: rs)).
    now rewrite Hc, IH.
Qed.

Lemma rstrip_no_uu (cls : ascii -> bool) (l : list ascii) :
  no_uu l = true -> no_uu (Py.rstrip cls l) = true.
Proof.
  induction l as [| c tl IH]; simpl; intros H; [reflexivity|].
  apply andb_true_iff in H. destruct H as [Hc Htl]. specialize (IH Htl).
  pose proof (@rstrip_starts_from Py.underscore cls tl) as Hst.
  destruct (Py.rstrip cls tl) as [| r rs].
  - destruct (cls c); simpl; [reflexivity|].
    now rewrite andb_false_r.
  - change (no_uu (c :: r :: rs))
      with (negb (Py.underscore c && starts_in Py.underscore (r :: rs))
            && no_uu (r :: rs)).
    rewrite IH, andb_true_r.
    destruct (Py.underscore c); [|reflexivity].
    destruct (starts_in Py.underscore (r :: rs)); [|reflexivity].
    rewrite Hst in Hc by reflexivity. discriminate Hc.
Qed.

Lemma rstrip_keep (cls : ascii -> bool) (l : list ascii) :
  ends_in cls l = false -> Py.rstrip cls l = l.
Proof.
  induction l as [| c tl IH]; [reflexivity|].
  destruct tl as [| c' tl'].
  - simpl. intros H. now rewrite H.
  - intros H. change (ends_in cls (c' :: tl') = false) in H.
    specialize (IH H).
    change (Py.rstrip cls (c :: c' :: tl'))
      with (match Py.rstrip cls (c' :: tl') with
            | [] => if cls c then [] else [c]
            | rest => c :: rest
            end).
    now rewrite IH.
Qed.

Lemma rstrip_ends (cls : ascii -> bool) (l : list ascii) :
  ends_in cls (Py.rstrip cls l) = false.
Proof.
  induction l as [| c tl IH]; simpl; [reflexivity|].
  destruct (Py.rstrip cls tl) as [| r rs].
  - destruct (cls c) eqn:E; simpl; [reflexivity | exact E].
  - exact IH.
Qed.

Lemma rstrip_length (cls : ascii -> bool) (l : list ascii) :
  List.length (Py.rstrip cls l) <= List.length l.
Proof.
  induction l as [| c tl IH]; simpl; [lia|].
  destruct (Py.rstrip cls tl); [destruct (cls c)|]; simpl in *; lia.
Qed.

Lemma rstrip_shorter (cls : ascii -> bool) (l : list ascii) :
  ends_in cls l = true -> List.length (Py.rstrip cls l) < List.length l.
Proof.
  induction l as [| c tl IH]; [discriminate|].
  destruct tl as [| c' tl'].
  - simpl. intros H. rewrite H. simpl. lia.
  - intros H. change (ends_in cls (c' :: tl') = true) in H.
    specialize (IH H).
    change (Py.rstrip cls (c :: c' :: tl'))
      with (match Py.rstrip cls (c' :: tl') with
            | [] => if cls c then [] else [c]
            | rest => c :: rest
            end).
    destruct (Py.rstrip cls (c' :: tl')); [destruct (cls c)|];
      simpl in *; lia.
Qed.

Lemma strip_keep (cls : ascii -> bool) (l : list ascii) :
  starts_in cls l = false -> ends_in cls l = false -> Py.strip cls l = l.
Proof.
  intros Hs He. unfold Py.strip.
  rewrite lstrip_keep by exact Hs. now apply rstrip_keep.
Qed.

(** *** Substitution of runs *)

Lemma sub_nonword_word (b : bool) (l : list ascii) :
  forallb Py.word (Py.sub_runs (fun c => negb (Py.word c)) "_" b l) = true.
Proof.
  revert b. induction l as [| c tl IH]; intros b; simpl; [reflexivity|].
  destruct (Py.word c) eqn:E; simpl.
  - now rewrite E, IH.
  - destruct b; simpl; apply IH.
Qed.

Lemma sub_runs_keep (cls : ascii -> bool) (r : ascii) (b : bool)
      (l : list ascii) :
  forallb (fun c => negb (cls c)) l = true -> Py.sub_runs cls r b l = l.
Proof.
  revert b. induction l as [| c tl IH]; intros b; simpl; [reflexivity|].
  intros H. apply andb_true_iff in H. destruct H as [Hc Htl].
  apply negb_true_iff in Hc. rewrite Hc. f_equal. now apply IH.
Qed.

Lemma collapse_word (b : bool) (l : list ascii) :
  forallb Py.word l = true ->
  forallb Py.word (Py.sub_runs Py.underscore "_" b l) = true.
Proof.
  revert b. induction l as [| c tl IH]; intros b; simpl; [reflexivity|].
  intros H. apply andb_true_iff in H. destruct H as [Hc Htl].
  destruct (Py.underscore c); [destruct b|]; simpl;
    rewrite ?Hc; simpl; now apply IH.
Qed.

Lemma collapse_no_uu (b : bool) (l : list ascii) :
  no_uu (Py.sub_runs Py.underscore "_" b l) = true
  /\ (b = true ->
      starts_in Py.underscore (Py.sub_runs Py.underscore "_" b l) = false).
Proof.
  revert b. induction l as [| c tl IH]; intros b; simpl.
  - split; [reflexivity | intros _; reflexivity].
  - destruct (Py.underscore c) eqn:E.
    + destruct b.
      * apply IH.
      * destruct (IH true) as [H1 H2]. split; [| discriminate].
        simpl. rewrite H1, H2 by reflexivity. reflexivity.
    + destruct (IH false) as [H1 _]. simpl. rewrite E, H1.
      split; [reflexivity | intros _; reflexivity].
Qed.

Lemma collapse_keep (b : bool) (l : list ascii) :
  no_uu l = true ->
  (b = true -> starts_in Py.underscore l = false) ->
  Py.sub_runs Py.underscore "_" b l = l.
Proof.
  revert b. induction l as [| c tl IH]; intros b Hnu Hb; simpl; [reflexivity|].
  simpl in Hnu. apply andb_true_iff in Hnu. destruct Hnu as [Hc Htl].
  destruct (Py.underscore c) eqn:E.
  - destruct b; [simpl in Hb; rewrite Hb in E by reflexivity; discriminate|].
    rewrite (underscore_eq c E). f_equal.
    apply IH; [exact Htl|]. intros _.
    simpl in Hc. now apply negb_true_iff in Hc.
  - f_equal. apply IH; [exact Htl | discriminate].
Qed.

(** *** Lower case and cutting *)

Lemma map_lower_ident (l : list ascii) :
  forallb Py.word l = true -> forallb ident_char (map Py.lower l) = true.
Proof.
  induction l as [| c tl IH]; simpl; intros H; [reflexivity|].
  apply andb_true_iff in H. destruct H as [Hc Htl].
  now rewrite word_lower_ident, IH.
Qed.

Lemma map_lower_keep (l : list ascii) :
  forallb ident_char l = true -> map Py.lower l = l.
Proof.
  induction l as [| c tl IH]; simpl; intros H; [reflexivity|].
  apply andb_true_iff in H. destruct H as [Hc Htl].
  now rewrite lower_ident, IH.
Qed.

Lemma starts_in_map_lower (l : list ascii) :
  starts_in Py.underscore (map Py.lower l) = starts_in Py.underscore l.
Proof. destruct l; simpl; [reflexivity | apply lower_underscore]. Qed.

Lemma no_uu_map_lower (l : list ascii) : no_uu (map Py.lower l) = no_uu l.
Proof.
  induction l as [| c tl IH]; simpl; [reflexivity|].
  now rewrite lower_underscore, starts_in_map_lower, IH.
Qed.

Lemma ends_in_map_lower (l : list ascii) :
  ends_in Py.underscore (map Py.lower l) = ends_in Py.underscore l.
Proof.
  induction l as [| c tl IH]; [reflexivity|].
  destruct tl as [| c' tl']; [apply lower_underscore | exact IH].
Qed.

Lemma firstn_forallb (P : ascii -> bool) (n : nat) (l : list ascii) :
  forallb P l = true -> forallb P (firstn n l) = true.
Proof.
  revert l. induction n as [| n IH]; intros [| c tl]; simpl; try reflexivity.
  intros H. apply andb_true_iff in H. destruct H as [Hc Htl].
  now rewrite Hc, IH.
Qed.

Lemma firstn_starts_from (p : ascii -> bool) (n : nat) (l : list ascii) :
  starts_in p (firstn n l) = true -> starts_in p l = true.
Proof. destruct n, l; simpl; congruence. Qed.

Lemma firstn_no_uu (n : nat) (l : list ascii) :
  no_uu l = true -> no_uu (firstn n l) = true.
Proof.
  revert l. induction n as [| n IH]; intros [| c tl]; simpl; try reflexivity.
  intros H. apply andb_true_iff in H. destruct H as [Hc Htl].
  rewrite IH by exact Htl. rewrite andb_true_r.
  destruct (Py.underscore c); [|reflexivity].
  destruct (starts_in Py.underscore (firstn n tl)) eqn:E; [|reflexivity].
  apply firstn_starts_from in E. now rewrite E in Hc.
Qed.

(** *** The sanitizer itself *)

Lemma sanitize_chars_core (name : list ascii) :
  sanitize_chars name = firstn 63 (sanitize_core name).
Proof. reflexivity. Qed.

Lemma sanitize_core_canonical (name : list ascii) :
  canonical (sanitize_core name)
  /\ ends_in Py.underscore (sanitize_core name) = false.
Proof.
  unfold sanitize_core, Py.re_sub_plus.
  set (s2 := Py.sub_runs (fun c => negb (Py.word c)) "_" false
                         (Py.strip Py.isspace name)).
  set (s3 := Py.sub_runs Py.underscore "_" false s2).
  assert (W3 : forallb Py.word s3 = true)
    by (apply collapse_word, sub_nonword_word).
  assert (U3 : no_uu s3 = true) by apply collapse_no_uu.
  set (s4 := Py.strip Py.underscore s3).
  assert (W4 : forallb Py.word s4 = true)
    by (apply rstrip_forallb, lstrip_forallb, W3).
  assert (U4 : no_uu s4 = true) by (apply rstrip_no_uu, lstrip_no_uu, U3).
  assert (S4 : starts_in Py.underscore s4 = false)
    by (apply rstrip_starts, lstrip_starts).
  assert (E4 : ends_in Py.underscore s4 = false) by apply rstrip_ends.
  set (s5 := map Py.lower s4).
  assert (I5 : forallb ident_char s5 = true) by (apply map_lower_ident, W4).
  assert (U5 : no_uu s5 = true) by (unfold s5; now rewrite no_uu_map_lower).
  assert (S5 : starts_in Py.underscore s5 = false)
    by (unfold s5; now rewrite starts_in_map_lower).
  assert (E5 : ends_in Py.underscore s5 = false)
    by (unfold s5; now rewrite ends_in_map_lower).
  clearbody s5. clear - I5 U5 S5 E5.
  destruct s5 as [| c tl].
  - repeat split; reflexivity.
  - destruct (Py.isdigit c) eqn:D.
    + pose proof (digit_not_underscore c D) as Hu.
      unfold canonical. cbn [Py.chars list_ascii_of_string app].
      repeat split.
      * change (forallb ident_char ("c"%char :: "_"%char :: c :: tl))
          with (forallb ident_char (c :: tl)).
        exact I5.
      * change (no_uu ("c"%char :: "_"%char :: c :: tl))
          with (negb (true && Py.underscore c) && no_uu (c :: tl)).
        now rewrite Hu, U5.
      * exact E5.
    + unfold canonical. repeat split; try assumption.
      simpl in I5, S5 |- *.
      apply andb_true_iff in I5. destruct I5 as [Ic _].
      now apply ident_front.
Qed.

Lemma canonical_firstn (n : nat) (l : list ascii) :
  canonical l -> canonical (firstn (S n) l).
Proof.
  intros [HI [HU HS]]. repeat split.
  - now apply firstn_forallb.
  - now apply firstn_no_uu.
  - destruct l; [discriminate HS | exact HS].
Qed.

(** A canonical name of at most 63 characters that does not end with an
    underscore is left as it is. *)
Lemma sanitize_chars_fixed (l : list ascii) :
  canonical l -> List.length l <= 63 -> ends_in Py.underscore l = false ->
  sanitize_chars l = l.
Proof.
  intros [HI [HU HS]] Hlen HE.
  destruct l as [| c tl]; [discriminate HS|].
  simpl in HS. destruct (az_facts c HS) as [_ [Hus [Hdig [_ Hsp]]]].
  unfold sanitize_chars, Py.re_sub_plus.
  rewrite (@strip_keep Py.isspace (c :: tl));
    [| exact Hsp
     | apply (@forallb_ends_in ident_char); [apply ident_not_space | exact HI]].
  rewrite (@sub_runs_keep (fun c => negb (Py.word c))).
  2:{ clear - HI. induction (c :: tl) as [| x xs IH]; [reflexivity|].
      simpl in *. apply andb_true_iff in HI. destruct HI as [Hx Hxs].
      now rewrite (ident_word x Hx), IH. }
  rewrite collapse_keep by (try exact HU; discriminate).
  rewrite strip_keep by assumption.
  rewrite map_lower_keep by exact HI.
  rewrite Hdig. unfold Py.slice_to. now apply firstn_all2.
Qed.

(** A canonical name that ends with an underscore loses it. *)
Lemma sanitize_chars_shrinks (l : list ascii) :
  canonical l -> ends_in Py.underscore l = true ->
  List.length (sanitize_chars l) < List.length l.
Proof.
  intros [HI [HU HS]] HE.
  destruct l as [| c tl]; [discriminate HS|].
  simpl in HS. destruct (az_facts c HS) as [Hid [Hus [Hdig [_ Hsp]]]].
  unfold sanitize_chars, Py.re_sub_plus.
  rewrite (@strip_keep Py.isspace (c :: tl));
    [| exact Hsp
     | apply (@forallb_ends_in ident_char); [apply ident_not_space | exact HI]].
  rewrite (@sub_runs_keep (fun c => negb (Py.word c))).
  2:{ clear - HI. induction (c :: tl) as [| x xs IH]; [reflexivity|].
      simpl in *. apply andb_true_iff in HI. destruct HI as [Hx Hxs].
      now rewrite (ident_word x Hx), IH. }
  rewrite collapse_keep by (try exact HU; discriminate).
  unfold Py.strip. rewrite lstrip_keep by exact Hus.
  pose proof (rstrip_shorter Py.underscore (c :: tl) HE) as Hshort.
  rewrite rstrip_cons in * by exact Hus.
  cbn [map]. rewrite (lower_ident c Hid), Hdig.
  unfold Py.slice_to.
  rewrite length_firstn. cbn [List.length] in *. rewrite length_map. lia.
Qed.

Lemma chars_str (l : list ascii) : Py.chars (Py.str l) = l.
Proof. apply list_ascii_of_string_of_list_ascii. Qed.

(** C1, as stated: sanitizing twice is sanitizing once.  A key whose
    sixty-third character after cleaning is an underscore shows otherwise. *)
Lemma sanitize_col_idempotence_counterexample :
  sanitize_col (sanitize_col long_key) <> sanitize_col long_key.
Proof. vm_compute. discriminate. Qed.

(** C1, amended.  For every key the sanitized name is an identifier (not
    empty, lowercase letters, digits and underscores, no digit in front, at
    most 63 characters), and sanitizing it again gives the same name exactly
    when it does not end with an underscore, which the cut to 63 characters
    can leave. *)
Theorem sanitize_col_identifier (k : string) :
  is_identifier (sanitize_col k) = true
  /\ (sanitize_col (sanitize_col k) = sanitize_col k
      <-> ends_in Py.underscore (Py.chars (sanitize_col k)) = false).
Proof.
  unfold sanitize_col. rewrite !chars_str.
  set (r := sanitize_chars (Py.chars k)).
  assert (Hcan : canonical r)
    by (unfold r; rewrite sanitize_chars_core;
        apply canonical_firstn, sanitize_core_canonical).
  assert (Hlen : List.length r <= 63)
    by (unfold r; rewrite sanitize_chars_core; apply firstn_le_length).
  split.
  - unfold is_identifier. rewrite chars_str.
    destruct Hcan as [HI [_ HS]].
    destruct r as [| c tl]; [discriminate HS|].
    simpl in HS. destruct (az_facts c HS) as [_ [_ [_ [Hd _]]]].
    rewrite Hd, HI. cbn [negb andb].
    apply Nat.leb_le. exact Hlen.
  - split.
    + intros Heq. apply (f_equal Py.chars) in Heq. rewrite !chars_str in Heq.
      destruct (ends_in Py.underscore r) eqn:E; [|reflexivity].
      pose proof (sanitize_chars_shrinks Hcan E) as Hlt.
      rewrite Heq in Hlt. lia.
    + intros E. f_equal. now apply sanitize_chars_fixed.
Qed.

(** ** Table names *)

Lemma last_opt_snoc (l : list ascii) (c : ascii) : last_opt (l ++ [c]) = Some c.
Proof. unfold last_opt. now rewrite rev_app_distr. Qed.

Lemma islower_at_before (pre tl : list ascii) (ch : ascii) :
  pre <> [] ->
  islower_at (pre ++ ch :: tl) (List.length pre - 1) = islower_opt (last_opt pre).
Proof.
  intros Hne. destruct (exists_last Hne) as [pre' [p ->]].
  rewrite last_opt_snoc. unfold islower_at.
  rewrite length_app. simpl List.length.
  replace (List.length pre' + 1 - 1) with (List.length pre' + 0) by lia.
  rewrite <- app_assoc. rewrite nth_error_app2 by lia.
  replace (List.length pre' + 0 - List.length pre') with 0 by lia.
  reflexivity.
Qed.

Lemma islower_at_after (pre tl : list ascii) (ch : ascii) :
  (List.length pre + 1 <? List.length (pre ++ ch :: tl))
  && islower_at (pre ++ ch :: tl) (List.length pre + 1)
  = starts_in Py.islower tl.
Proof.
  unfold islower_at.
  rewrite nth_error_app2 by lia.
  replace (List.length pre + 1 - List.length pre) with 1 by lia.
  rewrite length_app. simpl.
  destruct tl as [| n tl']; simpl.
  - apply andb_false_r.
  - replace (List.length pre + 1 <? List.length pre + S (S (List.length tl')))
      with true; [reflexivity|].
    symmetry. apply Nat.ltb_lt. lia.
Qed.

Lemma endpoint_step_concat (pre tl : list ascii) (ch : ascii)
      (out : list (list ascii)) :
  List.concat (endpoint_step (pre ++ ch :: tl) out (List.length pre, ch))
  = List.concat out
    ++ (if Py.isupper ch
           && match last_opt pre with
              | Some p => Py.islower p || starts_in Py.islower tl
              | None => false
              end
        then ["_"%char] else [])
    ++ [Py.lower ch].
Proof.
  unfold endpoint_step.
  rewrite islower_at_after.
  destruct pre as [| p0 pre'].
  - simpl. rewrite !andb_false_r. simpl.
    rewrite concat_app. simpl. reflexivity.
  - rewrite islower_at_before by discriminate.
    assert (Hpos : (0 <? List.length (p0 :: pre')) = true)
      by (apply Nat.ltb_lt; simpl; lia).
    rewrite Hpos, andb_true_r.
    destruct (exists_last (l := p0 :: pre')) as [q [p Hq]]; [discriminate|].
    rewrite Hq, last_opt_snoc. simpl islower_opt.
    destruct (Py.isupper ch && (Py.islower p || starts_in Py.islower tl)).
    + rewrite !concat_app. simpl. now rewrite <- app_assoc.
    + rewrite concat_app. simpl. reflexivity.
Qed.

Lemma endpoint_loop (endpoint rest : list ascii) :
  forall (pre : list ascii) (out : list (list ascii)),
    endpoint = pre ++ rest ->
    List.concat
      (fold_left (endpoint_step endpoint)
                 (combine (seq (List.length pre) (List.length rest)) rest) out)
    = List.concat out ++ loop_output (last_opt pre) rest.
Proof.
  induction rest as [| ch tl IH]; intros pre out He.
  - simpl. now rewrite app_nil_r.
  - cbn [List.length seq combine fold_left loop_output].
    rewrite <- (last_length pre ch).
    rewrite IH by (rewrite He, <- app_assoc; reflexivity).
    subst endpoint. rewrite endpoint_step_concat.
    rewrite last_opt_snoc. rewrite <- !app_assoc. reflexivity.
Qed.

Lemma loop_output_boundaries (p : ascii) (s : list ascii) :
  loop_output (Some p) s = map Py.lower (insert_boundaries (Some p) s).
Proof.
  revert p. induction s as [| ch tl IH]; intros p; simpl; [reflexivity|].
  rewrite map_app. simpl. rewrite IH.
  now destruct (Py.isupper ch && (Py.islower p || starts_in Py.islower tl)).
Qed.

Lemma upper_lower_plain (c : ascii) :
  Py.isupper c = true ->
  Py.underscore (Py.lower c) = false /\ Ascii.eqb (Py.lower c) "-" = false.
Proof. each_char c; intros _; split; reflexivity. Qed.

(** C7, as stated: the underscored, lowercased name is sanitized before the
    prefix is put in front.  A name with a space shows otherwise. *)
Lemma table_name_sanitized_counterexample :
  table_name_from_endpoint "Obter Clientes" = "api_obter _clientes"%string
  /\ spec_table_name "Obter Clientes" = "api_obter_clientes"%string
  /\ table_name_from_endpoint "Obter Clientes"
     <> spec_table_name "Obter Clientes".
Proof. vm_compute. repeat split. discriminate. Qed.

(** C7, amended.  For every operation name, [table_name_from_endpoint]
    inserts an underscore before each uppercase letter that follows a
    lowercase letter or is followed by one, lowercases, then replaces every
    hyphen by an underscore and trims the underscores at both ends, and puts
    [api_] in front; ["ObterClientesAtivos"] gives
    ["api_obter_clientes_ativos"]. *)
Theorem table_name_from_endpoint_snake (endpoint : string) :
  table_name_from_endpoint endpoint
  = Py.str (Py.chars "api_"
            ++ Py.strip Py.underscore
                 (Py.replace "-" "_" (snake_words (Py.chars endpoint))))
  /\ table_name_from_endpoint "ObterClientesAtivos"
     = "api_obter_clientes_ativos"%string.
Proof.
  split; [| reflexivity].
  unfold table_name_from_endpoint, table_name_chars. do 2 f_equal.
  pose proof (@endpoint_loop (Py.chars endpoint) (Py.chars endpoint) [] []
                             eq_refl) as Hloop.
  simpl in Hloop. rewrite Hloop. clear Hloop.
  unfold snake_words.
  destruct (Py.chars endpoint) as [| ch tl]; [reflexivity|].
  simpl. rewrite map_app. simpl. rewrite loop_output_boundaries.
  destruct (Py.isupper ch) eqn:U; simpl; [| reflexivity].
  destruct (starts_in Py.islower tl); simpl; [| reflexivity].
  destruct (upper_lower_plain ch U) as [Hu Hh].
  unfold Py.strip. simpl. rewrite Hh, Hu. reflexivity.
Qed.

(** ** Orphan namespaces *)

Lemma str_in_cons (x y : string) (l : list string) :
  str_in x (y :: l) = String.eqb x y || str_in x l.
Proof. reflexivity. Qed.

Lemma str_in_In (x : string) (l : list string) :
  str_in x l = true <-> In x l.
Proof.
  unfold str_in. rewrite existsb_exists. split.
  - intros [y [Hin Heq]]. apply String.eqb_eq in Heq. now subst.
  - intros Hin. exists x. split; [exact Hin | apply String.eqb_refl].
Qed.

Lemma str_in_set_add (x y : string) (s : list string) :
  str_in x (set_add y s) = String.eqb x y || str_in x s.
Proof.
  unfold set_add. destruct (str_in y s) eqn:E; [| reflexivity].
  destruct (String.eqb x y) eqn:Exy; [| reflexivity].
  apply String.eqb_eq in Exy. subst. now rewrite E.
Qed.

Lemma str_in_set_update (x : string) (xs s : list string) :
  str_in x (set_update s xs) = str_in x s || str_in x xs.
Proof.
  unfold set_update. revert s.
  induction xs as [| y tl IH]; intros s; simpl.
  - now rewrite orb_false_r.
  - rewrite IH, str_in_set_add.
    destruct (String.eqb x y), (str_in x s), (str_in x tl); reflexivity.
Qed.

Lemma str_in_keep_set (keep_schemas : list string) (n : string) :
  str_in n (keep_set keep_schemas) = kept keep_schemas n.
Proof.
  unfold keep_set.
  change (fold_left (fun acc s => set_add s acc) ?xs [])
    with (set_update [] xs).
  rewrite str_in_set_update. simpl.
  unfold kept. induction keep_schemas as [| s tl IH]; simpl; [reflexivity|].
  destruct (nonempty s && nonempty (py_strip s)); simpl; now rewrite IH.
Qed.

Lemma filter_all {X} (l : list X) : filter (fun _ => true) l = l.
Proof. induction l as [| x tl IH]; simpl; [|rewrite IH]; reflexivity. Qed.

Lemma filter_twice {X} (f g : X -> bool) (l : list X) :
  filter f (filter g l) = filter (fun x => g x && f x) l.
Proof.
  induction l as [| x tl IH]; simpl; [reflexivity|].
  destruct (g x); simpl; [destruct (f x)|]; now rewrite IH.
Qed.

Lemma before_refusal_In (refuses : stmt -> bool) (l : list string)
      (n : string) :
  In n (before_refusal refuses l) -> In n l.
Proof.
  induction l as [| s tl IH]; simpl; [tauto|].
  destruct (refused_drop refuses s); simpl; [tauto|].
  intros [-> | H]; [now left | right; now apply IH].
Qed.

Lemma before_refusal_all (refuses : stmt -> bool) (l : list string) :
  existsb (refused_drop refuses) l = false -> before_refusal refuses l = l.
Proof.
  induction l as [| s tl IH]; simpl; [reflexivity|].
  destruct (refused_drop refuses s); simpl; [discriminate|].
  intros H. now rewrite IH.
Qed.

Lemma before_refusal_stop (refuses : stmt -> bool) (l1 l2 : list string)
      (s : string) :
  existsb (refused_drop refuses) l1 = false ->
  refused_drop refuses s = true ->
  before_refusal refuses (l1 ++ s :: l2) = l1.
Proof.
  intros H1 Hs. induction l1 as [| x tl IH]; simpl in *.
  - now rewrite Hs.
  - destruct (refused_drop refuses x); [discriminate|].
    simpl in H1. now rewrite IH.
Qed.

Section OrphanFacts.

Variable refuses : stmt -> bool.

Local Abbreviation refused := (refused_drop refuses).

Lemma drop_orphan_skip (keep : list string) (removed : nat) (s : string)
      (c : conn) :
  candidate keep s = false -> drop_orphan refuses keep removed s c = Done c removed.
Proof.
  unfold drop_orphan, candidate.
  destruct (str_in s keep); [reflexivity|].
  destruct (str_in s protected); [reflexivity | discriminate].
Qed.

(** A turn whose statement raises: the exception is caught and logged, the
    catalogue is as before and the transaction is aborted. *)
Lemma drop_orphan_caught (keep : list string) (removed : nat) (s : string)
      (c : conn) :
  candidate keep s = true ->
  aborted c = true \/ refused s = true ->
  exists c1,
    drop_orphan refuses keep removed s c = Done c1 removed
    /\ current (store c1) = current (store c)
    /\ committed (store c1) = committed (store c)
    /\ aborted c1 = true.
Proof.
  unfold drop_orphan, candidate, refused_drop.
  destruct (str_in s keep); [discriminate|].
  destruct (str_in s protected); [discriminate|]. intros _ Hwhy.
  unfold t_try, t_bind, execute_tx.
  destruct (aborted c) eqn:Ha.
  - eexists. cbn. rewrite Ha. repeat split.
  - destruct Hwhy as [Hwhy | Hwhy]; [discriminate|].
    unfold execute. rewrite Hwhy. eexists. cbn. repeat split.
Qed.

(** A turn whose statement goes through: the namespace is dropped and the
    drop committed. *)
Lemma drop_orphan_dropped (keep : list string) (removed : nat) (s : string)
      (c : conn) :
  candidate keep s = true ->
  aborted c = false -> refused s = false ->
  exists c1,
    drop_orphan refuses keep removed s c = Done c1 (removed + 1)
    /\ current (store c1)
       = fst (run_stmt (DropSchemaIfExistsCascade s) (current (store c)))
    /\ committed (store c1) = current (store c1)
    /\ aborted c1 = false.
Proof.
  unfold drop_orphan, candidate, refused_drop.
  destruct (str_in s keep); [discriminate|].
  destruct (str_in s protected); [discriminate|]. intros _ Ha Hs.
  unfold t_try, t_bind, execute_tx, execute. rewrite Ha, Hs.
  eexists. cbn. repeat split.
Qed.

(** On an aborted transaction the loop drops nothing. *)
Lemma drop_orphan_loop_aborted (keep existing : list string) :
  forall (c : conn) (removed : nat),
    aborted c = true ->
    exists c',
      t_for_fold (drop_orphan refuses keep) existing removed c = Done c' removed
      /\ current (store c') = current (store c)
      /\ committed (store c') = committed (store c)
      /\ aborted c' = true.
Proof.
  induction existing as [| s tl IH]; intros c removed Ha.
  - exists c. now repeat split.
  - cbn [t_for_fold]. unfold t_bind.
    destruct (candidate keep s) eqn:Hc.
    + destruct (@drop_orphan_caught keep removed s c Hc (or_introl Ha))
        as [c1 [Hstep [Hcur [Hcom Ha1]]]].
      rewrite Hstep.
      destruct (IH c1 removed Ha1) as [c' [Hrun [Hcur' [Hcom' Ha']]]].
      exists c'. rewrite Hrun. repeat split; congruence.
    + rewrite drop_orphan_skip by exact Hc. now apply IH.
Qed.

Lemma drop_orphan_loop (keep existing : list string) :
  forall (c : conn) (removed : nat),
    aborted c = false ->
    let tried := filter (candidate keep) existing in
    let gone := before_refusal refuses tried in
    exists c',
      t_for_fold (drop_orphan refuses keep) existing removed c
      = Done c' (removed + List.length gone)
      /\ namespaces (current (store c'))
         = filter (fun n => negb (str_in n gone))
                  (namespaces (current (store c)))
      /\ tables (current (store c'))
         = filter (fun kt => negb (str_in (fst (fst kt)) gone))
                  (tables (current (store c)))
      /\ aborted c' = existsb refused tried
      /\ (gone = [] -> committed (store c') = committed (store c))
      /\ (gone <> [] -> committed (store c') = current (store c')).
Proof.
  induction existing as [| s tl IH]; intros c removed Ha.
  - exists c. simpl. rewrite Nat.add_0_r, !filter_all.
    repeat split; congruence.
  - cbn [t_for_fold filter]. unfold t_bind.
    destruct (candidate keep s) eqn:Hc.
    + cbn [before_refusal existsb].
      destruct (refused s) eqn:Hs.
      * destruct (@drop_orphan_caught keep removed s c Hc (or_intror Hs))
          as [c1 [Hstep [Hcur [Hcom Ha1]]]].
        rewrite Hstep.
        destruct (drop_orphan_loop_aborted keep tl c1 removed Ha1)
          as [c' [Hrun [Hcur' [Hcom' Ha']]]].
        exists c'. rewrite Hrun, Hcur', Hcur. cbn [str_in existsb negb orb].
        rewrite !filter_all, Nat.add_0_r.
        repeat split; congruence.
      * destruct (@drop_orphan_dropped keep removed s c Hc Ha Hs)
          as [c1 [Hstep [Hcur [Hcom Ha1]]]].
        rewrite Hstep.
        destruct (IH c1 (removed + 1) Ha1)
          as [c' [Hrun [Hns [Hts [Hab [Hnone Hsome]]]]]].
        exists c'. rewrite Hcur in Hns, Hts.
        cbn [run_stmt fst namespaces tables] in Hns, Hts.
        split; [rewrite Hrun; f_equal; cbn [List.length]; lia|].
        split; [rewrite Hns, filter_twice; apply filter_ext; intros n;
                rewrite str_in_cons, (String.eqb_sym n s);
                now destruct (String.eqb s n)|].
        split; [rewrite Hts, filter_twice; apply filter_ext; intros kt;
                rewrite str_in_cons, (String.eqb_sym (fst (fst kt)) s);
                now destruct (String.eqb s (fst (fst kt)))|].
        split; [exact Hab|].
        split; [discriminate|].
        intros _.
        destruct (before_refusal refuses (filter (candidate keep) tl)) eqn:F.
        -- rewrite Hnone by reflexivity. rewrite Hcom.
           destruct c' as [[cm [ns ts] lg] ab].
           cbn [store current namespaces tables] in *.
           rewrite Hns, Hts, Hcur. cbn [run_stmt fst str_in existsb negb].
           rewrite !filter_all. reflexivity.
        -- apply Hsome. discriminate.
    + rewrite drop_orphan_skip by exact Hc. now apply IH.
Qed.

Lemma candidate_is_orphan (keep_schemas : list string) (n : string) :
  listed_namespace n
  && candidate (set_update (keep_set keep_schemas) protected) n
  = is_orphan keep_schemas n.
Proof.
  unfold candidate, is_orphan.
  rewrite str_in_set_update, str_in_keep_set.
  now destruct (kept keep_schemas n), (str_in n protected),
    (listed_namespace n).
Qed.

(** The whole call on a connection whose transaction is not aborted and
    whose listing is answered. *)
Lemma drop_orphan_schemas_run (keep_schemas : list string) (c : conn) :
  aborted c = false ->
  refuses SelectNamespaces = false ->
  let tried := orphans keep_schemas (current (store c)) in
  let gone := before_refusal refuses tried in
  exists c',
    drop_orphan_schemas refuses keep_schemas c = Done c' (List.length gone)
    /\ namespaces (current (store c'))
       = filter (fun n => negb (str_in n gone))
                (namespaces (current (store c)))
    /\ tables (current (store c'))
       = filter (fun kt => negb (str_in (fst (fst kt)) gone))
                (tables (current (store c)))
    /\ aborted c' = existsb refused tried
    /\ (gone = [] -> committed (store c') = committed (store c))
    /\ (gone <> [] -> committed (store c') = current (store c')).
Proof.
  intros Ha Hlist tried gone.
  set (keep := set_update (keep_set keep_schemas) protected).
  set (existing := filter listed_namespace (namespaces (current (store c)))).
  assert (Hf : filter (candidate keep) existing = tried).
  { unfold existing, tried, orphans. rewrite filter_twice.
    apply filter_ext. intros n. apply candidate_is_orphan. }
  set (c0 := mkConn (mkWorld (committed (store c)) (current (store c))
                             (log (store c))) false).
  assert (Hrun : drop_orphan_schemas refuses keep_schemas c
                 = t_for_fold (drop_orphan refuses keep) existing 0 c0).
  { unfold drop_orphan_schemas, t_bind, execute_tx, execute.
    rewrite Ha, Hlist. cbn [run_stmt]. fold keep.
    rewrite map_map. cbn [row0 nth]. rewrite map_id. reflexivity. }
  destruct (drop_orphan_loop keep existing c0 0 eq_refl)
    as [c' [Hloop H]].
  rewrite Hf in Hloop, H. exists c'. split; [now rewrite Hrun, Hloop|].
  exact H.
Qed.

(** A call that returns found the transaction open and had its listing
    answered; on an aborted transaction the call raises at the listing. *)
Lemma drop_orphan_schemas_returned (keep_schemas : list string)
      (c c' : conn) (n : nat) :
  drop_orphan_schemas refuses keep_schemas c = Done c' n ->
  aborted c = false /\ refuses SelectNamespaces = false.
Proof.
  unfold drop_orphan_schemas, t_bind, execute_tx, execute.
  destruct (aborted c); [discriminate|].
  destruct (refuses SelectNamespaces); [discriminate|]. now split.
Qed.

(** C6. On a connection whose transaction is open and whose listing is
    answered, [drop_orphan_schemas] drops the orphans (the namespaces the
    listing names that are neither kept nor in the fixed set) in the order
    of the listing up to the first one whose drop the store refuses, and
    returns their number.  When no drop is refused these are all the
    orphans.  A refused drop is caught, but it leaves the transaction
    aborted: no orphan after it is dropped, whether the store would accept
    its drop or not.  A namespace that is kept, in the fixed set or left out
    by the listing is never dropped. *)
Theorem drop_orphan_schemas_stops_at_refusal
        (keep_schemas : list string) (c : conn)
        (Hopen : aborted c = false)
        (Hlist : refuses SelectNamespaces = false) :
  let tried := orphans keep_schemas (current (store c)) in
  let gone := before_refusal refuses tried in
  exists c',
    drop_orphan_schemas refuses keep_schemas c = Done c' (List.length gone)
    /\ namespaces (current (store c'))
       = filter (fun n => negb (str_in n gone))
                (namespaces (current (store c)))
    /\ aborted c' = existsb refused tried
    /\ (existsb refused tried = false -> gone = tried)
    /\ (forall l1 s l2,
          tried = l1 ++ s :: l2 ->
          existsb refused l1 = false -> refused s = true ->
          gone = l1
          /\ forall n, In n (s :: l2) -> ~ In n l1 ->
                       In n (namespaces (current (store c'))))
    /\ (forall n, In n (namespaces (current (store c))) ->
                  is_orphan keep_schemas n = false ->
                  In n (namespaces (current (store c'))))
    /\ (gone <> [] -> committed (store c') = current (store c')).
Proof.
  intros tried gone.
  destruct (drop_orphan_schemas_run keep_schemas c Hopen Hlist)
    as [c' [Hrun [Hns [_ [Hab [_ Hcom]]]]]].
  fold tried in Hrun, Hns, Hab, Hcom. fold gone in Hrun, Hns, Hcom.
  exists c'. split; [exact Hrun|]. split; [exact Hns|].
  split; [exact Hab|].
  split; [apply before_refusal_all|].
  split; [|split; [|exact Hcom]].
  - intros l1 s l2 Htried Hl1 Hs.
    assert (Hgone : gone = l1)
      by (unfold gone; rewrite Htried; now apply before_refusal_stop).
    split; [exact Hgone|].
    intros n Hn Hnot. rewrite Hns, Hgone. apply filter_In. split.
    + assert (Hin : In n tried)
        by (rewrite Htried; apply in_or_app; now right).
      unfold tried, orphans in Hin. now apply filter_In in Hin.
    + destruct (str_in n l1) eqn:E; [|reflexivity].
      apply str_in_In in E. contradiction.
  - intros n Hin Hno. rewrite Hns. apply filter_In. split; [exact Hin|].
    destruct (str_in n gone) eqn:E; [|reflexivity].
    apply str_in_In, before_refusal_In in E.
    unfold tried, orphans in E. apply filter_In in E. destruct E as [_ E].
    congruence.
Qed.

End OrphanFacts.

(** The store refuses the drop of [old]; the drop of [gone], which the store
    would accept, is then not made: the call returns 0 and both namespaces
    are still there. *)
Lemma drop_orphan_schemas_stops_at_refusal_witness :
  exists c',
    drop_orphan_schemas refuse_drop_old [" acme "; ""]%string demo_conn
    = Done c' 0
    /\ namespaces (current (store c'))
       = ["pg_catalog"; "public"; "information_schema"; "acme"; "old";
          "gone"]%string
    /\ aborted c' = true.
Proof.
  destruct (@drop_orphan_schemas_stops_at_refusal
              refuse_drop_old [" acme "; ""]%string demo_conn
              eq_refl eq_refl)
    as [c' [Hrun [Hns [Hab _]]]].
  exists c'. split; [exact Hrun|]. split; [exact Hns | exact Hab].
Defined.

(** The listing leaves out every name that begins with [pg] and has a third
    character, whatever that character is: [pgx] is never dropped, although
    it is neither kept nor in the fixed set. *)
Example drop_orphan_schemas_leaves_pgx :
  exists c',
    drop_orphan_schemas accept_all []
      (mkConn (mkWorld (mkCatalogue ["pgx"; "old"]%string [])
                       (mkCatalogue ["pgx"; "old"]%string []) []) false)
    = Done c' 1
    /\ namespaces (current (store c')) = ["pgx"]%string.
Proof. eexists. vm_compute. split; reflexivity. Qed.

(** ** Reasoning about computations on the connection *)

Lemma triple_ret {A} (P : world -> Prop) (a : A)
      (Q : world -> A -> Prop) (R : world -> Prop) :
  (forall w, P w -> Q w a) -> triple P (ret a) Q R.
Proof. intros H w Hw. now apply H. Qed.

Lemma triple_raise {A} (P : world -> Prop) (e : string)
      (Q : world -> A -> Prop) (R : world -> Prop) :
  (forall w, P w -> R w) -> triple P (raise e) Q R.
Proof. intros H w Hw. now apply H. Qed.

Lemma triple_bind {A B} (P : world -> Prop) (m : M A) (k : A -> M B)
      (Q1 : world -> A -> Prop) (Q : world -> B -> Prop) (R : world -> Prop) :
  triple P m Q1 R ->
  (forall a, triple (fun w => Q1 w a) (k a) Q R) ->
  triple P (bind m k) Q R.
Proof.
  intros Hm Hk w Hw. unfold bind. specialize (Hm w Hw).
  destruct (m w) as [w' a | w' e]; [now apply (Hk a) | exact Hm].
Qed.

Lemma triple_conseq {A} (P P' : world -> Prop) (m : M A)
      (Q Q' : world -> A -> Prop) (R R' : world -> Prop) :
  triple P' m Q' R' ->
  (forall w, P w -> P' w) ->
  (forall w a, Q' w a -> Q w a) ->
  (forall w, R' w -> R w) ->
  triple P m Q R.
Proof.
  intros Hm HP HQ HR w Hw. specialize (Hm w (HP w Hw)).
  destruct (m w); [now apply HQ | now apply HR].
Qed.

Lemma triple_pure {A} (F : Prop) (P : world -> Prop) (m : M A)
      (Q : world -> A -> Prop) (R : world -> Prop) :
  (F -> triple P m Q R) -> triple (fun w => F /\ P w) m Q R.
Proof. intros H w [HF Hw]. now apply H. Qed.

Lemma triple_if {A} (b : bool) (P : world -> Prop) (m1 m2 : M A)
      (Q : world -> A -> Prop) (R : world -> Prop) :
  (b = true -> triple P m1 Q R) ->
  (b = false -> triple P m2 Q R) ->
  triple P (if b then m1 else m2) Q R.
Proof. destruct b; auto. Qed.

Lemma triple_commit (P : world -> Prop) (Q : world -> unit -> Prop)
      (R : world -> Prop) :
  (forall w, P w -> Q (mkWorld (current w) (current w) (log w)) tt) ->
  triple P commit Q R.
Proof. intros H w Hw. now apply H. Qed.

(** The loop rule: the invariant speaks of the elements already done. *)
Lemma triple_for_fold {X A} (body : A -> X -> M A) (xs : list X)
      (I : list X -> A -> world -> Prop) (R : world -> Prop) :
  (forall done x rest acc,
      xs = done ++ x :: rest ->
      triple (I done acc) (body acc x)
             (fun w acc' => I (done ++ [x]) acc' w) R) ->
  forall acc0,
    triple (I [] acc0) (for_fold body xs acc0) (fun w acc => I xs acc w) R.
Proof.
  intros Hbody.
  assert (Hgen : forall rest done acc,
             xs = done ++ rest ->
             triple (I done acc) (for_fold body rest acc)
                    (fun w acc' => I xs acc' w) R).
  { induction rest as [| x tl IH]; intros done acc Hxs.
    - rewrite app_nil_r in Hxs. subst done.
      apply triple_ret. auto.
    - cbn [for_fold].
      apply triple_bind with (Q1 := fun w acc' => I (done ++ [x]) acc' w).
      + now apply Hbody with (rest := tl).
      + intros acc'. apply IH. now rewrite <- app_assoc. }
  intros acc0. now apply Hgen.
Qed.

Section ExecuteFacts.

Variable refuses : stmt -> bool.

Lemma triple_execute (q : stmt) (P : world -> Prop)
      (Q : world -> list (list string) -> Prop) (R : world -> Prop) :
  (forall w, P w -> refuses q = true -> R w) ->
  (forall w, P w -> refuses q = false ->
             Q (mkWorld (committed w) (fst (run_stmt q (current w))) (log w))
               (snd (run_stmt q (current w)))) ->
  triple P (execute refuses q) Q R.
Proof.
  intros HR HQ w Hw. unfold execute.
  specialize (HR w Hw). specialize (HQ w Hw).
  destruct (refuses q); [now apply HR|].
  specialize (HQ eq_refl). now destruct (run_stmt q (current w)).
Qed.

(** A statement followed by [commit], as the schema functions do. *)
Lemma triple_execute_commit (q : stmt) (P : world -> Prop)
      (Q : world -> unit -> Prop) (R : world -> Prop) :
  (forall w, P w -> refuses q = true -> R w) ->
  (forall w, P w -> refuses q = false ->
             Q (mkWorld (fst (run_stmt q (current w)))
                        (fst (run_stmt q (current w))) (log w)) tt) ->
  triple P (bind (execute refuses q) (fun _ => commit)) Q R.
Proof.
  intros HR HQ.
  apply triple_bind
    with (Q1 := fun w' _ =>
                  exists w, P w /\ refuses q = false
                            /\ w' = mkWorld (committed w)
                                            (fst (run_stmt q (current w)))
                                            (log w)).
  - apply triple_execute; [exact HR|]. intros w Hw E. now exists w.
  - intros _. apply triple_commit.
    intros w' [w [Hw [E ->]]]. cbn [current log]. now apply HQ.
Qed.

End ExecuteFacts.

(** ** Tables of a catalogue *)

Lemma same_table_refl (schema tbl : string) :
  same_table schema tbl (schema, tbl) = true.
Proof. unfold same_table. simpl. now rewrite !String.eqb_refl. Qed.

Lemma find_table_change (schema tbl : string) (f : table -> table)
      (ts : list ((string * string) * table)) :
  find_table schema tbl (change_table schema tbl f ts)
  = option_map f (find_table schema tbl ts).
Proof.
  induction ts as [| [k t] tl IH]; simpl; [reflexivity|].
  destruct (same_table schema tbl k) eqn:E; simpl; rewrite E;
    [reflexivity | exact IH].
Qed.

Lemma find_table_remove (schema tbl : string)
      (ts : list ((string * string) * table)) :
  find_table schema tbl (remove_table schema tbl ts) = None.
Proof.
  unfold remove_table.
  induction ts as [| [k t] tl IH]; simpl; [reflexivity|].
  destruct (same_table schema tbl k) eqn:E; simpl; [exact IH|].
  now rewrite E.
Qed.

Lemma find_table_app_new (schema tbl : string) (t : table)
      (ts : list ((string * string) * table)) :
  find_table schema tbl ts = None ->
  find_table schema tbl (ts ++ [((schema, tbl), t)]) = Some t.
Proof.
  induction ts as [| [k t'] tl IH]; simpl.
  - now rewrite same_table_refl.
  - destruct (same_table schema tbl k); [discriminate | exact IH].
Qed.

(** ** Columns *)

Lemma dict_mem_set {V} (c k : string) (v : V) (d : dict V) :
  dict_mem c (dict_set k v d) = String.eqb c k || dict_mem c d.
Proof.
  unfold dict_mem.
  destruct (String.eqb c k) eqn:E.
  - apply String.eqb_eq in E. subst. now rewrite dict_get_set_same.
  - apply String.eqb_neq in E. now rewrite dict_get_set_other.
Qed.

Lemma dict_get_app {V} (c : string) (d d' : dict V) :
  dict_get c (d ++ d')
  = match dict_get c d with Some v => Some v | None => dict_get c d' end.
Proof.
  induction d as [| [k v] tl IH]; simpl; [reflexivity|].
  destruct (String.eqb c k); [reflexivity | exact IH].
Qed.

Lemma dict_mem_cons {V} (c k : string) (v : V) (d : dict V) :
  dict_mem c ((k, v) :: d) = String.eqb c k || dict_mem c d.
Proof. unfold dict_mem. simpl. now destruct (String.eqb c k). Qed.

Lemma existing_columns_mem (c : string) (cols : dict string) :
  forall d0,
    dict_mem c
      (fold_left (fun d r => dict_set (row0 r) (row1 r) d)
                 (map (fun cv => [fst cv; udt_name (snd cv)]) cols) d0)
    = dict_mem c d0 || dict_mem c cols.
Proof.
  induction cols as [| [k v] tl IH]; intros d0; simpl.
  - now rewrite orb_false_r.
  - rewrite IH. cbn [row0 row1 nth fst snd].
    rewrite dict_mem_set, dict_mem_cons.
    now destruct (String.eqb c k), (dict_mem c d0), (dict_mem c tl).
Qed.

Lemma col_types_get (rows : list (dict json)) (c : string) :
  In c (all_cols_of rows) ->
  dict_get c (col_types_of rows) = Some (or_text (resolve_col c rows)).
Proof.
  unfold col_types_of. induction (all_cols_of rows) as [| c' tl IH]; simpl.
  - intros [].
  - intros [-> | Hin].
    + now rewrite String.eqb_refl.
    + destruct (String.eqb c c') eqn:E; [| now apply IH].
      apply String.eqb_eq in E. now subst.
Qed.

(** ** Chunks *)

Lemma firstn_plus {X} (a b : nat) (l : list X) :
  firstn (a + b) l = firstn a l ++ firstn b (skipn a l).
Proof.
  revert l. induction a as [| a IH]; intros l; simpl; [reflexivity|].
  destruct l as [| x tl]; simpl.
  - now rewrite firstn_nil.
  - now rewrite IH.
Qed.

Lemma chunks_prefix (rows : list (dict json)) (bs m : nat) :
  List.concat (map (chunk_at rows bs) (map (fun k => k * bs) (seq 0 m)))
  = firstn (m * bs) rows.
Proof.
  induction m as [| m IH]; [reflexivity|].
  rewrite seq_S, !map_app, concat_app, IH. simpl.
  rewrite app_nil_r. unfold chunk_at, slice.
  replace (m * bs + bs - m * bs) with bs by lia.
  rewrite <- firstn_plus. f_equal. lia.
Qed.

Lemma chunks_cover (rows : list (dict json)) (bs : nat) :
  0 < bs ->
  List.concat (map (chunk_at rows bs) (range_step (List.length rows) bs))
  = rows.
Proof.
  intros Hbs. unfold range_step. rewrite chunks_prefix.
  apply firstn_all2.
  pose proof (Nat.div_mod_eq (List.length rows + bs - 1) bs) as Hdm.
  pose proof (Nat.mod_upper_bound (List.length rows + bs - 1) bs) as Hub.
  nia.
Qed.

(** ** The batch loader *)

Lemma create_schema_tables (schema : string) (db : catalogue) :
  tables (fst (run_stmt (CreateSchemaIfNotExists schema) db)) = tables db.
Proof. simpl. now destruct (str_in schema (namespaces db)). Qed.

Lemma create_table_find (schema tbl : string) (db : catalogue) :
  find_table schema tbl
    (tables (fst (run_stmt (CreateBaseTableIfNotExists schema tbl) db)))
  = Some match find_table schema tbl (tables db) with
         | Some t => t
         | None => base_table
         end.
Proof.
  simpl. destruct (find_table schema tbl (tables db)) eqn:E; [exact E|].
  simpl. now apply find_table_app_new.
Qed.

Lemma insert_rows_batch_nonempty (refuses : stmt -> bool)
      (json_dumps : json -> string) (schema tbl endpoint : string)
      (rows : list (dict json)) (batch_size : Z) (recreate : bool) :
  rows <> [] ->
  insert_rows_batch refuses json_dumps schema tbl endpoint rows batch_size
                    recreate
  = bind (ensure_schema refuses schema) (fun _ =>
    bind (if recreate then drop_table_if_exists refuses schema tbl
          else ret tt) (fun _ =>
    bind (ensure_table_base refuses schema tbl) (fun _ =>
    bind (get_existing_columns refuses schema tbl) (fun existing =>
    bind (for_each (add_missing refuses schema tbl existing
                                (col_types_of rows))
                   (all_cols_of rows)) (fun _ =>
    bind (insert_chunks refuses json_dumps schema tbl endpoint
                        (all_cols_of rows) rows batch_size) (fun total =>
    bind commit (fun _ => ret total))))))).
Proof. destruct rows; [congruence | reflexivity]. Qed.

Section LoaderFacts.

Variable refuses : stmt -> bool.
Variable json_dumps : json -> string.
Variables schema tbl endpoint : string.
Variable rows : list (dict json).
Variable batch_size : Z.
Variable recreate : bool.
Variable w0 : world.

Local Abbreviation find w := (find_table schema tbl (tables (current w))).
Local Abbreviation t0 := (prepared_table schema tbl recreate w0).
Local Abbreviation all_cols := (all_cols_of rows).
Local Abbreviation raised_post :=
  (raised_post refuses schema tbl rows batch_size recreate w0).
Local Abbreviation returned_post :=
  (returned_post refuses json_dumps schema tbl endpoint rows batch_size
                 recreate w0).
Local Abbreviation add_invariant :=
  (add_invariant refuses schema tbl rows recreate w0).
Local Abbreviation insert_invariant :=
  (insert_invariant refuses json_dumps schema tbl endpoint rows recreate w0).


Lemma raised_from_clean (w : world) (q : stmt) :
  clean w ->
  (table_rows schema tbl (current w) = t_rows t0
   \/ table_rows schema tbl (current w) = table_rows schema tbl (current w0)) ->
  refuses q = true ->
  raised_post w.
Proof.
  intros Hc Hrows Hq. unfold raised_post. rewrite Hc.
  split; [tauto|]. split; [tauto|]. left. now exists q.
Qed.

Lemma prepared_rows :
  t_rows t0 = if recreate then [] else table_rows schema tbl (current w0).
Proof.
  unfold prepared_table, table_rows.
  destruct recreate; [reflexivity|]. now destruct (find w0).
Qed.

Lemma ensure_schema_triple :
  triple (fun w => w = w0)
         (ensure_schema refuses schema)
         (fun w _ => clean w /\ find w = find w0)
         raised_post.
Proof.
  apply triple_execute_commit.
  - intros w -> Hq. split; [tauto|]. split; [tauto|]. left. eauto.
  - intros w -> _. split; [reflexivity|]. cbn [current].
    now rewrite create_schema_tables.
Qed.

Lemma maybe_drop_triple :
  triple (fun w => clean w /\ find w = find w0)
         (if recreate then drop_table_if_exists refuses schema tbl
          else ret tt)
         (fun w _ => clean w /\ find w = if recreate then None else find w0)
         raised_post.
Proof.
  apply triple_if; intros E.
  - apply triple_execute_commit.
    + intros w [Hc Hf] Hq. refine (raised_from_clean Hc _ Hq).
      right. unfold table_rows. now rewrite Hf.
    + intros w _ _. split; [reflexivity|]. rewrite E.
      cbn [current run_stmt fst tables]. apply find_table_remove.
  - apply triple_ret. rewrite E. tauto.
Qed.

Lemma ensure_table_base_triple :
  triple (fun w => clean w /\ find w = if recreate then None else find w0)
         (ensure_table_base refuses schema tbl)
         (fun w _ => clean w /\ find w = Some t0)
         raised_post.
Proof.
  apply triple_execute_commit.
  - intros w [Hc Hf] Hq. refine (raised_from_clean Hc _ Hq).
    rewrite prepared_rows. unfold table_rows. rewrite Hf.
    destruct recreate; [now left | now right].
  - intros w [Hc Hf] _. split; [reflexivity|]. cbn [current].
    rewrite create_table_find, Hf. unfold prepared_table.
    now destruct recreate.
Qed.

Lemma get_existing_columns_triple :
  triple (fun w => clean w /\ find w = Some t0)
         (get_existing_columns refuses schema tbl)
         (fun w existing =>
            (clean w /\ find w = Some t0)
            /\ forall c, dict_mem c existing = dict_mem c (t_columns t0))
         raised_post.
Proof.
  unfold get_existing_columns.
  apply triple_bind
    with (Q1 := fun w rs =>
                  (clean w /\ find w = Some t0)
                  /\ rs = map (fun cv => [fst cv; udt_name (snd cv)])
                              (t_columns t0)).
  - apply triple_execute.
    + intros w [Hc Hf] Hq. refine (raised_from_clean Hc _ Hq).
      left. unfold table_rows. now rewrite Hf.
    + intros w [Hc Hf] _. cbn [run_stmt fst snd]. rewrite Hf.
      destruct w. now repeat split.
  - intros rs. apply triple_ret. intros w [Hw ->]. split; [exact Hw|].
    intros c. now rewrite existing_columns_mem.
Qed.


Lemma add_invariant_start (w : world) :
  clean w /\ find w = Some t0 -> add_invariant [] w.
Proof.
  intros [Hc Hf]. split; [exact Hc|]. exists t0.
  repeat split; try assumption; try tauto.
  - intros c [].
  - intros c [].
Qed.

Lemma add_missing_triple (existing : dict string) (done : list string)
      (c : string) :
  (forall c, dict_mem c existing = dict_mem c (t_columns t0)) ->
  In c all_cols ->
  triple (add_invariant done)
         (add_missing refuses schema tbl existing (col_types_of rows) c)
         (fun w _ => add_invariant (done ++ [c]) w)
         raised_post.
Proof.
  intros Hex Hin. unfold add_missing. rewrite Hex.
  destruct (dict_mem c (t_columns t0)) eqn:M0.
  - apply triple_ret.
    intros w [Hc [t [Hf [Hr [[Hold Hnew] [Hsub Hacc]]]]]].
    split; [exact Hc|]. exists t. repeat split; try assumption.
    + intros c1 H1 N1. apply in_app_or in H1.
      destruct H1 as [H1 | [<- | []]]; [now apply Hnew | congruence].
    + intros c1 H1. destruct (Hsub c1 H1); [now left|].
      right. apply in_or_app. now left.
    + intros c1 H1. apply in_app_or in H1.
      destruct H1 as [H1 | [<- | []]]; [now apply Hacc | now left].
  - rewrite (col_types_get rows c Hin). fold (column_type rows c).
    apply triple_execute_commit.
    + intros w [Hc [t [Hf [Hr _]]]] Hq. refine (raised_from_clean Hc _ Hq).
      left. unfold table_rows. now rewrite Hf.
    + intros w [Hc [t [Hf [Hr [[Hold Hnew] [Hsub Hacc]]]]]] Hq.
      split; [reflexivity|]. cbn [current run_stmt fst tables].
      rewrite find_table_change, Hf. cbn [option_map].
      eexists; split; [reflexivity|].
      destruct (dict_mem c (t_columns t)) eqn:M.
      * destruct (Hsub c M) as [H | H]; [congruence|].
        split; [exact Hr|]. split; [split|split].
        -- exact Hold.
        -- intros c1 H1 N1. apply in_app_or in H1.
           destruct H1 as [H1 | [<- | []]]; now apply Hnew.
        -- intros c1 H1. destruct (Hsub c1 H1); [now left|].
           right. apply in_or_app. now left.
        -- intros c1 H1. apply in_app_or in H1.
           destruct H1 as [H1 | [<- | []]]; [now apply Hacc | now right].
      * cbn [t_rows t_columns].
        split; [exact Hr|]. split; [split|split].
        -- intros c1 x H1. cbn [t_columns]. rewrite dict_get_app.
           now rewrite (Hold c1 x H1).
        -- intros c1 H1 N1. cbn [t_columns]. rewrite dict_get_app.
           apply in_app_or in H1.
           destruct H1 as [H1 | [<- | []]].
           ++ now rewrite (Hnew c1 H1 N1).
           ++ unfold dict_mem in M.
              destruct (dict_get c (t_columns t)); [discriminate|].
              simpl. now rewrite String.eqb_refl.
        -- intros c1 H1. cbn [t_columns] in H1.
           unfold dict_mem in H1. rewrite dict_get_app in H1.
           destruct (dict_get c1 (t_columns t)) eqn:G.
           ++ destruct (Hsub c1) as [H | H];
                [unfold dict_mem; now rewrite G | now left |].
              right. apply in_or_app. now left.
           ++ simpl in H1. destruct (String.eqb c1 c) eqn:E; [|discriminate].
              apply String.eqb_eq in E. subst c1.
              right. apply in_or_app. right. now left.
        -- intros c1 H1. apply in_app_or in H1.
           destruct H1 as [H1 | [<- | []]]; [now apply Hacc | now right].
Qed.

Lemma add_columns_triple (existing : dict string) :
  (forall c, dict_mem c existing = dict_mem c (t_columns t0)) ->
  triple (add_invariant [])
         (for_each (add_missing refuses schema tbl existing (col_types_of rows))
                   all_cols)
         (fun w _ => add_invariant all_cols w)
         raised_post.
Proof.
  intros Hex. unfold for_each.
  apply (@triple_for_fold string unit
           (fun _ x => add_missing refuses schema tbl existing
                                   (col_types_of rows) x)
           all_cols (fun done _ w => add_invariant done w) raised_post).
  intros done c rest _ Hxs. apply add_missing_triple; [exact Hex|].
  rewrite Hxs. apply in_or_app. right. now left.
Qed.


Lemma insert_invariant_start (bs : nat) (w : world) :
  add_invariant all_cols w -> insert_invariant bs [] 0 w.
Proof.
  intros [Hc [t [Hf [Hr [Hcols [_ Hacc]]]]]].
  split; [rewrite Hc; unfold table_rows; now rewrite Hf|].
  exists t. simpl. rewrite app_nil_r.
  split; [exact Hf|]. split; [exact Hr|]. split; [exact Hcols|].
  split; [reflexivity | exact Hacc].
Qed.

Lemma insert_chunk_triple (bs : nat) (done : list nat) (total i : nat) :
  triple (insert_invariant bs done total)
         (insert_chunk refuses json_dumps schema tbl endpoint all_cols rows
                       bs total i)
         (fun w total' => insert_invariant bs (done ++ [i]) total' w)
         raised_post.
Proof.
  unfold insert_chunk.
  apply triple_bind
    with (Q1 := fun w (_ : list (list string)) =>
                  insert_invariant bs (done ++ [i]) (total + List.length (chunk_at rows bs i)) w).
  - apply triple_execute.
    + intros w [Hcm [t [Hf [Hr [Hcols [Ht Hacc]]]]]] Hq.
      split; [now left|]. split; [now left|]. left. eauto.
    + intros w [Hcm [t [Hf [Hr [Hcols [Ht Hacc]]]]]] _.
      split; [exact Hcm|]. cbn [current run_stmt fst tables].
      rewrite find_table_change, Hf. cbn [option_map].
      eexists. split; [reflexivity|]. cbn [t_rows t_columns].
      rewrite map_app, concat_app. cbn [map List.concat].
      rewrite app_nil_r. fold (chunk_at rows bs i).
      split; [|split; [exact Hcols|split; [|exact Hacc]]].
      * rewrite Hr, <- app_assoc. f_equal.
        unfold stored_rows. rewrite map_app, map_map. reflexivity.
      * rewrite length_app. now rewrite Ht.
  - intros _. apply triple_ret. tauto.
Qed.

Lemma insert_chunks_triple :
  triple (add_invariant all_cols)
         (insert_chunks refuses json_dumps schema tbl endpoint all_cols rows
                        batch_size)
         (fun w total =>
            table_rows schema tbl (committed w) = t_rows t0
            /\ exists t,
                find w = Some t
                /\ t_rows t
                   = t_rows t0
                     ++ stored_rows json_dumps endpoint all_cols
                                    (inserted_rows rows batch_size)
                /\ columns_reconciled rows t0 t all_cols
                /\ total = List.length (inserted_rows rows batch_size)
                /\ adds_accepted refuses schema tbl rows t0 all_cols)
         raised_post.
Proof.
  unfold insert_chunks.
  set (bs := Z.to_nat batch_size).
  apply triple_bind
    with (Q1 := fun w starts =>
                  (batch_size <> 0%Z
                   /\ starts = if (batch_size <? 0)%Z then []
                               else range_step (List.length rows) bs)
                  /\ insert_invariant bs [] 0 w).
  - unfold chunk_starts.
    destruct (batch_size =? 0)%Z eqn:E0.
    + apply triple_raise. intros w [Hc [t [Hf [Hr [_ [_ Hacc]]]]]].
      split; [left; rewrite Hc; unfold table_rows; now rewrite Hf|].
      split; [now left|]. right. now apply Z.eqb_eq.
    + apply Z.eqb_neq in E0.
      destruct (batch_size <? 0)%Z; apply triple_ret; intros w Hw;
        (split; [now split | now apply insert_invariant_start]).
  - intros starts. apply triple_pure. intros [Hne Hst].
    apply triple_conseq
      with (P' := insert_invariant bs [] 0)
           (Q' := fun w total => insert_invariant bs starts total w)
           (R' := raised_post); try tauto.
    + apply (@triple_for_fold nat nat
               (insert_chunk refuses json_dumps schema tbl endpoint all_cols
                             rows bs)
               starts (insert_invariant bs) raised_post).
      intros done i rest total _. apply insert_chunk_triple.
    + intros w total [Hcm [t [Hf [Hr [Hcols [Ht Hacc]]]]]].
      assert (Hins : List.concat (map (chunk_at rows bs) starts)
                     = inserted_rows rows batch_size).
      { unfold inserted_rows. rewrite Hst.
        destruct (batch_size <? 0)%Z eqn:Eneg.
        - apply Z.ltb_lt in Eneg.
          replace (0 <? batch_size)%Z with false; [reflexivity|].
          symmetry. apply Z.ltb_ge. lia.
        - apply Z.ltb_ge in Eneg.
          replace (0 <? batch_size)%Z with true
            by (symmetry; apply Z.ltb_lt; lia).
          apply chunks_cover. unfold bs. lia. }
      rewrite Hins in Hr, Ht.
      split; [exact Hcm|]. exists t.
      split; [exact Hf|]. split; [exact Hr|]. split; [exact Hcols|].
      split; [exact Ht | exact Hacc].
Qed.


Lemma insert_rows_batch_triple :
  rows <> [] ->
  triple (fun w => w = w0)
         (insert_rows_batch refuses json_dumps schema tbl endpoint rows
                            batch_size recreate)
         returned_post raised_post.
Proof.
  intros Hrows. rewrite insert_rows_batch_nonempty by exact Hrows.
  eapply triple_bind; [apply ensure_schema_triple|]. intros ?.
  eapply triple_bind; [apply maybe_drop_triple|]. intros ?.
  eapply triple_bind; [apply ensure_table_base_triple|]. intros ?.
  eapply triple_bind; [apply get_existing_columns_triple|]. intros existing.
  apply triple_bind with (Q1 := fun w (_ : unit) => add_invariant all_cols w).
  { intros w [Hw Hex]. apply (add_columns_triple existing Hex).
    now apply add_invariant_start. }
  intros ?.
  eapply triple_bind; [apply insert_chunks_triple|]. intros total.
  eapply triple_bind.
  - apply triple_commit
      with (Q := fun w (_ : unit) => returned_post w total).
    intros w [_ [t [Hf [Hr [Hcols [Ht Hacc]]]]]].
    split; [reflexivity|]. exists t. cbn [current].
    split; [exact Hf|]. split; [exact Hr|]. split; [exact Hcols|].
    split; [exact Ht | exact Hacc].
  - intros ?. apply triple_ret. intros w Hw. exact Hw.
Qed.

End LoaderFacts.

Section LoaderTheorems.

Variable refuses : stmt -> bool.
Variable json_dumps : json -> string.
Variables schema tbl endpoint : string.
Variable rows : list (dict json).

Lemma insert_chunks_commit_nothing (all_cols : list string) (batch_size : Z)
      (w : world) :
  triple (fun w1 => committed w1 = committed w)
         (insert_chunks refuses json_dumps schema tbl endpoint all_cols rows
                        batch_size)
         (fun w' _ => committed w' = committed w)
         (fun w' => committed w' = committed w).
Proof.
  unfold insert_chunks.
  apply triple_bind with (Q1 := fun w1 _ => committed w1 = committed w).
  - unfold chunk_starts.
    destruct (batch_size =? 0)%Z; [now apply triple_raise|].
    destruct (batch_size <? 0)%Z; now apply triple_ret.
  - intros starts.
    apply (@triple_for_fold nat nat
             (insert_chunk refuses json_dumps schema tbl endpoint all_cols
                           rows (Z.to_nat batch_size))
             starts (fun _ _ w1 => committed w1 = committed w)
             (fun w' => committed w' = committed w)).
    intros done i rest total _. unfold insert_chunk.
    apply triple_bind with (Q1 := fun w1 _ => committed w1 = committed w).
    + apply triple_execute; intros w1 H1 _; exact H1.
    + intros ?. now apply triple_ret.
Qed.

(** C3, amended.  The chunks of one call are inserted in one transaction,
    committed once after the last chunk.  The loop over the chunks commits
    nothing; when the call raises, the committed table holds no row of the
    call (it is empty, or as the transaction saw it before the call, or the
    committed catalogue is untouched); when the call returns, all its rows
    are committed together. *)
Theorem chunks_commit_together
        (batch_size : Z) (recreate : bool) (w : world)
        (Hrows : rows <> []) :
  (forall w1,
      match insert_chunks refuses json_dumps schema tbl endpoint
                          (all_cols_of rows) rows batch_size w1 with
      | Ok w' _ => committed w' = committed w1
      | Raised w' _ => committed w' = committed w1
      end)
  /\ (forall w' e,
         insert_rows_batch refuses json_dumps schema tbl endpoint rows
                           batch_size recreate w = Raised w' e ->
         table_rows schema tbl (committed w') = []
         \/ table_rows schema tbl (committed w')
            = table_rows schema tbl (current w)
         \/ committed w' = committed w)
  /\ (forall w' n,
         insert_rows_batch refuses json_dumps schema tbl endpoint rows
                           batch_size recreate w = Ok w' n ->
         table_rows schema tbl (committed w')
         = (if recreate then [] else table_rows schema tbl (current w))
           ++ stored_rows json_dumps endpoint (all_cols_of rows)
                          (inserted_rows rows batch_size)).
Proof.
  split; [|split].
  - intros w1.
    now apply (insert_chunks_commit_nothing (all_cols_of rows) batch_size w1).
  - intros w' e Hrun.
    pose proof (@insert_rows_batch_triple refuses json_dumps schema tbl
                  endpoint rows batch_size recreate w Hrows w eq_refl) as H.
    rewrite Hrun in H. destruct H as [[H | [H | H]] _]; try tauto.
    rewrite prepared_rows in H. destruct recreate; tauto.
  - intros w' n Hrun.
    pose proof (@insert_rows_batch_triple refuses json_dumps schema tbl
                  endpoint rows batch_size recreate w Hrows w eq_refl) as H.
    rewrite Hrun in H. destruct H as [Hc [t [Hf [Hr _]]]].
    rewrite Hc. unfold table_rows at 1. rewrite Hf, Hr.
    now rewrite prepared_rows.
Qed.

(** C8, amended.  When the call returns, every column of the batch is a
    column of the table, and a column the table lacked has its resolved
    type.  A refused [ALTER TABLE] is not isolated: it raises out of the
    call, which then inserts nothing. *)
Theorem missing_columns_added_or_call_raises
        (batch_size : Z) (recreate : bool) (w : world)
        (Hrows : rows <> []) :
  (forall w' n,
      insert_rows_batch refuses json_dumps schema tbl endpoint rows
                        batch_size recreate w = Ok w' n ->
      forall c, In c (all_cols_of rows) ->
        dict_mem c (table_columns schema tbl (committed w')) = true
        /\ (dict_mem c (t_columns (prepared_table schema tbl recreate w))
            = false ->
            dict_get c (table_columns schema tbl (committed w'))
            = Some (column_type rows c)))
  /\ (forall c,
         In c (all_cols_of rows) ->
         dict_mem c (t_columns (prepared_table schema tbl recreate w)) = false ->
         refuses (AddColumnIfNotExists schema tbl c (column_type rows c))
         = true ->
         exists w' e,
           insert_rows_batch refuses json_dumps schema tbl endpoint rows
                             batch_size recreate w = Raised w' e
           /\ (table_rows schema tbl (current w') = []
               \/ table_rows schema tbl (current w')
                  = table_rows schema tbl (current w))).
Proof.
  pose proof (@insert_rows_batch_triple refuses json_dumps schema tbl
                endpoint rows batch_size recreate w Hrows w eq_refl) as H.
  split.
  - intros w' n Hrun c Hin. rewrite Hrun in H.
    destruct H as [Hc [t [Hf [_ [[Hold Hnew] _]]]]].
    rewrite Hc. unfold table_columns. rewrite Hf.
    destruct (dict_mem c (t_columns (prepared_table schema tbl recreate w)))
      eqn:M.
    + split; [|discriminate]. unfold dict_mem in *.
      destruct (dict_get c (t_columns (prepared_table schema tbl recreate w)))
        as [x|] eqn:G; [|discriminate].
      now rewrite (Hold c x G).
    + specialize (Hnew c Hin M). unfold dict_mem. rewrite Hnew.
      split; [reflexivity | intros _; reflexivity].
  - intros c Hin M Href.
    destruct (insert_rows_batch refuses json_dumps schema tbl endpoint rows
                                batch_size recreate w) as [w' n | w' e].
    + destruct H as [_ [t [_ [_ [_ [_ Hacc]]]]]].
      destruct (Hacc c Hin); congruence.
    + exists w', e. split; [reflexivity|].
      destruct H as [_ [[Hacc | [Hr | Hr]] _]].
      * destruct (Hacc c Hin); congruence.
      * rewrite prepared_rows in Hr. destruct recreate; tauto.
      * tauto.
Qed.


End LoaderTheorems.

(** C3, as stated: when chunk K fails the records of the chunks before it
    remain committed.  With one record per chunk and a store that refuses
    the second chunk, the first record is pending in the transaction and
    the committed table is empty. *)
Lemma chunk_failure_counterexample :
  exists w' e,
    insert_rows_batch refuse_second_chunk demo_dumps "acme" "api_y" "Y"
                      demo_rows 1 false demo_world
    = Raised w' e
    /\ table_rows "acme" "api_y" (current w')
       = [[("_endpoint", JStr "Y"); ("a", JInt 1); ("b", JInt 10)]]%string
    /\ table_rows "acme" "api_y" (committed w') = [].
Proof. eexists. eexists. vm_compute. repeat split. Qed.

Lemma chunks_commit_together_witness :
  match insert_chunks refuse_second_chunk demo_dumps "acme" "api_y" "Y"
                      (all_cols_of demo_rows) demo_rows 1 demo_world with
  | Ok w' _ => committed w' = committed demo_world
  | Raised w' _ => committed w' = committed demo_world
  end.
Proof.
  destruct (@chunks_commit_together refuse_second_chunk demo_dumps
              "acme" "api_y" "Y" demo_rows 1 false demo_world)
    as [H _].
  - discriminate.
  - apply (H demo_world).
Defined.

(** C8, as stated: a failure while adding one column prevents neither the
    other columns nor the insert.  With a store that refuses column [a],
    column [b] is not added and no row is inserted, though the table and
    its base columns exist. *)
Lemma add_column_failure_counterexample :
  exists w' e,
    insert_rows_batch refuse_column_a demo_dumps "acme" "api_y" "Y"
                      demo_rows 500 false demo_world
    = Raised w' e
    /\ dict_mem "_endpoint" (table_columns "acme" "api_y" (current w')) = true
    /\ dict_mem "b" (table_columns "acme" "api_y" (current w')) = false
    /\ table_rows "acme" "api_y" (current w') = [].
Proof. eexists. eexists. vm_compute. repeat split. Qed.

Lemma missing_columns_added_or_call_raises_witness :
  exists w' e,
    insert_rows_batch refuse_column_a demo_dumps "acme" "api_y" "Y"
                      demo_rows 500 false demo_world
    = Raised w' e
    /\ (table_rows "acme" "api_y" (current w') = []
        \/ table_rows "acme" "api_y" (current w')
           = table_rows "acme" "api_y" (current demo_world)).
Proof.
  destruct (@missing_columns_added_or_call_raises refuse_column_a demo_dumps
              "acme" "api_y" "Y" demo_rows 500 false demo_world)
    as [_ H].
  - discriminate.
  - apply (H "a"%string).
    + vm_compute. left. reflexivity.
    + reflexivity.
    + reflexivity.
Defined.


(** * Further properties *)

(** ** More on the identifier sanitizer *)

Lemma str_chars (s : string) : Py.str (Py.chars s) = s.
Proof. apply string_of_list_ascii_of_string. Qed.

Lemma sanitize_chars_canonical (name : list ascii) :
  canonical (sanitize_chars name) /\ List.length (sanitize_chars name) <= 63.
Proof.
  rewrite sanitize_chars_core. split.
  - apply canonical_firstn, sanitize_core_canonical.
  - apply firstn_le_length.
Qed.

Lemma sanitize_col_grammar (k : string) : is_identifier (sanitize_col k) = true.
Proof.
  unfold sanitize_col, is_identifier. rewrite chars_str.
  destruct (sanitize_chars_canonical (Py.chars k)) as [[HI [_ HS]] Hlen].
  destruct (sanitize_chars (Py.chars k)) as [| c tl]; [discriminate HS|].
  simpl in HS. destruct (az_facts c HS) as [_ [_ [_ [Hd _]]]].
  rewrite Hd, HI. cbn [negb andb]. apply Nat.leb_le. exact Hlen.
Qed.

(** The names [sanitize_col] leaves as they are are exactly the clean
    names. *)
Theorem sanitize_col_fixed_points (name : string) :
  sanitize_col name = name <-> is_clean_name name = true.
Proof.
  unfold is_clean_name, sanitize_col. split.
  - intros Heq. apply (f_equal Py.chars) in Heq. rewrite chars_str in Heq.
    destruct (sanitize_chars_canonical (Py.chars name)) as [Hcan Hlen].
    rewrite Heq in Hcan, Hlen.
    destruct (ends_in Py.underscore (Py.chars name)) eqn:E.
    + pose proof (sanitize_chars_shrinks Hcan E) as Hlt.
      rewrite Heq in Hlt. lia.
    + destruct Hcan as [HI [HU HS]]. rewrite HI, HU, HS. simpl.
      now apply Nat.leb_le.
  - intros H. repeat (apply andb_true_iff in H; destruct H as [H ?]).
    rewrite sanitize_chars_fixed.
    + apply str_chars.
    + now repeat split.
    + now apply Nat.leb_le.
    + now apply negb_true_iff.
Qed.

Lemma sanitize_col_canonical (k : string) :
  canonical (Py.chars (sanitize_col k)).
Proof.
  unfold sanitize_col. rewrite chars_str. apply sanitize_chars_canonical.
Qed.

(** The sanitized name begins with a letter [a-z], never with an underscore
    or a digit, and has no two underscores in a row. *)
Theorem sanitize_col_letter_first (k : string) :
  starts_in Py.az (Py.chars (sanitize_col k)) = true
  /\ no_uu (Py.chars (sanitize_col k)) = true.
Proof.
  destruct (sanitize_col_canonical k) as [_ [HU HS]]. now split.
Qed.

Lemma lower_space (c : ascii) : Py.isspace (Py.lower c) = Py.isspace c.
Proof. each_char c. Qed.

Lemma lower_word (c : ascii) : Py.word (Py.lower c) = Py.word c.
Proof. each_char c. Qed.

Lemma lower_lower (c : ascii) : Py.lower (Py.lower c) = Py.lower c.
Proof. each_char c. Qed.

Lemma lstrip_map (cls : ascii -> bool) (f : ascii -> ascii) (s : list ascii) :
  (forall c, cls (f c) = cls c) ->
  Py.lstrip cls (map f s) = map f (Py.lstrip cls s).
Proof.
  intros Hf. induction s as [| c tl IH]; simpl; [reflexivity|].
  rewrite Hf. now destruct (cls c).
Qed.

Lemma rstrip_map (cls : ascii -> bool) (f : ascii -> ascii) (s : list ascii) :
  (forall c, cls (f c) = cls c) ->
  Py.rstrip cls (map f s) = map f (Py.rstrip cls s).
Proof.
  intros Hf. induction s as [| c tl IH]; simpl; [reflexivity|].
  rewrite IH, Hf.
  destruct (Py.rstrip cls tl); simpl; [now destruct (cls c) | reflexivity].
Qed.

Lemma strip_map (cls : ascii -> bool) (f : ascii -> ascii) (s : list ascii) :
  (forall c, cls (f c) = cls c) ->
  Py.strip cls (map f s) = map f (Py.strip cls s).
Proof.
  intros Hf. unfold Py.strip. now rewrite lstrip_map, rstrip_map.
Qed.

Lemma sub_runs_map (cls : ascii -> bool) (f : ascii -> ascii) (r : ascii)
      (b : bool) (s : list ascii) :
  (forall c, cls (f c) = cls c) -> f r = r ->
  Py.sub_runs cls r b (map f s) = map f (Py.sub_runs cls r b s).
Proof.
  intros Hf Hr. revert b.
  induction s as [| c tl IH]; intros b; simpl; [reflexivity|].
  rewrite Hf. destruct (cls c); [destruct b|]; simpl; now rewrite ?Hr, IH.
Qed.

Lemma lower_az_space (c : ascii) : Py.isspace (lower_az c) = Py.isspace c.
Proof. each_char c. Qed.

Lemma lower_az_word (c : ascii) : Py.word (lower_az c) = Py.word c.
Proof. each_char c. Qed.

Lemma lower_az_underscore (c : ascii) :
  Py.underscore (lower_az c) = Py.underscore c.
Proof. each_char c. Qed.

Lemma lower_lower_az (c : ascii) : Py.lower (lower_az c) = Py.lower c.
Proof. each_char c. Qed.

(** The case of the letters [A-Z] of the key does not matter: a key and the
    key with these letters turned to [a-z] get the same name. *)
Theorem sanitize_col_ignores_case (k : string) :
  sanitize_col (ascii_lower k) = sanitize_col k.
Proof.
  unfold sanitize_col, ascii_lower. rewrite chars_str. f_equal.
  unfold sanitize_chars, Py.re_sub_plus.
  rewrite (@strip_map Py.isspace lower_az) by apply lower_az_space.
  rewrite (@sub_runs_map (fun c => negb (Py.word c)) lower_az "_"%char false)
    by (try reflexivity; intros c; now rewrite lower_az_word).
  rewrite (@sub_runs_map Py.underscore lower_az "_"%char false)
    by (try reflexivity; apply lower_az_underscore).
  rewrite (@strip_map Py.underscore lower_az) by apply lower_az_underscore.
  rewrite map_map.
  rewrite (map_ext (fun c => Py.lower (lower_az c)) Py.lower lower_lower_az).
  reflexivity.
Qed.

(** ** More on table names *)

Lemma lower_not_upper (c : ascii) : Py.AZ (Py.lower c) = false.
Proof. each_char c. Qed.

Lemma replace_no_hyphen (s : list ascii) :
  forallb (fun c => negb (Py.hyphen c)) (Py.replace "-" "_" s) = true.
Proof.
  induction s as [| c tl IH]; simpl; [reflexivity|].
  rewrite IH, andb_true_r. each_char c.
Qed.

Lemma insert_boundaries_lower (prev : option ascii) (s : list ascii) :
  forallb (fun c => negb (Py.AZ c))
          (map Py.lower (insert_boundaries prev s)) = true.
Proof.
  revert prev. induction s as [| ch tl IH]; intros prev; simpl; [reflexivity|].
  rewrite map_app, forallb_app. simpl.
  rewrite lower_not_upper, IH.
  now destruct (Py.isupper ch && (islower_opt prev || starts_in Py.islower tl)).
Qed.

Lemma replace_keeps_case (s : list ascii) :
  forallb (fun c => negb (Py.AZ c)) s = true ->
  forallb (fun c => negb (Py.AZ c)) (Py.replace "-" "_" s) = true.
Proof.
  induction s as [| c tl IH]; simpl; intros H; [reflexivity|].
  apply andb_true_iff in H. destruct H as [Hc Htl].
  rewrite (IH Htl), andb_true_r.
  destruct (Ascii.eqb c "-"); [reflexivity | exact Hc].
Qed.

(** Whatever the operation name, the table name is [api_] followed by a
    name that neither begins nor ends with an underscore and holds no hyphen
    and none of the letters [A-Z]. *)
Theorem table_name_from_endpoint_shape (endpoint : string) :
  exists name : list ascii,
    table_name_from_endpoint endpoint = Py.str (Py.chars "api_" ++ name)
    /\ starts_in Py.underscore name = false
    /\ ends_in Py.underscore name = false
    /\ forallb (fun c => negb (Py.hyphen c)) name = true
    /\ forallb (fun c => negb (Py.AZ c)) name = true.
Proof.
  exists (Py.strip Py.underscore
            (Py.replace "-" "_" (snake_words (Py.chars endpoint)))).
  split.
  - unfold table_name_from_endpoint, table_name_chars. do 2 f_equal.
    pose proof (@endpoint_loop (Py.chars endpoint) (Py.chars endpoint) [] []
                               eq_refl) as Hloop.
    simpl in Hloop. rewrite Hloop. clear Hloop.
    unfold snake_words.
    destruct (Py.chars endpoint) as [| ch tl]; [reflexivity|].
    simpl. rewrite map_app. simpl. rewrite loop_output_boundaries.
    destruct (Py.isupper ch) eqn:U; simpl; [| reflexivity].
    destruct (starts_in Py.islower tl); simpl; [| reflexivity].
    destruct (upper_lower_plain ch U) as [Hu Hh].
    unfold Py.strip. simpl. rewrite Hh, Hu. reflexivity.
  - unfold Py.strip. split; [|split; [|split]].
    + apply rstrip_starts, lstrip_starts.
    + apply rstrip_ends.
    + apply rstrip_forallb, lstrip_forallb, replace_no_hyphen.
    + apply rstrip_forallb, lstrip_forallb, replace_keeps_case.
      apply insert_boundaries_lower.
Qed.

(** ** More on flattening *)

Lemma dict_set_flat (k : string) (v : json) (d : dict json) :
  is_identifier k = true -> is_dict v = false ->
  flat_record d -> flat_record (dict_set k v d).
Proof.
  intros Hk Hv. unfold flat_record.
  induction d as [| [k' v'] tl IH]; simpl; intros Hd.
  - constructor; [now split | constructor].
  - inversion Hd as [| ? ? [Hk' Hv'] Htl]; subst.
    destruct (String.eqb k k'); constructor; simpl; auto.
Qed.

Lemma dict_update_flat (other d : dict json) :
  flat_record other -> flat_record d -> flat_record (dict_update d other).
Proof.
  unfold dict_update. intros Ho. revert d.
  induction Ho as [| [k v] tl [Hk Hv] _ IH]; simpl; intros d Hd; [exact Hd|].
  apply IH. now apply dict_set_flat.
Qed.

Lemma flatten_item_flat (v : json) :
  forall (parent_key sep : string) (items : dict json) (k : string),
    flat_record items ->
    flat_record (flatten_item parent_key sep items k v).
Proof.
  induction v as [| b | z | f | s | l _ | o IHo] using json_nested_ind;
    intros parent_key sep items k Hitems;
    try (simpl; apply dict_set_flat;
         [apply sanitize_col_grammar | reflexivity | exact Hitems]).
  simpl. apply dict_update_flat; [| exact Hitems].
  generalize (sanitize_col (compound_key parent_key sep k)). intros key.
  assert (Hgen : forall acc, flat_record acc ->
            flat_record
              ((fix loop (o0 : list (string * json)) (acc0 : dict json)
                  {struct o0} : dict json :=
                  match o0 with
                  | [] => acc0
                  | (k', v') :: tl =>
                      loop tl (flatten_item key sep acc0 k' v')
                  end) o acc)).
  { induction IHo as [| [k' v'] tl Hv' _ IHtl]; intros acc Hacc;
      [exact Hacc|].
    apply IHtl. now apply Hv'. }
  apply Hgen. constructor.
Qed.

Lemma flatten_fold_flat (obj : list (string * json))
      (parent_key sep : string) :
  flat_record (flatten_json obj parent_key sep).
Proof.
  unfold flatten_json.
  assert (Hgen : forall items, flat_record items ->
            flat_record
              (fold_left
                 (fun items kv =>
                    flatten_item parent_key sep items (fst kv) (snd kv))
                 obj items)).
  { induction obj as [| kv tl IH]; simpl; intros items Hitems;
      [exact Hitems|].
    apply IH. now apply flatten_item_flat. }
  apply Hgen. constructor.
Qed.

(** Every key of a flattened record is an identifier and no value of it is
    an object: nested objects are flattened away at every depth, arrays and
    scalars stay as values. *)
Theorem flatten_json_flat (obj : list (string * json))
        (parent_key sep : string) :
  flat_record (flatten_json obj parent_key sep).
Proof. apply flatten_fold_flat. Qed.

(** Whatever the payload, every extracted record is flat: its keys are
    identifiers and none of its values is an object. *)
Theorem extract_rows_flat (payload : json) :
  Forall flat_record (extract_rows_from_payload payload).
Proof.
  assert (Hitem : forall item, flat_record (item_row item)).
  { intros item. destruct item; simpl;
      try (constructor; [split; reflexivity | constructor]).
    apply flatten_fold_flat. }
  unfold extract_rows_from_payload.
  apply Forall_map. apply Forall_forall. intros item _. apply Hitem.
Qed.

Lemma dict_set_fresh {V} (k : string) (v : V) (d : dict V) :
  ~ In k (dict_keys d) -> dict_set k v d = d ++ [(k, v)].
Proof.
  induction d as [| [k' v'] tl IH]; simpl; intros Hnin; [reflexivity|].
  destruct (String.eqb k k') eqn:E.
  - apply String.eqb_eq in E. subst. exfalso. apply Hnin. now left.
  - f_equal. apply IH. intros Hin. apply Hnin. now right.
Qed.

(** An object without nested objects whose keys get pairwise distinct names
    is only renamed: same values, same order. *)
Theorem flatten_json_renames (obj : list (string * json))
        (parent_key sep : string)
        (Hleaves : forallb (fun kv => negb (is_dict (snd kv))) obj = true)
        (Hdistinct :
           NoDup (map (fun kv => sanitize_col
                                   (compound_key parent_key sep (fst kv)))
                      obj)) :
  flatten_json obj parent_key sep
  = map (fun kv => (sanitize_col (compound_key parent_key sep (fst kv)),
                    snd kv)) obj.
Proof.
  unfold flatten_json.
  set (name := fun kv : string * json =>
                 sanitize_col (compound_key parent_key sep (fst kv))).
  assert (Hgen : forall items,
            NoDup (dict_keys items ++ map name obj) ->
            fold_left
              (fun items kv =>
                 flatten_item parent_key sep items (fst kv) (snd kv))
              obj items
            = items ++ map (fun kv => (name kv, snd kv)) obj).
  { induction obj as [| [k v] tl IH]; simpl; intros items Hnd.
    - now rewrite app_nil_r.
    - apply andb_true_iff in Hleaves. destruct Hleaves as [Hv Htl].
      apply negb_true_iff in Hv. simpl in Hv.
      rewrite flatten_item_leaf by exact Hv.
      inversion Hdistinct as [| ? ? _ Hdtl]; subst.
      fold (name (k, v)).
      assert (Hfresh : ~ In (name (k, v)) (dict_keys items)).
      { intros Hin. apply NoDup_remove_2 in Hnd. apply Hnd.
        apply in_or_app. now left. }
      rewrite (dict_set_fresh _ _ _ Hfresh).
      rewrite (IH Htl Hdtl).
      + now rewrite <- app_assoc.
      + unfold dict_keys. rewrite map_app. simpl.
        rewrite <- app_assoc. exact Hnd. }
  apply (Hgen []). exact Hdistinct.
Qed.

Lemma flatten_json_renames_witness :
  flatten_json [("Nome", JStr "Ana"); ("Tags", JArr []); ("Id Ext", JInt 7)]%string
               "pai" "_"
  = [("pai_nome", JStr "Ana"); ("pai_tags", JArr []); ("pai_id_ext", JInt 7)]%string.
Proof.
  apply (@flatten_json_renames
           [("Nome", JStr "Ana"); ("Tags", JArr []); ("Id Ext", JInt 7)]%string
           "pai" "_").
  - reflexivity.
  - vm_compute. repeat constructor; simpl; intuition discriminate.
Defined.

(** ** More on type inference and unification *)

(** Every column of a batch gets one of the seven type tags, and the types
    are listed for exactly the columns of the batch. *)
Theorem col_types_are_tags (rows : list (dict json)) :
  Forall (fun ct => is_tag (snd ct) = true) (col_types_of rows)
  /\ dict_keys (col_types_of rows) = all_cols_of rows.
Proof.
  unfold col_types_of, dict_keys. split.
  - apply Forall_map. apply Forall_forall. intros c _. simpl.
    assert (Hok : running_ok (resolve_col c rows)).
    { unfold resolve_col.
      assert (Hgen : forall cur, running_ok cur ->
                running_ok (fold_left (resolve_step c) rows cur)).
      { induction rows as [| r tl IH]; simpl; intros cur Hcur; [exact Hcur|].
        apply IH. now apply resolve_step_ok. }
      apply Hgen. exact I. }
    destruct (resolve_col c rows) as [t|]; [|reflexivity].
    simpl in Hok. destruct t; [discriminate Hok | exact Hok].
  - rewrite map_map. simpl. apply map_id.
Qed.

Lemma resolve_step_skip (c : string) (cur : option string) (r : dict json) :
  has_value c r = false -> resolve_step c cur r = cur.
Proof.
  unfold has_value, resolve_step.
  destruct (dict_get c r) as [v|]; [|reflexivity].
  destruct (is_none v); [reflexivity | discriminate].
Qed.

(** Values that are [None], and rows without the key, have no part in the
    type of a column; a column without any value gets [text]. *)
Theorem resolve_col_ignores_nulls (c : string) (rows : list (dict json)) :
  resolve_col c rows = resolve_col c (filter (has_value c) rows)
  /\ (forallb (fun r => negb (has_value c r)) rows = true ->
      column_type rows c = "text"%string).
Proof.
  assert (Hgen : forall cur,
            fold_left (resolve_step c) rows cur
            = fold_left (resolve_step c) (filter (has_value c) rows) cur).
  { induction rows as [| r tl IH]; intros cur; simpl; [reflexivity|].
    destruct (has_value c r) eqn:E; simpl; [apply IH|].
    rewrite (resolve_step_skip c cur r E). apply IH. }
  split; [apply Hgen|].
  intros Hnone. unfold column_type, resolve_col. rewrite Hgen.
  replace (filter (has_value c) rows) with (@nil (dict json)); [reflexivity|].
  symmetry. clear Hgen. induction rows as [| r tl IH]; simpl in *; [reflexivity|].
  apply andb_true_iff in Hnone. destruct Hnone as [Hr Htl].
  apply negb_true_iff in Hr. rewrite Hr. now apply IH.
Qed.

Lemma resolve_col_ignores_nulls_witness :
  column_type [[("a", JNull)]; [("b", JInt 1)]]%string "a" = "text"%string.
Proof.
  apply (@resolve_col_ignores_nulls "a" [[("a", JNull)]; [("b", JInt 1)]]%string).
  reflexivity.
Defined.

Ltac split_eqb :=
  repeat match goal with
         | |- context [String.eqb ?x ?y] =>
             destruct (String.eqb_spec x y); subst; cbn [andb orb negb]
         end.

Lemma unify_types_plain (t1 t2 : string) :
  unify_types t1 t2
  = if String.eqb t1 t2 then t1
    else if in_pair "jsonb" t1 t2 then "jsonb"%string
    else if (String.eqb t1 "numeric" && String.eqb t2 "bigint")
            || (String.eqb t2 "numeric" && String.eqb t1 "bigint")
         then "numeric"%string
    else "text"%string.
Proof.
  unfold unify_types.
  destruct (String.eqb t1 t2); [reflexivity|].
  destruct (in_pair "jsonb" t1 t2); [reflexivity|].
  destruct ((String.eqb t1 "numeric" && String.eqb t2 "bigint")
            || (String.eqb t2 "numeric" && String.eqb t1 "bigint"));
    [reflexivity|].
  destruct (in_pair "timestamptz" t1 t2); [reflexivity|].
  destruct (in_pair "text" t1 t2); [reflexivity|].
  now destruct ((str_contains "varchar" t1 || str_contains "varchar" t2)
                && (in_pair t1 "bigint" "numeric"
                    || in_pair t2 "bigint" "numeric")).
Qed.

(** For any two type strings, tags or not: unification does not depend on
    the order of its arguments, a type unifies with itself to itself, and
    two different types unify to jsonb, numeric or text, never to boolean,
    bigint, timestamptz or a varchar. *)
Theorem unify_types_any_strings (t1 t2 : string) :
  unify_types t1 t2 = unify_types t2 t1
  /\ unify_types t1 t1 = t1
  /\ (t1 <> t2 ->
      str_in (unify_types t1 t2) ["jsonb"; "numeric"; "text"]%string = true).
Proof.
  rewrite !unify_types_plain. unfold in_pair.
  split; [|split].
  - split_eqb; try reflexivity; try congruence.
  - now rewrite String.eqb_refl.
  - intros Hne. split_eqb; try reflexivity; congruence.
Qed.

Lemma unify_types_any_strings_witness :
  str_in (unify_types "uuid" "inet") ["jsonb"; "numeric"; "text"]%string = true.
Proof.
  destruct (unify_types_any_strings "uuid" "inet") as [_ [_ H]].
  apply H. discriminate.
Defined.

(** On the seven tags the unified type is an upper bound of both types:
    unifying it again with either of them changes nothing.  A column type
    only widens as rows come in. *)
Theorem unify_types_upper_bound (a b : string)
        (Ha : is_tag a = true) (Hb : is_tag b = true) :
  unify_types (unify_types a b) a = unify_types a b
  /\ unify_types (unify_types a b) b = unify_types a b.
Proof. tag_cases Ha; tag_cases Hb; split; reflexivity. Qed.

Lemma unify_types_upper_bound_witness :
  unify_types (unify_types "bigint" "numeric") "bigint"
  = unify_types "bigint" "numeric"
  /\ unify_types (unify_types "bigint" "numeric") "numeric"
     = unify_types "bigint" "numeric".
Proof.
  apply (@unify_types_upper_bound "bigint" "numeric"); reflexivity.
Defined.

(** ** More on the timestamp pattern *)

Lemma nullable_min_len (r : Re.re) :
  Re.nullable r = true -> min_len r = Some 0.
Proof.
  induction r as [| | p | r1 IH1 r2 IH2 | r1 IH1 r2 IH2 | r IH]; simpl;
    try discriminate; try reflexivity.
  - intros H. apply andb_true_iff in H. destruct H as [H1 H2].
    now rewrite IH1, IH2.
  - intros H. apply orb_true_iff in H. destruct H as [H | H].
    + rewrite IH1 by exact H. now destruct (min_len r2).
    + rewrite IH2 by exact H.
      destruct (min_len r1); simpl; [now rewrite Nat.min_0_r | reflexivity].
Qed.

Lemma at_least_add (a b : option nat) (x y n : nat) :
  at_least a x -> at_least b y -> x + y <= n -> at_least (opt_add a b) n.
Proof. destruct a, b; simpl; try tauto. lia. Qed.

Lemma at_least_split_add (a b : option nat) (n : nat) :
  at_least (opt_add a b) n ->
  exists x y, a = Some x /\ b = Some y /\ x + y <= n.
Proof.
  destruct a as [x|], b as [y|]; simpl; try tauto.
  intros H. now exists x, y.
Qed.

Lemma at_least_split_min (a b : option nat) (n : nat) :
  at_least (opt_min a b) n -> at_least a n \/ at_least b n.
Proof. destruct a, b; simpl; try tauto. lia. Qed.

Lemma at_least_weaken (a : option nat) (n m : nat) :
  at_least a n -> n <= m -> at_least a m.
Proof. destruct a; simpl; [lia | tauto]. Qed.

Lemma at_least_min_any (a b : option nat) (n : nat) :
  at_least a n \/ at_least b n -> at_least (opt_min a b) n.
Proof. destruct a, b; simpl; try tauto; lia. Qed.

Lemma deriv_min_len (c : ascii) (r : Re.re) :
  forall n, at_least (min_len (Re.deriv c r)) n -> at_least (min_len r) (S n).
Proof.
  induction r as [| | p | r1 IH1 r2 IH2 | r1 IH1 r2 IH2 | r IH];
    intros n; simpl.
  - tauto.
  - tauto.
  - destruct (p c); simpl; [lia | tauto].
  - assert (Hleft : at_least (opt_add (min_len (Re.deriv c r1)) (min_len r2)) n
                    -> at_least (opt_add (min_len r1) (min_len r2)) (S n)).
    { intros H. apply at_least_split_add in H.
      destruct H as [x [y [Hx [Hy Hxy]]]].
      apply at_least_add with (x := S x) (y := y); [| | lia].
      - apply IH1. rewrite Hx. simpl. lia.
      - rewrite Hy. simpl. lia. }
    destruct (Re.nullable r1) eqn:N; simpl; [|exact Hleft].
    intros H. apply at_least_split_min in H. destruct H as [H | H].
    + now apply Hleft.
    + rewrite (nullable_min_len r1 N).
      specialize (IH2 n H).
      destruct (min_len r2); simpl in *; [lia | tauto].
  - intros H. apply at_least_split_min in H. apply at_least_min_any.
    destruct H as [H | H]; [left; now apply IH1 | right; now apply IH2].
  - intros _. lia.
Qed.

Lemma fullmatch_min_len (s : list ascii) :
  forall r, Re.fullmatch r s = true -> at_least (min_len r) (List.length s).
Proof.
  induction s as [| c tl IH]; intros r H; simpl in *.
  - rewrite (nullable_min_len r H). simpl. lia.
  - apply deriv_min_len with (c := c). now apply IH.
Qed.

Lemma length_chars (s : string) : List.length (Py.chars s) = String.length s.
Proof. induction s as [| c tl IH]; simpl; [reflexivity | now rewrite IH]. Qed.

(** A string of fewer than ten characters is never taken for a timestamp. *)
Theorem try_parse_timestamp_min_length (s : string) :
  try_parse_timestamp s = true -> 10 <= String.length s.
Proof.
  unfold try_parse_timestamp, Re.match_anchored. intros H.
  apply fullmatch_min_len in H. rewrite length_chars in H. exact H.
Qed.

Lemma try_parse_timestamp_min_length_witness :
  10 <= String.length "2024-01-05".
Proof.
  apply (@try_parse_timestamp_min_length "2024-01-05"). reflexivity.
Defined.

(** The pattern checks the shape only: four digits, two digits and two
    digits between hyphens are a timestamp whatever the digits, there is no
    check of the calendar. *)
Theorem try_parse_timestamp_any_digits (y1 y2 y3 y4 m1 m2 d1 d2 : ascii)
        (Hy1 : Py.d09 y1 = true) (Hy2 : Py.d09 y2 = true)
        (Hy3 : Py.d09 y3 = true) (Hy4 : Py.d09 y4 = true)
        (Hm1 : Py.d09 m1 = true) (Hm2 : Py.d09 m2 = true)
        (Hd1 : Py.d09 d1 = true) (Hd2 : Py.d09 d2 = true) :
  try_parse_timestamp (date_string y1 y2 y3 y4 m1 m2 d1 d2) = true
  /\ infer_pg_type (JStr (date_string y1 y2 y3 y4 m1 m2 d1 d2))
     = "timestamptz"%string.
Proof.
  assert (H : try_parse_timestamp (date_string y1 y2 y3 y4 m1 m2 d1 d2) = true).
  { unfold try_parse_timestamp, Re.match_anchored, date_string.
    rewrite chars_str. unfold timestamp_re.
    cbn -[Py.d09].
    repeat (rewrite ?Hy1, ?Hy2, ?Hy3, ?Hy4, ?Hm1, ?Hm2, ?Hd1, ?Hd2;
            cbn -[Py.d09]).
    reflexivity. }
  split; [exact H|]. simpl. now rewrite H.
Qed.

Lemma try_parse_timestamp_any_digits_witness :
  try_parse_timestamp (date_string "9" "9" "9" "9" "9" "9" "9" "9") = true
  /\ infer_pg_type (JStr (date_string "9" "9" "9" "9" "9" "9" "9" "9"))
     = "timestamptz"%string.
Proof.
  apply (@try_parse_timestamp_any_digits "9" "9" "9" "9" "9" "9" "9" "9");
    reflexivity.
Defined.

(** ** The columns of a batch *)

Lemma set_add_In (x y : string) (s : list string) :
  In x (set_add y s) <-> x = y \/ In x s.
Proof.
  unfold set_add. destruct (str_in y s) eqn:E; simpl; [|intuition].
  apply str_in_In in E. intuition. now subst.
Qed.

Lemma set_add_NoDup (y : string) (s : list string) :
  NoDup s -> NoDup (set_add y s).
Proof.
  intros Hnd. unfold set_add. destruct (str_in y s) eqn:E; [exact Hnd|].
  constructor; [|exact Hnd]. intros Hin. apply str_in_In in Hin. congruence.
Qed.

Lemma set_update_In (x : string) (xs s : list string) :
  In x (set_update s xs) <-> In x s \/ In x xs.
Proof.
  unfold set_update. revert s. induction xs as [| y tl IH]; intros s; simpl.
  - intuition.
  - rewrite IH, set_add_In. intuition.
Qed.

Lemma set_update_NoDup (xs s : list string) :
  NoDup s -> NoDup (set_update s xs).
Proof.
  unfold set_update. revert s. induction xs as [| y tl IH]; intros s Hnd; simpl.
  - exact Hnd.
  - apply IH. now apply set_add_NoDup.
Qed.

Lemma sorted_insert_In (x y : string) (l : list string) :
  In x (sorted_insert y l) <-> x = y \/ In x l.
Proof.
  induction l as [| z tl IH]; simpl; [intuition|].
  destruct (String.leb y z); simpl; [intuition|]. rewrite IH. intuition.
Qed.

Lemma sorted_insert_NoDup (y : string) (l : list string) :
  ~ In y l -> NoDup l -> NoDup (sorted_insert y l).
Proof.
  induction l as [| z tl IH]; simpl; intros Hnin Hnd.
  - constructor; [intros [] | constructor].
  - destruct (String.leb y z).
    + constructor; [exact Hnin | exact Hnd].
    + inversion Hnd as [| ? ? Hz Htl]; subst.
      constructor.
      * rewrite sorted_insert_In. intros [-> | Hin]; [|contradiction].
        apply Hnin. now left.
      * apply IH; [|exact Htl]. intros Hin. apply Hnin. now right.
Qed.

Lemma sorted_In (x : string) (l : list string) : In x (sorted l) <-> In x l.
Proof.
  unfold sorted. induction l as [| y tl IH]; simpl; [reflexivity|].
  rewrite sorted_insert_In, IH. intuition.
Qed.

Lemma sorted_NoDup (l : list string) : NoDup l -> NoDup (sorted l).
Proof.
  unfold sorted. induction l as [| y tl IH]; simpl; intros Hnd;
    [constructor|].
  inversion Hnd as [| ? ? Hy Htl]; subst.
  apply sorted_insert_NoDup; [|now apply IH].
  intros Hin. apply Hy. now apply (sorted_In y tl).
Qed.

Lemma all_keys_In (x : string) (rows : list (dict json)) :
  forall acc,
    In x (fold_left (fun acc r => set_update acc (dict_keys r)) rows acc)
    <-> In x acc \/ exists r, In r rows /\ In x (dict_keys r).
Proof.
  induction rows as [| r tl IH]; intros acc; simpl.
  - split; [now left | intros [H | [r [[] _]]]; exact H].
  - rewrite IH, set_update_In. split.
    + intros [[H | H] | [r' [H1 H2]]]; [now left | right | right].
      * exists r. split; [now left | exact H].
      * exists r'. split; [now right | exact H2].
    + intros [H | [r' [[<- | H1] H2]]]; [left; now left | left; now right |].
      right. now exists r'.
Qed.

Lemma all_keys_NoDup (rows : list (dict json)) :
  forall acc, NoDup acc ->
    NoDup (fold_left (fun acc r => set_update acc (dict_keys r)) rows acc).
Proof.
  induction rows as [| r tl IH]; intros acc Hnd; simpl; [exact Hnd|].
  apply IH. now apply set_update_NoDup.
Qed.

Lemma all_cols_of_In_NoDup (rows : list (dict json)) (c : string) :
  (In c (all_cols_of rows)
   <-> (exists r, In r rows /\ In c (dict_keys r))
       /\ str_in c base_column_names = false)
  /\ NoDup (all_cols_of rows).
Proof.
  unfold all_cols_of. split.
  - rewrite filter_In, sorted_In, all_keys_In, negb_true_iff.
    split.
    + intros [[[] | H] Hb]. now split.
    + intros [H Hb]. split; [now right | exact Hb].
  - apply NoDup_filter, sorted_NoDup, all_keys_NoDup. constructor.
Qed.

(** The columns of a batch are the keys that occur in some row, each once,
    but for [_id], [_fetched_at] and [_endpoint]: a value a record brings
    under one of these three names is never bound. *)
Theorem all_cols_of_keys (rows : list (dict json)) (c : string) :
  (In c (all_cols_of rows)
   <-> (exists r, In r rows /\ In c (dict_keys r))
       /\ str_in c base_column_names = false)
  /\ NoDup (all_cols_of rows).
Proof. apply all_cols_of_In_NoDup. Qed.

Lemma row_values_length (json_dumps : json -> string) (endpoint : string)
      (all_cols : list string) (r : dict json) :
  List.length (row_values json_dumps endpoint all_cols r)
  = S (List.length all_cols).
Proof. unfold row_values. simpl. now rewrite length_map. Qed.

Lemma combine_keys {V} (ks : list string) (vs : list V) :
  List.length ks = List.length vs -> dict_keys (combine ks vs) = ks.
Proof.
  unfold dict_keys. revert vs.
  induction ks as [| k tl IH]; intros [| v vs]; simpl; intros H;
    try reflexivity; try discriminate.
  f_equal. apply IH. now injection H.
Qed.

Lemma dict_get_combine_map {V} (f : string -> V) (cols : list string)
      (c : string) :
  In c cols -> dict_get c (combine cols (map f cols)) = Some (f c).
Proof.
  induction cols as [| c' tl IH]; simpl; [contradiction|].
  intros Hin. destruct (String.eqb_spec c c') as [-> | Hne]; [reflexivity|].
  destruct Hin as [-> | Hin]; [contradiction | now apply IH].
Qed.

(** The row handed to the store for the [i]-th record of a batch is the
    [i]-th of the rows; it binds [_endpoint] first and then every column of
    the batch, the endpoint name under [_endpoint]; under a column it binds
    [None] when the record lacks the key, the text [json.dumps] makes of the
    value when the value is a [dict] or a [list], and the value itself
    otherwise, so that no bound value is a [dict] or a [list]. *)
Theorem stored_rows_shape (json_dumps : json -> string) (endpoint : string)
        (rows : list (dict json)) (i : nat) (r : dict json)
        (Hr : nth_error rows i = Some r) :
  exists row,
    nth_error (stored_rows json_dumps endpoint (all_cols_of rows) rows) i
    = Some row
    /\ dict_keys row = "_endpoint"%string :: all_cols_of rows
    /\ dict_get "_endpoint" row = Some (JStr endpoint)
    /\ Forall (fun kv => is_scalar (snd kv) = true) row
    /\ (forall c, In c (all_cols_of rows) ->
                  dict_get c row
                  = Some (match dict_get c r with
                          | None => JNull
                          | Some v =>
                              if is_scalar v then v else JStr (json_dumps v)
                          end))
    /\ List.length (stored_rows json_dumps endpoint (all_cols_of rows) rows)
       = List.length rows.
Proof.
  unfold stored_rows. rewrite nth_error_map, Hr. cbn [option_map].
  eexists. split; [reflexivity|].
  split; [|split; [|split; [|split]]].
  - apply combine_keys. now rewrite row_values_length.
  - reflexivity.
  - unfold row_values. simpl. constructor; [reflexivity|].
    induction (all_cols_of rows) as [| c tl IH]; simpl; constructor;
      [|exact IH].
    simpl. unfold bound_value.
    destruct (dict_get c r) as [[]|]; reflexivity.
  - intros c Hc.
    destruct (all_cols_of_In_NoDup rows c) as [[Hc' _] _].
    destruct (Hc' Hc) as [_ Hbase].
    unfold row_values. simpl.
    replace (String.eqb c "_endpoint") with false.
    + rewrite (dict_get_combine_map (bound_value json_dumps r)) by exact Hc.
      unfold bound_value. now destruct (dict_get c r) as [[]|].
    + symmetry. unfold str_in, base_column_names in Hbase. simpl in Hbase.
      repeat (apply orb_false_iff in Hbase; destruct Hbase as [? Hbase]).
      assumption.
  - apply length_map.
Qed.

(** The record [{"b": []}] of a batch whose other record has the key [a]:
    [a] is bound to [None] and [b] to the text of the list. *)
Lemma stored_rows_shape_witness :
  exists row,
    nth_error (stored_rows demo_dumps "X"
                 (all_cols_of [[("b", JArr [])]; [("a", JInt 1)]]%string)
                 [[("b", JArr [])]; [("a", JInt 1)]]%string) 0
    = Some row
    /\ dict_get "a" row = Some JNull
    /\ dict_get "b" row = Some (JStr "[]").
Proof.
  destruct (@stored_rows_shape demo_dumps "X"
              [[("b", JArr [])]; [("a", JInt 1)]]%string 0
              [("b", JArr [])]%string eq_refl)
    as [row [Hrow [_ [_ [_ [Hc _]]]]]].
  exists row. split; [exact Hrow|]. split.
  - apply (Hc "a"%string). vm_compute. left. reflexivity.
  - apply (Hc "b"%string). vm_compute. right. left. reflexivity.
Defined.

(** ** From the payload to the columns *)

Section KeysOfRecords.

(** A property every sanitized name has. *)
Variable K : string -> Prop.
Hypothesis K_sanitized : forall raw, K (sanitize_col raw).

Lemma dict_set_keys_have (k : string) (v : json) (d : dict json) :
  K k -> Forall K (dict_keys d) -> Forall K (dict_keys (dict_set k v d)).
Proof.
  intros Hk Hd. apply Forall_forall. intros x Hx.
  apply dict_set_keys_In in Hx. destruct Hx as [-> | Hx]; [exact Hk|].
  rewrite Forall_forall in Hd. now apply Hd.
Qed.

Lemma dict_update_keys_have (other d : dict json) :
  Forall K (dict_keys other) -> Forall K (dict_keys d) ->
  Forall K (dict_keys (dict_update d other)).
Proof.
  unfold dict_update. revert d.
  induction other as [| [k v] tl IH]; simpl; intros d Ho Hd; [exact Hd|].
  inversion Ho; subst. apply IH; [assumption|]. now apply dict_set_keys_have.
Qed.

Lemma flatten_item_keys_have (v : json) :
  forall (parent_key sep : string) (items : dict json) (k : string),
    Forall K (dict_keys items) ->
    Forall K (dict_keys (flatten_item parent_key sep items k v)).
Proof.
  induction v as [| b | z | f | s | l _ | o IHo] using json_nested_ind;
    intros parent_key sep items k Hitems;
    try (simpl; apply dict_set_keys_have; [apply K_sanitized | exact Hitems]).
  simpl. apply dict_update_keys_have; [| exact Hitems].
  generalize (sanitize_col (compound_key parent_key sep k)). intros key.
  assert (Hgen : forall acc, Forall K (dict_keys acc) ->
            Forall K
              (dict_keys
                 ((fix loop (o0 : list (string * json)) (acc0 : dict json)
                     {struct o0} : dict json :=
                     match o0 with
                     | [] => acc0
                     | (k', v') :: tl =>
                         loop tl (flatten_item key sep acc0 k' v')
                     end) o acc))).
  { induction IHo as [| [k' v'] tl Hv' _ IHtl]; intros acc Hacc;
      [exact Hacc|].
    apply IHtl. now apply Hv'. }
  apply Hgen. constructor.
Qed.

Lemma flatten_json_keys_have (obj : list (string * json))
      (parent_key sep : string) :
  Forall K (dict_keys (flatten_json obj parent_key sep)).
Proof.
  unfold flatten_json.
  assert (Hgen : forall items, Forall K (dict_keys items) ->
            Forall K
              (dict_keys
                 (fold_left
                    (fun items kv =>
                       flatten_item parent_key sep items (fst kv) (snd kv))
                    obj items))).
  { induction obj as [| kv tl IH]; simpl; intros items Hitems;
      [exact Hitems|].
    apply IH. now apply flatten_item_keys_have. }
  apply Hgen. constructor.
Qed.

Lemma extract_rows_keys_have (payload : json) :
  Forall (fun r => Forall K (dict_keys r)) (extract_rows_from_payload payload).
Proof.
  assert (Hitem : forall item, Forall K (dict_keys (item_row item))).
  { intros item.
    assert (Hvalor : K "valor"%string)
      by (rewrite <- sanitize_col_valor; apply K_sanitized).
    destruct item; simpl; try (constructor; [exact Hvalor | constructor]).
    apply flatten_json_keys_have. }
  unfold extract_rows_from_payload.
  apply Forall_map. apply Forall_forall. intros item _. apply Hitem.
Qed.

End KeysOfRecords.

Lemma letter_first_not_base (k : string) :
  starts_in Py.az (Py.chars k) = true -> str_in k base_column_names = false.
Proof.
  destruct k as [| c tl]; [discriminate|]. simpl.
  intros Hc. destruct (az_facts c Hc) as [_ [Hu _]].
  unfold str_in, base_column_names. simpl.
  assert (Hne : Ascii.eqb c "_" = false).
  { destruct (Ascii.eqb_spec c "_"%char); [subst; discriminate Hu | reflexivity]. }
  now rewrite Hne.
Qed.

(** No key of an extracted record is lost on the way to the columns: every
    key of every record the normalizer yields is a column of the batch.  The
    three reserved names begin with an underscore and a sanitized name never
    does, so the filter of [insert_rows_batch] removes nothing here. *)
Theorem extracted_keys_are_columns (payload : json) (r : dict json)
        (k : string)
        (Hr : In r (extract_rows_from_payload payload))
        (Hk : In k (dict_keys r)) :
  In k (all_cols_of (extract_rows_from_payload payload)).
Proof.
  destruct (all_cols_of_In_NoDup (extract_rows_from_payload payload) k)
    as [[_ Hin] _].
  apply Hin. split; [now exists r|].
  apply letter_first_not_base.
  pose proof (@extract_rows_keys_have
                (fun k => starts_in Py.az (Py.chars k) = true)
                (fun raw => proj2 (proj2 (sanitize_col_canonical raw)))
                payload) as H.
  rewrite Forall_forall in H. specialize (H r Hr).
  rewrite Forall_forall in H. now apply H.
Qed.

Lemma extracted_keys_are_columns_witness :
  In "nome"%string
     (all_cols_of
        (extract_rows_from_payload
           (JObj [("dados"%string,
                   JArr [JObj [("Nome"%string, JStr "Ana")]])]))).
Proof.
  apply (@extracted_keys_are_columns
           (JObj [("dados"%string, JArr [JObj [("Nome"%string, JStr "Ana")]])])
           [("nome"%string, JStr "Ana")] "nome").
  - left. reflexivity.
  - left. reflexivity.
Defined.

(** ** What the batch loader leaves alone *)

Lemma keeps_ret {A} (F : catalogue -> Prop) (a : A) : keeps F (ret a).
Proof. apply triple_ret. auto. Qed.

Lemma keeps_raise {A} (F : catalogue -> Prop) (e : string) :
  keeps F (@raise A e).
Proof. apply triple_raise. auto. Qed.

Lemma keeps_bind {A B} (F : catalogue -> Prop) (m : M A) (k : A -> M B) :
  keeps F m -> (forall a, keeps F (k a)) -> keeps F (bind m k).
Proof.
  intros Hm Hk. eapply triple_bind; [exact Hm|]. intros a. apply Hk.
Qed.

Lemma keeps_commit (F : catalogue -> Prop) : keeps F commit.
Proof. apply triple_commit. intros w [H _]. now split. Qed.

Lemma keeps_for_fold {X A} (F : catalogue -> Prop) (body : A -> X -> M A)
      (xs : list X) (acc : A) :
  (forall acc x, keeps F (body acc x)) -> keeps F (for_fold body xs acc).
Proof.
  intros Hbody.
  apply (@triple_for_fold X A body xs
           (fun _ _ w => F (current w) /\ F (committed w))
           (fun w => F (current w) /\ F (committed w))).
  intros done x rest acc' _. apply Hbody.
Qed.

Lemma keeps_execute (refuses : stmt -> bool) (F : catalogue -> Prop)
      (q : stmt) :
  (forall db, F db -> F (fst (run_stmt q db))) ->
  keeps F (execute refuses q).
Proof.
  intros Hq. apply triple_execute; [auto|].
  intros w [Hw Hc] _. cbn [current committed]. split; [now apply Hq | exact Hc].
Qed.

Lemma find_table_change_other (schema tbl s' t' : string)
      (f : table -> table) (ts : list ((string * string) * table)) :
  s' <> schema \/ t' <> tbl ->
  find_table s' t' (change_table schema tbl f ts) = find_table s' t' ts.
Proof.
  intros Hne. induction ts as [| [k t] tl IH]; simpl; [reflexivity|].
  destruct (same_table schema tbl k) eqn:E; simpl.
  - assert (Hk : same_table s' t' k = false).
    { unfold same_table in *. apply andb_true_iff in E.
      destruct E as [E1 E2]. apply String.eqb_eq in E1, E2. subst.
      apply andb_false_iff.
      destruct Hne as [H | H]; [left | right]; now apply String.eqb_neq. }
    now rewrite Hk.
  - destruct (same_table s' t' k); [reflexivity | exact IH].
Qed.

Lemma find_table_remove_other (schema tbl s' t' : string)
      (ts : list ((string * string) * table)) :
  s' <> schema \/ t' <> tbl ->
  find_table s' t' (remove_table schema tbl ts) = find_table s' t' ts.
Proof.
  intros Hne. unfold remove_table.
  induction ts as [| [k t] tl IH]; simpl; [reflexivity|].
  destruct (same_table schema tbl k) eqn:E; simpl.
  - assert (Hk : same_table s' t' k = false).
    { unfold same_table in *. apply andb_true_iff in E.
      destruct E as [E1 E2]. apply String.eqb_eq in E1, E2. subst.
      apply andb_false_iff.
      destruct Hne as [H | H]; [left | right]; now apply String.eqb_neq. }
    now rewrite Hk.
  - destruct (same_table s' t' k); [reflexivity | exact IH].
Qed.

Lemma find_table_app_other (schema tbl s' t' : string) (t : table)
      (ts : list ((string * string) * table)) :
  s' <> schema \/ t' <> tbl ->
  find_table s' t' (ts ++ [((schema, tbl), t)]) = find_table s' t' ts.
Proof.
  intros Hne. induction ts as [| [k x] tl IH]; simpl.
  - replace (same_table s' t' (schema, tbl)) with false; [reflexivity|].
    symmetry. unfold same_table. simpl. apply andb_false_iff.
    destruct Hne as [H | H]; [left | right]; now apply String.eqb_neq.
  - destruct (same_table s' t' k); [reflexivity | exact IH].
Qed.

Lemma run_stmt_framed (schema tbl : string) (db0 db : catalogue) (q : stmt) :
  on_target schema tbl q ->
  framed schema tbl db0 db -> framed schema tbl db0 (fst (run_stmt q db)).
Proof.
  intros Hq [Hts Hns].
  destruct q; simpl in Hq; try contradiction; simpl.
  - subst schema0. destruct (str_in schema (namespaces db)) eqn:E.
    + now split.
    + split; [exact Hts|]. simpl.
      destruct Hns as [Hns | Hns]; [right; now rewrite Hns|].
      exfalso. rewrite Hns in E.
      assert (Hin : str_in schema (namespaces db0 ++ [schema]) = true).
      { apply str_in_In, in_or_app. right. now left. }
      congruence.
  - destruct Hq as [-> ->]. split; [|exact Hns]. simpl.
    intros s' t' Hne. rewrite find_table_remove_other by exact Hne.
    now apply Hts.
  - destruct Hq as [-> ->].
    destruct (find_table schema tbl (tables db)); [now split|].
    split; [|exact Hns]. simpl.
    intros s' t' Hne. rewrite find_table_app_other by exact Hne.
    now apply Hts.
  - destruct Hq as [-> ->]. split; [|exact Hns]. simpl.
    intros s' t' Hne. rewrite find_table_change_other by exact Hne.
    now apply Hts.
  - destruct Hq as [-> ->]. split; [|exact Hns]. simpl.
    intros s' t' Hne. rewrite find_table_change_other by exact Hne.
    now apply Hts.
  - now split.
Qed.

Lemma keeps_execute_target (refuses : stmt -> bool) (schema tbl : string)
      (db0 : catalogue) (q : stmt) :
  on_target schema tbl q ->
  keeps (framed schema tbl db0) (execute refuses q).
Proof.
  intros Hq. apply keeps_execute. intros db Hdb.
  now apply run_stmt_framed.
Qed.

Lemma insert_rows_batch_keeps (refuses : stmt -> bool)
      (json_dumps : json -> string) (schema tbl endpoint : string)
      (rows : list (dict json)) (batch_size : Z) (recreate : bool)
      (db0 : catalogue) :
  keeps (framed schema tbl db0)
        (insert_rows_batch refuses json_dumps schema tbl endpoint rows
                           batch_size recreate).
Proof.
  destruct rows as [| r rows'] eqn:Erows; [apply keeps_ret|].
  rewrite <- Erows.
  rewrite insert_rows_batch_nonempty by (rewrite Erows; discriminate).
  assert (Hexec : forall q, on_target schema tbl q ->
                    keeps (framed schema tbl db0) (execute refuses q))
    by (intros q Hq; now apply keeps_execute_target).
  assert (Hcommitted : forall q, on_target schema tbl q ->
                    keeps (framed schema tbl db0)
                          (bind (execute refuses q) (fun _ => commit))).
  { intros q Hq. apply keeps_bind; [now apply Hexec|].
    intros _. apply keeps_commit. }
  apply keeps_bind; [apply Hcommitted; reflexivity|]. intros _.
  apply keeps_bind.
  { destruct recreate; [apply Hcommitted; now split | apply keeps_ret]. }
  intros _.
  apply keeps_bind; [apply Hcommitted; now split|]. intros _.
  apply keeps_bind.
  { unfold get_existing_columns. apply keeps_bind; [now apply Hexec|].
    intros rs. apply keeps_ret. }
  intros existing.
  apply keeps_bind.
  { unfold for_each. apply keeps_for_fold. intros _ c. unfold add_missing.
    destruct (dict_mem c existing); [apply keeps_ret|].
    destruct (dict_get c (col_types_of rows));
      [apply Hcommitted; now split | apply keeps_raise]. }
  intros _.
  apply keeps_bind.
  { unfold insert_chunks. apply keeps_bind.
    - unfold chunk_starts.
      destruct (batch_size =? 0)%Z; [apply keeps_raise|].
      destruct (batch_size <? 0)%Z; apply keeps_ret.
    - intros starts. apply keeps_for_fold. intros total i.
      unfold insert_chunk. apply keeps_bind; [apply Hexec; now split|].
      intros _. apply keeps_ret. }
  intros total.
  apply keeps_bind; [apply keeps_commit|]. intros _. apply keeps_ret.
Qed.

Lemma framed_apart (schema tbl : string) (db0 db : catalogue) :
  framed schema tbl db0 db -> apart schema tbl db0 db.
Proof. intros [Hts Hns]. split; [|exact Hns]. intros s' t' _ _. apply Hts. Qed.

(** For a namespace and a table whose names the store keeps whole, and on a
    connection with nothing pending: whether it returns or raises, a call of
    [insert_rows_batch] leaves every other table as it was, in the catalogue
    the transaction sees and in the committed one, and the list of
    namespaces too, but for the namespace of the call added when it was
    absent. *)
Theorem insert_rows_batch_frame (refuses : stmt -> bool)
        (json_dumps : json -> string) (schema tbl endpoint : string)
        (rows : list (dict json)) (batch_size : Z) (recreate : bool)
        (w : world)
        (Hschema : kept_whole schema = true) (Htbl : kept_whole tbl = true)
        (Hclean : clean w) :
  match insert_rows_batch refuses json_dumps schema tbl endpoint rows
                          batch_size recreate w with
  | Ok w' _ | Raised w' _ =>
      apart schema tbl (current w) (current w')
      /\ apart schema tbl (current w) (committed w')
  end.
Proof.
  assert (Hstart : framed schema tbl (current w) (current w))
    by (split; [reflexivity | now left]).
  pose proof (@insert_rows_batch_keeps refuses json_dumps schema tbl endpoint
                rows batch_size recreate (current w) w) as H.
  assert (Hpre : framed schema tbl (current w) (current w)
                 /\ framed schema tbl (current w) (committed w))
    by (unfold clean in Hclean; rewrite Hclean; now split).
  specialize (H Hpre).
  destruct (insert_rows_batch refuses json_dumps schema tbl endpoint rows
                              batch_size recreate w) as [w' n | w' e];
    destruct H as [H1 H2]; split; now apply framed_apart.
Qed.

Lemma insert_rows_batch_frame_witness :
  match insert_rows_batch accept_all demo_dumps "acme" "api_y" "Y" demo_rows
                          500 false demo_world with
  | Ok w' _ | Raised w' _ =>
      apart "acme" "api_y" (current demo_world) (current w')
      /\ apart "acme" "api_y" (current demo_world) (committed w')
  end.
Proof.
  apply (@insert_rows_batch_frame accept_all demo_dumps "acme" "api_y" "Y"
           demo_rows 500 false demo_world); reflexivity.
Defined.

(** ** Chunk sizes that are not positive *)

Lemma triple_any {A} (P : world -> Prop) (m : M A) :
  triple P m (fun _ _ => True) (fun _ => True).
Proof. intros w _. now destruct (m w). Qed.

Lemma triple_never {A} (m : M A) (Q : world -> A -> Prop)
      (R : world -> Prop) :
  triple (fun _ => False) m Q R.
Proof. intros w []. Qed.

Lemma insert_rows_batch_zero (refuses : stmt -> bool)
      (json_dumps : json -> string) (schema tbl endpoint : string)
      (rows : list (dict json)) (recreate : bool) :
  rows <> [] ->
  triple (fun _ => True)
         (insert_rows_batch refuses json_dumps schema tbl endpoint rows 0
                            recreate)
         (fun _ _ => False) (fun _ => True).
Proof.
  intros Hrows. rewrite insert_rows_batch_nonempty by exact Hrows.
  eapply triple_bind; [apply triple_any|]. intros ?.
  eapply triple_bind; [apply triple_any|]. intros ?.
  eapply triple_bind; [apply triple_any|]. intros ?.
  eapply triple_bind; [apply triple_any|]. intros ?.
  eapply triple_bind; [apply triple_any|]. intros ?.
  apply triple_bind with (Q1 := fun _ _ => False).
  - unfold insert_chunks, chunk_starts. simpl.
    apply triple_bind with (Q1 := fun _ _ => False).
    + now apply triple_raise.
    + intros ?. apply triple_never.
  - intros ?. apply triple_never.
Qed.

(** A chunk size of zero makes the call raise, whatever the store does,
    once the rows are not empty; with a negative chunk size the call, when
    it returns, returns 0 and has inserted no record, and it does return
    when the store refuses nothing. *)
Theorem insert_rows_batch_bad_chunk_size (refuses : stmt -> bool)
        (json_dumps : json -> string) (schema tbl endpoint : string)
        (rows : list (dict json)) (batch_size : Z) (recreate : bool)
        (w : world) (Hrows : rows <> []) :
  (batch_size = 0%Z ->
   exists w' e,
     insert_rows_batch refuses json_dumps schema tbl endpoint rows
                       batch_size recreate w = Raised w' e)
  /\ ((batch_size < 0)%Z ->
      forall w' n,
        insert_rows_batch refuses json_dumps schema tbl endpoint rows
                          batch_size recreate w = Ok w' n ->
        n = 0
        /\ table_rows schema tbl (committed w')
           = if recreate then [] else table_rows schema tbl (current w))
  /\ ((batch_size < 0)%Z -> (forall q, refuses q = false) ->
      exists w',
        insert_rows_batch refuses json_dumps schema tbl endpoint rows
                          batch_size recreate w = Ok w' 0).
Proof.
  pose proof (@insert_rows_batch_triple refuses json_dumps schema tbl
                endpoint rows batch_size recreate w Hrows w eq_refl) as H.
  assert (Hneg : (batch_size < 0)%Z -> inserted_rows rows batch_size = []).
  { intros Hlt. unfold inserted_rows.
    replace (0 <? batch_size)%Z with false; [reflexivity|].
    symmetry. apply Z.ltb_ge. lia. }
  split; [|split].
  - intros ->.
    pose proof (@insert_rows_batch_zero refuses json_dumps schema tbl
                  endpoint rows recreate Hrows w I) as Hz.
    destruct (insert_rows_batch refuses json_dumps schema tbl endpoint rows 0
                                recreate w) as [w' n | w' e];
      [contradiction | now exists w', e].
  - intros Hlt w' n Hrun. rewrite Hrun in H.
    destruct H as [Hc [t [Hf [Hr [_ [Hn _]]]]]].
    rewrite (Hneg Hlt) in Hr, Hn. simpl in Hr, Hn.
    split; [exact Hn|].
    rewrite Hc. unfold table_rows at 1. rewrite Hf, Hr, app_nil_r.
    apply prepared_rows.
  - intros Hlt Hall.
    destruct (insert_rows_batch refuses json_dumps schema tbl endpoint rows
                                batch_size recreate w) as [w' n | w' e].
    + destruct H as [_ [t [_ [_ [_ [Hn _]]]]]].
      rewrite (Hneg Hlt) in Hn. simpl in Hn. subst n. now exists w'.
    + destruct H as [_ [_ [[q Hq] | Hz]]];
        [rewrite Hall in Hq; discriminate | lia].
Qed.

Lemma insert_rows_batch_bad_chunk_size_witness :
  (exists w' e,
      insert_rows_batch accept_all demo_dumps "acme" "api_x" "X" demo_rows 0
                        false demo_world = Raised w' e)
  /\ (exists w',
         insert_rows_batch accept_all demo_dumps "acme" "api_x" "X" demo_rows
                           (-5) false demo_world = Ok w' 0).
Proof.
  split.
  - destruct (@insert_rows_batch_bad_chunk_size accept_all demo_dumps
                "acme" "api_x" "X" demo_rows 0 false demo_world)
      as [H _]; [discriminate|].
    apply H. reflexivity.
  - destruct (@insert_rows_batch_bad_chunk_size accept_all demo_dumps
                "acme" "api_x" "X" demo_rows (-5) false demo_world)
      as [_ [_ H]]; [discriminate|].
    apply H; [reflexivity | intros q; reflexivity].
Defined.

(** ** The columns after a call *)

Lemma dict_mem_app {V} (c : string) (d d' : dict V) :
  dict_mem c (d ++ d') = dict_mem c d || dict_mem c d'.
Proof.
  unfold dict_mem. rewrite dict_get_app. now destruct (dict_get c d).
Qed.

Lemma dict_mem_typed (c : string) (f : string -> string) (l : list string) :
  dict_mem c (map (fun x => (x, f x)) l) = str_in c l.
Proof.
  induction l as [| x tl IH]; [reflexivity|].
  cbn [map]. rewrite dict_mem_cons, str_in_cons. now rewrite IH.
Qed.

Lemma filter_none {X} (f : X -> bool) (l : list X) :
  (forall x, In x l -> f x = false) -> filter f l = [].
Proof.
  induction l as [| x tl IH]; simpl; intros H; [reflexivity|].
  rewrite (H x) by now left. apply IH. intros y Hy. apply H. now right.
Qed.

Section ColumnsFacts.

Variable refuses : stmt -> bool.
Variable json_dumps : json -> string.
Variables schema tbl endpoint : string.
Variable rows : list (dict json).
Variable batch_size : Z.
Variable recreate : bool.
Variable w0 : world.

Local Abbreviation find w := (find_table schema tbl (tables (current w))).
Local Abbreviation t0 := (prepared_table schema tbl recreate w0).
Local Abbreviation absent c := (negb (dict_mem c (t_columns t0))).

Lemma add_missing_exact (existing : dict string) (done rest : list string)
      (c : string) :
  (forall c, dict_mem c existing = dict_mem c (t_columns t0)) ->
  all_cols_of rows = done ++ c :: rest ->
  triple (fun w => exists t,
              find w = Some t
              /\ t_columns t
                 = t_columns t0
                   ++ map (fun c => (c, column_type rows c)) (filter (fun c => absent c) done))
         (add_missing refuses schema tbl existing (col_types_of rows) c)
         (fun w _ => exists t,
              find w = Some t
              /\ t_columns t
                 = t_columns t0
                   ++ map (fun c => (c, column_type rows c))
                          (filter (fun c => absent c) (done ++ [c])))
         (fun _ => True).
Proof.
  intros Hex Hxs. unfold add_missing. rewrite Hex.
  assert (Hin : In c (all_cols_of rows))
    by (rewrite Hxs; apply in_or_app; right; now left).
  assert (Hfresh : ~ In c done).
  { destruct (all_cols_of_In_NoDup rows c) as [_ Hnd].
    rewrite Hxs in Hnd. apply NoDup_remove_2 in Hnd.
    intros Hd. apply Hnd. apply in_or_app. now left. }
  rewrite filter_app. cbn [filter].
  destruct (dict_mem c (t_columns t0)) eqn:M0; cbn [negb].
  - apply triple_ret. intros w Hw. now rewrite app_nil_r.
  - rewrite (col_types_get rows c Hin). fold (column_type rows c).
    apply triple_execute_commit; [auto|].
    intros w [t [Hf Hcols]] _. cbn [current run_stmt fst tables].
    rewrite find_table_change, Hf. cbn [option_map].
    eexists. split; [reflexivity|].
    assert (Hnot : dict_mem c (t_columns t) = false).
    { rewrite Hcols, dict_mem_app, M0, dict_mem_typed. simpl.
      destruct (str_in c (filter (fun c => absent c) done)) eqn:E;
        [|reflexivity].
      apply str_in_In, filter_In in E. now destruct E. }
    rewrite Hnot. cbn [t_columns]. rewrite Hcols, map_app, <- app_assoc.
    reflexivity.
Qed.

Lemma insert_rows_batch_columns :
  rows <> [] ->
  triple (fun w => w = w0)
         (insert_rows_batch refuses json_dumps schema tbl endpoint rows
                            batch_size recreate)
         (fun w' _ =>
            table_columns schema tbl (committed w')
            = t_columns t0 ++ missing_columns rows t0)
         (fun _ => True).
Proof.
  intros Hrows. rewrite insert_rows_batch_nonempty by exact Hrows.
  apply triple_bind
    with (Q1 := fun w (_ : unit) => clean w /\ find w = find w0).
  { eapply triple_conseq;
      [apply (@ensure_schema_triple refuses schema tbl rows batch_size
                                   recreate w0)
      | auto | auto | auto]. }
  intros ?.
  apply triple_bind
    with (Q1 := fun w (_ : unit) =>
                  clean w /\ find w = if recreate then None else find w0).
  { eapply triple_conseq;
      [apply (@maybe_drop_triple refuses schema tbl rows batch_size
                                recreate w0)
      | auto | auto | auto]. }
  intros ?.
  apply triple_bind
    with (Q1 := fun w (_ : unit) => clean w /\ find w = Some t0).
  { eapply triple_conseq;
      [apply (@ensure_table_base_triple refuses schema tbl rows batch_size
                                       recreate w0)
      | auto | auto | auto]. }
  intros ?.
  apply triple_bind
    with (Q1 := fun w existing =>
                  (forall c, dict_mem c existing = dict_mem c (t_columns t0))
                  /\ find w = Some t0).
  { eapply triple_conseq;
      [apply (@get_existing_columns_triple refuses schema tbl rows batch_size
                                          recreate w0)
      | auto | | auto].
    intros w existing [[_ Hf] Hex]. now split. }
  intros existing. apply triple_pure. intros Hex.
  apply triple_bind
    with (Q1 := fun w (_ : unit) =>
                  exists t, find w = Some t
                            /\ t_columns t
                               = t_columns t0 ++ missing_columns rows t0).
  { unfold for_each.
    eapply triple_conseq
      with (P' := fun w => exists t,
                     find w = Some t
                     /\ t_columns t
                        = t_columns t0
                          ++ map (fun c => (c, column_type rows c))
                                 (filter (fun c => absent c) [])).
    - apply (@triple_for_fold string unit
               (fun _ x => add_missing refuses schema tbl existing
                                       (col_types_of rows) x)
               (all_cols_of rows)
               (fun done _ w => exists t,
                    find w = Some t
                    /\ t_columns t
                       = t_columns t0
                         ++ map (fun c => (c, column_type rows c))
                                (filter (fun c => absent c) done))
               (fun _ => True)).
      intros done c rest _ Hxs. now apply add_missing_exact with (rest := rest).
    - intros w Hf. exists t0. simpl. now rewrite app_nil_r.
    - intros w ? H. exact H.
    - auto. }
  intros ?.
  apply triple_bind
    with (Q1 := fun w (_ : nat) =>
                  exists t, find w = Some t
                            /\ t_columns t
                               = t_columns t0 ++ missing_columns rows t0).
  { unfold insert_chunks.
    apply triple_bind
      with (Q1 := fun w (_ : list nat) =>
                    exists t, find w = Some t
                              /\ t_columns t
                                 = t_columns t0 ++ missing_columns rows t0).
    - unfold chunk_starts.
      destruct (batch_size =? 0)%Z; [now apply triple_raise|].
      destruct (batch_size <? 0)%Z; now apply triple_ret.
    - intros starts.
      apply (@triple_for_fold nat nat
               (insert_chunk refuses json_dumps schema tbl endpoint
                             (all_cols_of rows) rows (Z.to_nat batch_size))
               starts
               (fun _ _ w =>
                  exists t, find w = Some t
                            /\ t_columns t
                               = t_columns t0 ++ missing_columns rows t0)
               (fun _ => True)).
      intros done i rest total _. unfold insert_chunk.
      eapply triple_bind; [|intros ?; apply triple_ret; intros w H; exact H].
      apply triple_execute; [auto|].
      intros w [t [Hf Hcols]] _. cbn [current run_stmt fst tables].
      rewrite find_table_change, Hf. cbn [option_map].
      eexists. split; [reflexivity | exact Hcols]. }
  intros total.
  eapply triple_bind; [|intros ?; apply triple_ret; intros w H; exact H].
  apply triple_commit. intros w [t [Hf Hcols]].
  unfold table_columns. cbn [committed]. now rewrite Hf.
Qed.

End ColumnsFacts.


(** Loading the same records a second time without recreating the table
    changes no column: the second call adds nothing to the structure, and
    with a positive chunk size it appends the same rows once more. *)
Theorem insert_rows_batch_again (refuses : stmt -> bool)
        (json_dumps : json -> string) (schema tbl endpoint : string)
        (rows : list (dict json)) (batch_size batch_size2 : Z)
        (recreate : bool) (w w1 w2 : world) (n1 n2 : nat)
        (Hrows : rows <> [])
        (Hfirst : insert_rows_batch refuses json_dumps schema tbl endpoint
                                    rows batch_size recreate w = Ok w1 n1)
        (Hsecond : insert_rows_batch refuses json_dumps schema tbl endpoint
                                     rows batch_size2 false w1 = Ok w2 n2) :
  table_columns schema tbl (committed w2)
  = table_columns schema tbl (committed w1)
  /\ ((0 < batch_size2)%Z ->
      table_rows schema tbl (committed w2)
      = table_rows schema tbl (committed w1)
        ++ stored_rows json_dumps endpoint (all_cols_of rows) rows).
Proof.
  pose proof (@insert_rows_batch_triple refuses json_dumps schema tbl
                endpoint rows batch_size recreate w Hrows w eq_refl) as H1.
  rewrite Hfirst in H1.
  destruct H1 as [Hc1 [t1 [Hf1 [_ [[Hold Hnew] _]]]]].
  assert (Hprep : prepared_table schema tbl false w1 = t1).
  { unfold prepared_table. now rewrite Hf1. }
  split.
  - pose proof (@insert_rows_batch_columns refuses json_dumps schema tbl
                  endpoint rows batch_size2 false w1 Hrows w1 eq_refl) as H2.
    rewrite Hsecond in H2. rewrite H2, Hprep.
    rewrite Hc1. unfold table_columns. rewrite Hf1.
    unfold missing_columns.
    replace (filter (fun c => negb (dict_mem c (t_columns t1)))
                    (all_cols_of rows)) with (@nil string);
      [simpl; apply app_nil_r|].
    symmetry.
    assert (Hall : forall c, In c (all_cols_of rows) ->
                             dict_mem c (t_columns t1) = true).
    { intros c Hin. unfold dict_mem.
      destruct (dict_get c
                  (t_columns (prepared_table schema tbl recreate w)))
        as [x|] eqn:G.
      - now rewrite (Hold c x G).
      - rewrite (Hnew c Hin); [reflexivity|].
        unfold dict_mem. now rewrite G. }
    apply filter_none. intros c Hin. now rewrite (Hall c Hin).
  - intros Hpos.
    pose proof (@insert_rows_batch_triple refuses json_dumps schema tbl
                  endpoint rows batch_size2 false w1 Hrows w1 eq_refl) as H2.
    rewrite Hsecond in H2.
    destruct H2 as [Hc2 [t2 [Hf2 [Hr2 _]]]].
    rewrite Hc2, Hc1. unfold table_rows. rewrite Hf2, Hf1, Hr2, Hprep.
    unfold inserted_rows.
    replace (0 <? batch_size2)%Z with true; [reflexivity|].
    symmetry. now apply Z.ltb_lt.
Qed.


Lemma insert_rows_batch_again_witness :
  exists w1 w2,
    insert_rows_batch accept_all demo_dumps "acme" "api_y" "Y" demo_rows 500
                      true demo_world = Ok w1 2
    /\ insert_rows_batch accept_all demo_dumps "acme" "api_y" "Y" demo_rows 1
                         false w1 = Ok w2 2
    /\ table_columns "acme" "api_y" (committed w2)
       = table_columns "acme" "api_y" (committed w1).
Proof.
  eexists. eexists.
  split; [vm_compute; reflexivity|].
  split; [vm_compute; reflexivity|].
  apply (@insert_rows_batch_again accept_all demo_dumps "acme" "api_y" "Y"
           demo_rows 500 1 true demo_world _ _ 2 2).
  - discriminate.
  - vm_compute. reflexivity.
  - vm_compute. reflexivity.
Defined.

(** ** Purge of a namespace *)

Lemma str_in_app (x : string) (l l' : list string) :
  str_in x (l ++ l') = str_in x l || str_in x l'.
Proof. unfold str_in. apply existsb_app. Qed.

Lemma filter_keep_all {X} (f : X -> bool) (l : list X) :
  (forall x, f x = true) -> filter f l = l.
Proof.
  intros H. induction l as [| x tl IH]; simpl; [reflexivity|].
  now rewrite H, IH.
Qed.

Section PurgeFacts.

Variable refuses : stmt -> bool.
Variable schema : string.
Variable w0 : world.

Lemma drop_tables_loop (tbls : list string) :
  triple (fun w => w = w0)
         (for_fold (drop_one_table refuses schema) tbls 0)
         (fun w' n =>
            n = List.length tbls
            /\ committed w' = committed w0
            /\ namespaces (current w') = namespaces (current w0)
            /\ tables (current w')
               = filter (fun kt => negb (String.eqb schema (fst (fst kt))
                                         && str_in (snd (fst kt)) tbls))
                        (tables (current w0)))
         (fun w' => committed w' = committed w0).
Proof.
  eapply triple_conseq
    with (P' := fun w =>
                  0 = List.length (@nil string)
                  /\ committed w = committed w0
                  /\ namespaces (current w) = namespaces (current w0)
                  /\ tables (current w)
                     = filter (fun kt => negb (String.eqb schema (fst (fst kt))
                                               && str_in (snd (fst kt)) []))
                              (tables (current w0))).
  - apply (@triple_for_fold string nat (drop_one_table refuses schema) tbls
             (fun done n w =>
                n = List.length done
                /\ committed w = committed w0
                /\ namespaces (current w) = namespaces (current w0)
                /\ tables (current w)
                   = filter (fun kt => negb (String.eqb schema (fst (fst kt))
                                             && str_in (snd (fst kt)) done))
                            (tables (current w0)))
             (fun w' => committed w' = committed w0)).
    intros done t rest n _. unfold drop_one_table.
    eapply triple_bind
      with (Q1 := fun w (_ : list (list string)) =>
                    n = List.length done
                    /\ committed w = committed w0
                    /\ namespaces (current w) = namespaces (current w0)
                    /\ tables (current w)
                       = filter (fun kt =>
                                   negb (String.eqb schema (fst (fst kt))
                                         && str_in (snd (fst kt)) (done ++ [t])))
                                (tables (current w0))).
    + apply triple_execute.
      * intros w [_ [Hc _]] _. exact Hc.
      * intros w [Hn [Hc [Hns Hts]]] _.
        cbn [current committed run_stmt fst namespaces tables].
        split; [exact Hn|]. split; [exact Hc|]. split; [exact Hns|].
        unfold remove_table. rewrite Hts, filter_twice.
        apply filter_ext. intros [[s t'] x]. cbn [fst snd].
        unfold same_table. cbn [fst snd].
        rewrite str_in_app. cbn [str_in existsb]. rewrite orb_false_r.
        rewrite (String.eqb_sym t' t).
        now destruct (String.eqb schema s), (str_in t' done),
          (String.eqb t t').
    + intros ?. apply triple_ret. intros w [Hn H]. split; [|exact H].
      rewrite length_app. simpl. lia.
  - intros w ->. cbn [str_in existsb]. repeat split.
    symmetry. apply filter_keep_all. intros kt. now rewrite andb_false_r.
  - auto.
  - auto.
Qed.

End PurgeFacts.

Lemma drop_all_tables_in_schema_outcome (refuses : stmt -> bool)
      (schema : string) (w : world) :
  match drop_all_tables_in_schema refuses schema w with
  | Ok w' n =>
      n = List.length (filter (fun kt => String.eqb schema (fst (fst kt)))
                              (tables (current w)))
      /\ tables (current w')
         = filter (fun kt => negb (String.eqb schema (fst (fst kt))))
                  (tables (current w))
      /\ namespaces (current w') = namespaces (current w)
      /\ (n = 0 -> committed w' = committed w)
      /\ (n <> 0 -> committed w' = current w')
  | Raised w' _ => committed w' = committed w
  end.
Proof.
  unfold drop_all_tables_in_schema, bind at 1, execute.
  destruct (refuses (SelectTablenames schema)); [reflexivity|].
  cbn [run_stmt]. rewrite map_map. cbn [row0 nth].
  set (mine := filter (fun kt => String.eqb schema (fst (fst kt)))
                      (tables (current w))).
  set (w1 := mkWorld (committed w) (current w) (log w)).
  assert (Hkeep : filter (fun kt => negb (String.eqb schema (fst (fst kt))))
                         (tables (current w))
                  = filter (fun kt =>
                              negb (String.eqb schema (fst (fst kt))
                                    && str_in (snd (fst kt))
                                         (map (fun kt => snd (fst kt)) mine)))
                           (tables (current w))).
  { apply filter_ext_in. intros kt Hin. f_equal.
    destruct (String.eqb schema (fst (fst kt))) eqn:E; [|reflexivity].
    symmetry. apply str_in_In.
    apply in_map with (f := fun kt => snd (fst kt)).
    apply filter_In. now split. }
  destruct (map (fun kt => snd (fst kt)) mine) as [| t tl] eqn:Enames.
  - simpl. assert (Hmine : mine = []) by (now destruct mine).
    rewrite Hmine. simpl.
    split; [reflexivity|]. split; [|now repeat split].
    rewrite Hkeep. symmetry.
    apply filter_keep_all. intros kt. simpl. now rewrite andb_false_r.
  - pose proof (@drop_tables_loop refuses schema w1 (t :: tl) w1 eq_refl)
      as Hloop.
    unfold bind.
    destruct (for_fold (drop_one_table refuses schema) (t :: tl) 0 w1)
      as [w' n | w' e]; [|exact Hloop].
    destruct Hloop as [Hn [Hc [Hns Hts]]].
    cbn [commit ret current committed namespaces tables].
    split; [rewrite Hn, <- Enames; apply length_map|].
    split; [rewrite Hts; symmetry; exact Hkeep|].
    split; [exact Hns|].
    split; [intros Hz; rewrite Hn in Hz; discriminate | reflexivity].
Qed.

(** [drop_all_tables_in_schema] returns the number of tables the namespace
    held; after it no table of the namespace is left, the tables of the
    other namespaces and the namespaces themselves are as before, and the
    drops are committed together.  For a namespace without tables nothing
    is sent but the listing and nothing is committed.  When the listing or
    one of the drops is refused the call raises and has committed
    nothing; when no statement is refused the call returns. *)
Theorem drop_all_tables_in_schema_purges (refuses : stmt -> bool)
        (schema : string) (w : world) :
  match drop_all_tables_in_schema refuses schema w with
  | Ok w' n =>
      n = List.length (filter (fun kt => String.eqb schema (fst (fst kt)))
                              (tables (current w)))
      /\ tables (current w')
         = filter (fun kt => negb (String.eqb schema (fst (fst kt))))
                  (tables (current w))
      /\ namespaces (current w') = namespaces (current w)
      /\ (n = 0 -> committed w' = committed w)
      /\ (n <> 0 -> committed w' = current w')
  | Raised w' _ =>
      committed w' = committed w /\ exists q, refuses q = true
  end.
Proof.
  pose proof (@drop_all_tables_in_schema_outcome refuses schema w) as H.
  destruct (drop_all_tables_in_schema refuses schema w) as [w' n | w' e] eqn:E;
    [exact H|].
  split; [exact H|].
  unfold drop_all_tables_in_schema, bind at 1, execute in E.
  destruct (refuses (SelectTablenames schema)) eqn:Rq;
    [exists (SelectTablenames schema); exact Rq|].
  cbn [run_stmt] in E.
  destruct (map row0 _) as [| t tl] in E; [discriminate E|].
  unfold bind at 1 in E.
  revert E. generalize (t :: tl), 0,
    (mkWorld (committed w) (current w) (log w)).
  intros tbls. induction tbls as [| x xs IH]; intros n0 w1 E.
  - discriminate E.
  - cbn [for_fold] in E.
    unfold bind at 2, drop_one_table at 1, bind at 1, execute in E.
    destruct (refuses (DropTableIfExists schema x true)) eqn:Rx;
      [exists (DropTableIfExists schema x true); exact Rx|].
    destruct (run_stmt (DropTableIfExists schema x true) (current w1))
      as [db rows].
    cbn [ret] in E. eapply IH. exact E.
Qed.

Lemma drop_all_tables_in_schema_purges_witness :
  exists w',
    drop_all_tables_in_schema accept_all "acme" demo_world = Ok w' 1
    /\ tables (current w') = [] /\ committed w' = current w'.
Proof.
  pose proof (@drop_all_tables_in_schema_purges accept_all "acme" demo_world)
    as H.
  destruct (drop_all_tables_in_schema accept_all "acme" demo_world)
    as [w' n | w' e].
  - destruct H as [Hn [Hts [_ [_ Hc]]]].
    vm_compute in Hn. subst n. exists w'.
    split; [reflexivity|]. split; [exact Hts|].
    apply Hc. discriminate.
  - destruct H as [_ [q Hq]]. discriminate Hq.
Defined.

(** ** More on orphan namespaces *)

(** Dropping a namespace takes its tables with it and nothing else: when
    [drop_orphan_schemas] returns, every table that is left was there
    before and its namespace, if it was listed in the catalogue, still is;
    and every table of a namespace that is still there is left. *)
Theorem drop_orphan_schemas_cascades (refuses : stmt -> bool)
        (keep_schemas : list string) (c c' : conn) (n : nat)
        (Hrun : drop_orphan_schemas refuses keep_schemas c = Done c' n) :
  (forall kt, In kt (tables (current (store c'))) ->
              In kt (tables (current (store c)))
              /\ (In (fst (fst kt)) (namespaces (current (store c))) ->
                  In (fst (fst kt)) (namespaces (current (store c')))))
  /\ (forall kt, In kt (tables (current (store c))) ->
                 In (fst (fst kt)) (namespaces (current (store c'))) ->
                 In kt (tables (current (store c')))).
Proof.
  destruct (drop_orphan_schemas_returned _ _ _ Hrun) as [Ha Hlist].
  destruct (drop_orphan_schemas_run refuses keep_schemas c Ha Hlist)
    as [c1 [Hrun1 [Hns [Hts _]]]].
  rewrite Hrun in Hrun1. injection Hrun1 as <- _.
  rewrite Hns, Hts. split.
  - intros kt Hin. apply filter_In in Hin. destruct Hin as [Hin Hkeep].
    split; [exact Hin|]. intros Hs. apply filter_In. now split.
  - intros kt Hin Hs. apply filter_In in Hs. destruct Hs as [_ Hkeep].
    apply filter_In. now split.
Qed.

Lemma drop_orphan_schemas_cascades_witness :
  In (("acme", "api_x")%string,
      mkTable (t_columns base_table ++ [("a", "bigint")%string])
              [[("_endpoint", JStr "X"); ("a", JInt 1)]%string])
     (tables demo_db).
Proof.
  apply (proj2
           (@drop_orphan_schemas_cascades accept_all ["acme"]%string
              demo_conn
              (mkConn
                 (mkWorld
                    (mkCatalogue
                       ["pg_catalog"; "public"; "information_schema";
                        "acme"]%string
                       (tables demo_db))
                    (mkCatalogue
                       ["pg_catalog"; "public"; "information_schema";
                        "acme"]%string
                       (tables demo_db))
                    [OrphanRemoved "old"; OrphanRemoved "gone"])
                 false) 2 eq_refl)).
  - left. reflexivity.
  - simpl. tauto.
Defined.

(** The clean-up run again on the connection a returned run has left,
    whatever the store refuses by then.  When the first run met no refused
    drop, the second finds no orphan: if its listing is answered it returns
    0 and leaves namespaces and tables as they are.  When the first run met
    a refused drop, the transaction is still aborted and the second run
    raises at its listing. *)
Theorem drop_orphan_schemas_again (refuses refuses2 : stmt -> bool)
        (keep_schemas : list string) (c c1 : conn) (n1 : nat)
        (Hrun : drop_orphan_schemas refuses keep_schemas c = Done c1 n1) :
  aborted c1
  = existsb (refused_drop refuses)
            (orphans keep_schemas (current (store c)))
  /\ (aborted c1 = false ->
      refuses2 SelectNamespaces = false ->
      exists c2,
        drop_orphan_schemas refuses2 keep_schemas c1 = Done c2 0
        /\ namespaces (current (store c2)) = namespaces (current (store c1))
        /\ tables (current (store c2)) = tables (current (store c1))
        /\ aborted c2 = false)
  /\ (aborted c1 = true ->
      drop_orphan_schemas refuses2 keep_schemas c1
      = Thrown c1 "InFailedSqlTransaction")
  /\ (refuses2 SelectNamespaces = true ->
      exists c2 e,
        drop_orphan_schemas refuses2 keep_schemas c1 = Thrown c2 e
        /\ current (store c2) = current (store c1)).
Proof.
  destruct (drop_orphan_schemas_returned _ _ _ Hrun) as [Ha Hlist].
  destruct (drop_orphan_schemas_run refuses keep_schemas c Ha Hlist)
    as [c1' [Hrun1 [Hns [_ [Hab _]]]]].
  rewrite Hrun in Hrun1. injection Hrun1 as <- _.
  split; [exact Hab|]. split; [|split].
  - intros Ha1 Hlist2.
    assert (Hnone : orphans keep_schemas (current (store c1)) = []).
    { unfold orphans at 1. apply filter_none. intros s Hs.
      rewrite Hns in Hs. apply filter_In in Hs. destruct Hs as [Hs Hnot].
      destruct (is_orphan keep_schemas s) eqn:D; [|reflexivity].
      rewrite before_refusal_all in Hnot by congruence.
      assert (Hin : In s (orphans keep_schemas (current (store c))))
        by (apply filter_In; now split).
      apply str_in_In in Hin. rewrite Hin in Hnot. discriminate Hnot. }
    destruct (drop_orphan_schemas_run refuses2 keep_schemas c1 Ha1 Hlist2)
      as [c2 [Hrun2 [Hns2 [Hts2 [Hab2 _]]]]].
    rewrite Hnone in Hrun2, Hns2, Hts2, Hab2.
    cbn [before_refusal List.length str_in existsb negb] in *.
    exists c2. split; [exact Hrun2|].
    split; [rewrite Hns2; apply filter_keep_all; reflexivity|].
    split; [rewrite Hts2; apply filter_keep_all; reflexivity | exact Hab2].
  - intros Ha1. unfold drop_orphan_schemas, t_bind, execute_tx.
    now rewrite Ha1.
  - intros Hlist2. unfold drop_orphan_schemas, t_bind, execute_tx, execute.
    destruct (aborted c1); [now exists c1, "InFailedSqlTransaction"%string|].
    rewrite Hlist2. now eexists; eexists.
Qed.

Lemma drop_orphan_schemas_again_witness :
  exists c2,
    drop_orphan_schemas refuse_drop_old ["acme"]%string
      (mkConn
         (mkWorld
            (mkCatalogue
               ["pg_catalog"; "public"; "information_schema"; "acme"]%string
               (tables demo_db))
            (mkCatalogue
               ["pg_catalog"; "public"; "information_schema"; "acme"]%string
               (tables demo_db))
            [OrphanRemoved "old"; OrphanRemoved "gone"])
         false)
    = Done c2 0.
Proof.
  destruct (@drop_orphan_schemas_again accept_all refuse_drop_old
              ["acme"]%string demo_conn
              (mkConn
                 (mkWorld
                    (mkCatalogue
                       ["pg_catalog"; "public"; "information_schema";
                        "acme"]%string
                       (tables demo_db))
                    (mkCatalogue
                       ["pg_catalog"; "public"; "information_schema";
                        "acme"]%string
                       (tables demo_db))
                    [OrphanRemoved "old"; OrphanRemoved "gone"])
                 false) 2)
    as [_ [H _]].
  - vm_compute. reflexivity.
  - destruct H as [c2 [H _]]; [reflexivity | reflexivity |].
    exists c2. exact H.
Defined.

(** ** Configuration flags *)

Lemma strip_strip (cls : ascii -> bool) (s : list ascii) :
  Py.strip cls (Py.strip cls s) = Py.strip cls s.
Proof.
  apply strip_keep; unfold Py.strip.
  - apply rstrip_starts, lstrip_starts.
  - apply rstrip_ends.
Qed.

Lemma strip_lower_of_lower (v : string) :
  strip_lower (py_lower v) = strip_lower v.
Proof.
  unfold strip_lower, py_lower. rewrite chars_str. f_equal.
  rewrite (@strip_map Py.isspace Py.lower) by apply lower_space.
  rewrite map_map. apply map_ext. apply lower_lower.
Qed.

Lemma strip_lower_of_strip (v : string) :
  strip_lower (py_strip v) = strip_lower v.
Proof.
  unfold strip_lower, py_strip. rewrite chars_str. now rewrite strip_strip.
Qed.

(** [env_bool] reads a variable that is set without regard to letter case
    and to white space around the value, and then the default plays no
    part; the default is the answer only for a variable that is not set. *)
Theorem env_bool_normalizes (env : dict string) (key v : string)
        (default default' : bool) :
  env_bool (dict_set key v env) key default
  = env_bool (dict_set key (py_lower v) env) key default'
  /\ env_bool (dict_set key v env) key default
     = env_bool (dict_set key (py_strip v) env) key default'
  /\ (getenv env key = None -> env_bool env key default = default).
Proof.
  unfold env_bool, getenv. rewrite !dict_get_set_same.
  rewrite strip_lower_of_lower, strip_lower_of_strip.
  repeat split. intros H. now rewrite H.
Qed.

Lemma env_bool_normalizes_witness :
  env_bool [("API_VERIFY_SSL", "on")]%string "OTHER" true = true.
Proof.
  destruct (@env_bool_normalizes [("API_VERIFY_SSL", "on")]%string "OTHER"
              "x" true false) as [_ [_ H]].
  apply H. reflexivity.
Defined.

(** ** A timestamp followed by a line feed *)

Lemma fullmatch_void (s : list ascii) : Re.fullmatch Re.Void s = false.
Proof. induction s as [| c tl IH]; simpl; [reflexivity | exact IH]. Qed.

Lemma fullmatch_alt (s : list ascii) :
  forall r1 r2,
    Re.fullmatch (Re.Alt r1 r2) s = Re.fullmatch r1 s || Re.fullmatch r2 s.
Proof.
  induction s as [| c tl IH]; intros r1 r2; simpl; [reflexivity | apply IH].
Qed.

Lemma fullmatch_seq (s : list ascii) :
  forall r1 r2,
    Re.fullmatch (Re.Seq r1 r2) s = true
    <-> exists s1 s2, s = s1 ++ s2 /\ Re.fullmatch r1 s1 = true
                      /\ Re.fullmatch r2 s2 = true.
Proof.
  induction s as [| c tl IH]; intros r1 r2.
  - simpl. rewrite andb_true_iff. split.
    + intros [H1 H2]. now exists [], [].
    + intros [s1 [s2 [Hs [H1 H2]]]].
      symmetry in Hs. apply app_eq_nil in Hs. destruct Hs as [-> ->].
      now split.
  - cbn [Re.fullmatch Re.deriv].
    assert (Hleft : Re.fullmatch (Re.Seq (Re.deriv c r1) r2) tl = true
                    <-> exists s1' s2, tl = s1' ++ s2
                          /\ Re.fullmatch r1 (c :: s1') = true
                          /\ Re.fullmatch r2 s2 = true)
      by apply IH.
    destruct (Re.nullable r1) eqn:N.
    + rewrite fullmatch_alt, orb_true_iff, Hleft. split.
      * intros [[s1' [s2 [-> [H1 H2]]]] | H].
        -- now exists (c :: s1'), s2.
        -- exists [], (c :: tl). repeat split; [exact N | exact H].
      * intros [[| c' s1'] [s2 [Hs [H1 H2]]]].
        -- right. simpl in Hs. subst s2. exact H2.
        -- left. simpl in Hs. injection Hs as <- ->. now exists s1', s2.
    + rewrite Hleft. split.
      * intros [s1' [s2 [-> [H1 H2]]]]. now exists (c :: s1'), s2.
      * intros [[| c' s1'] [s2 [Hs [H1 H2]]]].
        -- simpl in H1. congruence.
        -- simpl in Hs. injection Hs as <- ->. now exists s1', s2.
Qed.

Lemma fullmatch_opt_chr (a : ascii) (s : list ascii) :
  Re.fullmatch (Re.Opt (Re.Chr a)) s = true -> s = [] \/ s = [a].
Proof.
  destruct s as [| c [| c' tl]]; [now left | |].
  - simpl. destruct (Ascii.eqb_spec a c); [subst; now right | discriminate].
  - simpl. rewrite fullmatch_alt.
    destruct (Ascii.eqb a c); simpl; rewrite !fullmatch_void; discriminate.
Qed.

Lemma ends_in_snoc (cls : ascii -> bool) (s : list ascii) (c : ascii) :
  ends_in cls (s ++ [c]) = cls c.
Proof.
  induction s as [| x tl IH]; [reflexivity|].
  simpl. destruct (tl ++ [c]) eqn:E; [now destruct tl | exact IH].
Qed.

Lemma chars_append (s s' : string) :
  Py.chars (s ++ s') = Py.chars s ++ Py.chars s'.
Proof. induction s as [| c tl IH]; simpl; [reflexivity | now rewrite IH]. Qed.

(** [$] also stands before a line feed that ends the string: a string taken
    for a timestamp is still taken for one with a line feed after it, and
    its inferred type is [timestamptz]. *)
Theorem try_parse_timestamp_line_feed (s : string)
        (Hts : try_parse_timestamp s = true)
        (Hend : ends_in is_newline (Py.chars s) = false) :
  try_parse_timestamp (s ++ String "010" EmptyString) = true
  /\ infer_pg_type (JStr (s ++ String "010" EmptyString))
     = "timestamptz"%string.
Proof.
  assert (H : try_parse_timestamp (s ++ String "010" EmptyString) = true).
  { unfold try_parse_timestamp, Re.match_anchored in *.
    apply fullmatch_seq in Hts. destruct Hts as [s1 [s2 [Hs [H1 H2]]]].
    apply fullmatch_opt_chr in H2. destruct H2 as [-> | ->].
    - rewrite app_nil_r in Hs. rewrite chars_append, Hs.
      apply fullmatch_seq. exists s1, ["010"%char].
      split; [reflexivity | split; [exact H1 | reflexivity]].
    - rewrite Hs, ends_in_snoc in Hend. discriminate Hend. }
  split; [exact H|]. simpl. now rewrite H.
Qed.

Lemma try_parse_timestamp_line_feed_witness :
  try_parse_timestamp ("2024-01-05" ++ String "010" EmptyString) = true
  /\ infer_pg_type (JStr ("2024-01-05" ++ String "010" EmptyString))
     = "timestamptz"%string.
Proof.
  apply (@try_parse_timestamp_line_feed "2024-01-05"); reflexivity.
Defined.
